(** * Colour/label mappings of dhSegment-torch

    A shallow embedding of [dh_segment_torch/data/color_labels.py]:
    the [ColorLabels] class with its constructors, its JSON serializer,
    and the three module-level helpers [parse_validate_one_hot],
    [all_one_hot_and_colors] and [get_all_one_hots].  Of the class, the
    constructor, the two properties, [from_filter_by_colors], [to_json],
    [from_labels_json_file], [from_list_of_color_labels], [from_colors],
    [from_colors_multilabel], [from_labels] and [from_labels_multilabel]
    are embedded; the text-file reader (it rests on [np.loadtxt]) and
    the two string conversions are not.

    Conventions of the embedding
    - Python [int] is [Z]; [len] yields a [nat].
    - A number that may be a Python/NumPy float is a [number]: an exact
      rational, an infinity or NaN.  Sums of finite values are exact;
      the rounding of floating-point sums is not modelled.
    - The channel values of an RGB colour are a triple of integers,
      [color].  An object of the class holds a colour as a [color_row]:
      the tuple [(r, g, b)], or the list [[r, g, b]] that JSON gives
      back.  A tuple and a list are never equal, and only the tuple can
      be hashed.
    - A raised exception is the [Raise] branch of [result]. *)

From Stdlib Require Import ZArith QArith Qcanon Ascii.
From stdpp Require Import base decidable option list numbers strings gmap.

Local Open Scope Z_scope.

(* ------------------------------------------------------------------ *)
(** ** Exceptions *)

Module Py.

(** The places of the module that raise [ValueError], the NumPy
    conversions included. *)
Inductive value_error : Type :=
| ColorsOneHotCount (ncolors none_hot : nat)
    (* "Cannot have a different number of colors, .., and one hot encoding, .." *)
| ClassesLabelsCount (nclasses nlabels : nat)
    (* "Cannot have a different number of classes, .., and labels, .." *)
| NeedColor            (* "Need at least a color to define a label." *)
| MixedOneHot          (* "Some labels have one hot defined, others not." *)
| OneHotSizes          (* "Some labels have different one hot sizes." *)
| MixedNames           (* "Some labels have a name, others not." *)
| OneHotNotSized       (* "One hot needs to be defined either by a sequence or a string" *)
| NotZeroOne           (* "Found not 0 and 1 when one hot is integers." *)
| NotInUnitRange       (* "Found values smaller than 0 or larger than 1 in one-hot." *)
| NotANumber           (* NumPy: could not convert string to float *)
| Inhomogeneous        (* NumPy: inhomogeneous shape of a nested sequence *)
| InvalidColor.        (* raised by parse_and_validate_color *)

Inductive exn : Type :=
| ValueError (why : value_error)
| FileNotFoundError (path : string)
| IndexError
| TypeError
| AttributeError
| AssertionError.

Inductive result (A : Type) : Type :=
| Ok (a : A)
| Raise (e : exn).
Arguments Ok {A} a.
Arguments Raise {A} e.

Definition bind {A B} (r : result A) (k : A -> result B) : result B :=
  match r with
  | Ok a => k a
  | Raise e => Raise e
  end.

Definition is_value_error {A} (r : result A) : Prop :=
  exists why, r = Raise (ValueError why).

Definition raises {A} (r : result A) : Prop :=
  exists e, r = Raise e.

(** [[f(x) for x in xs]]: the first exception ends the comprehension. *)
Fixpoint for_each {A B} (f : A -> result B) (xs : list A) : result (list B) :=
  match xs with
  | [] => Ok []
  | x :: rest =>
      bind (f x) (fun y => bind (for_each f rest) (fun ys => Ok (y :: ys)))
  end.

(** Truthiness of an optional list: [None] and [[]] are falsy. *)
Definition truthy {A} (o : option (list A)) : bool :=
  match o with
  | Some (_ :: _) => true
  | _ => false
  end.

End Py.
Import Py.

(** [result] is used through stdpp's monad notation [x ← r; k]. *)
#[global] Instance result_ret : MRet result := @Ok.
#[global] Instance result_bind : MBind result := fun A B k r => bind r k.

(* ------------------------------------------------------------------ *)
(** ** The one-hot generator *)

(** [np.arange(0, n)]. *)
Definition np_arange (n : nat) : list Z := Z.of_nat <$> seq 0 n.

(** [get_all_one_hots]:
    [((np.arange(0, 2 ** n)[:, None] & (1 << np.arange(n))) > 0).astype(int)].
    The broadcast makes entry [(i, j)] the test [i & (1 << j) > 0].
    NumPy computes in 64-bit integers, which agree with [Z] as long
    as [n <= 62]; a larger table does not fit in memory. *)
Definition get_all_one_hots (num_classes : nat) : list (list Z) :=
  (fun i => (fun m => if Z.land i m >? 0 then 1 else 0)
              <$> (Z.shiftl 1 <$> np_arange num_classes))
    <$> np_arange (2 ^ num_classes)%nat.

(** "Entry j of row i is bit j of i": the row spelled out with
    [Z.testbit]. *)
Definition bits_row (n : nat) (i : Z) : list Z :=
  (fun j => Z.b2z (Z.testbit i j)) <$> np_arange n.

(* ------------------------------------------------------------------ *)
(** ** The multilabel colour mixer *)

Definition color : Type := Z * Z * Z.

Definition red (c : color) : Z := c.1.1.
Definition green (c : color) : Z := c.1.2.
Definition blue (c : color) : Z := c.2.

(** [a.sum()] of an integer vector. *)
Definition np_sum (xs : list Z) : Z := foldr Z.add 0 xs.

(** [np.where(mask)[0]]: the positions of the true (non-zero) entries,
    counted from [j]. *)
Fixpoint np_where_from (j : nat) (mask : list bool) : list nat :=
  match mask with
  | [] => []
  | b :: rest =>
      if b then j :: np_where_from (S j) rest else np_where_from (S j) rest
  end.

Definition np_where (mask : list bool) : list nat := np_where_from 0 mask.

(** An integer vector used as a mask: non-zero is true. *)
Definition nonzero (x : Z) : bool := negb (x =? 0).

(** [colors[idx]]: the rows at the given positions.  The positions come
    from a row as long as [colors], so no lookup misses. *)
Definition take_rows (colors : list color) (idx : list nat) : list color :=
  omap (fun j => colors !! j) idx.

(** [np.round(s / k)] for an integer sum [s] over [k > 0] rows.  NumPy
    divides in double precision and rounds halves to the even
    neighbour; for channel sums this small the double is on the same
    side of every half-integer as the exact quotient, so the result is
    the exact quotient rounded half-to-even. *)
Definition round_half_even (s k : Z) : Z :=
  let q := s / k in
  let r := s mod k in
  if 2 * r <? k then q
  else if k <? 2 * r then q + 1
  else if Z.even q then q else q + 1.

(** [tuple(np.round(np.mean(rows, axis=0)).astype(int).tolist())]. *)
Definition mean_color (rows : list color) : color :=
  let k := Z.of_nat (length rows) in
  (round_half_even (np_sum (red <$> rows)) k,
   round_half_even (np_sum (green <$> rows)) k,
   round_half_even (np_sum (blue <$> rows)) k).

(** The body of the loop of [all_one_hot_and_colors]. *)
Definition mix_color (colors : list color) (one_hot : list Z) : color :=
  if np_sum one_hot =? 0 then (0, 0, 0)
  else mean_color (take_rows colors (np_where (nonzero <$> one_hot))).

Definition all_one_hot_and_colors (colors : list color)
  : list (list Z) * list color :=
  let num_classes := length colors in
  let one_hots := get_all_one_hots num_classes in
  let final_colors := mix_color colors <$> one_hots in
  (one_hots, final_colors).

(** "The base colours whose bit is set", read off the row directly. *)
Fixpoint chosen (colors : list color) (one_hot : list Z) : list color :=
  match colors, one_hot with
  | c :: cs, x :: rest =>
      if decide (x = 0) then chosen cs rest else c :: chosen cs rest
  | _, _ => []
  end.

(** [r] is an integer nearest to the quotient [s / k]. *)
Definition nearest_to (s k r : Z) : Prop := 2 * Z.abs (k * r - s) <= k.

(** [c] is, channel by channel, an integer nearest to the mean of [rows]. *)
Definition rounded_mean_of (rows : list color) (c : color) : Prop :=
  let k := Z.of_nat (length rows) in
  nearest_to (np_sum (red <$> rows)) k (red c)
  /\ nearest_to (np_sum (green <$> rows)) k (green c)
  /\ nearest_to (np_sum (blue <$> rows)) k (blue c).

(** The row with the single bit [j] set. *)
Definition single_bit (n j : nat) : list Z := <[j := 1]> (replicate n 0).

(* ------------------------------------------------------------------ *)
(** ** Colours and numbers as Python holds them *)

(** A colour of a mapping.  The mixer returns tuples and [json.load]
    returns lists; what the two external helpers return is theirs to
    decide.  [hash] raises [TypeError] on a list, and [==] between a
    tuple and a list is false. *)
Inductive color_row : Type :=
| TupleColor (c : color)
| ListColor (c : color).

#[global] Instance color_row_eq_dec : EqDecision color_row.
Proof. solve_decision. Defined.

(** The channel values, which [np.array] and [np.int32] read off
    either kind. *)
Definition channels (row : color_row) : color :=
  match row with
  | TupleColor c => c
  | ListColor c => c
  end.

(** A Python or NumPy number: an integer or a float.  The finite values
    are exact rationals; a float is also an infinity or NaN. *)
Inductive number : Type :=
| Finite (q : Qc)
| Infinity (negative : bool)
| NaN.

#[global] Instance number_eq_dec : EqDecision number.
Proof. solve_decision. Defined.

(** A Python [int] as a number. *)
Definition of_int (z : Z) : number := Finite (Qc_of_Z z).

(** [x + y]: NaN is absorbing and the two infinities cancel to NaN. *)
Definition num_add (x y : number) : number :=
  match x, y with
  | NaN, _ | _, NaN => NaN
  | Finite a, Finite b => Finite (a + b)%Qc
  | Infinity s, Finite _ => Infinity s
  | Finite _, Infinity s => Infinity s
  | Infinity s, Infinity s' => if Bool.eqb s s' then Infinity s else NaN
  end.

(** [x < b] and [x > b] for a finite bound [b]: both are false on NaN. *)
Definition less_than (x : number) (b : Qc) : bool :=
  match x with
  | Finite q => bool_decide (q < b)%Qc
  | Infinity negative => negative
  | NaN => false
  end.

Definition greater_than (x : number) (b : Qc) : bool :=
  match x with
  | Finite q => bool_decide (b < q)%Qc
  | Infinity negative => negb negative
  | NaN => false
  end.

(* ------------------------------------------------------------------ *)
(** ** NumPy conversions *)

(** Wrap-around of a signed 32-bit integer. *)
Definition wrap32 (z : Z) : Z := (z + 2 ^ 31) mod 2 ^ 32 - 2 ^ 31.

Definition int32_range (z : Z) : Prop := - 2 ^ 31 <= z < 2 ^ 31.

(** The integer part of a rational, towards zero: what a C cast of a
    float to an integer keeps. *)
Definition Qc_trunc (q : Qc) : Z := Z.quot (Qnum q) (Z.pos (Qden q)).

(** [np.int32(x)] / [x.astype(np.int32)] on one entry: the fraction is
    dropped.  Beyond the 32-bit range, and on an infinity or NaN,
    NumPy's answer depends on its version and on the platform (it may
    also raise); the wrap-around and the least integer written here are
    the answers of a C cast on x86, and the properties below stay with
    finite values inside the range. *)
Definition np_int32 (x : number) : Z :=
  match x with
  | Finite q => wrap32 (Qc_trunc q)
  | _ => - 2 ^ 31
  end.

(** [np.array(rows)] of a nested sequence: the rows must have one
    length (NumPy reports an inhomogeneous shape otherwise). *)
Definition np_array {A} (rows : list (list A)) : result (list (list A)) :=
  match rows with
  | [] => Ok []
  | r :: rest =>
      if forallb (fun r' => length r' =? length r)%nat rest then Ok rows
      else Raise (ValueError Inhomogeneous)
  end.

(** [a.sum(axis=0)] of a matrix with at least one row.  The sums are
    exact; NumPy adds in 64-bit integers or in floats, which agrees as
    long as the integer sums stay below [2 ^ 63] and which, for entries
    that are not negative, gives zero for the same columns. *)
Definition sum_axis0 (rows : list (list number)) : list number :=
  match rows with
  | [] => []
  | r :: rest => foldl (zip_with num_add) r rest
  end.

(** [xs[mask]] with a boolean mask, which must be as long as [xs]. *)
Definition mask_select {A} (xs : list A) (mask : list bool) : result (list A) :=
  if (length xs =? length mask)%nat
  then Ok (fst <$> filter (fun p => p.2 = true) (zip xs mask))
  else Raise IndexError.

(** [xs[idx]] on a Python list. *)
Definition getitem {A} (xs : list A) (idx : nat) : result A :=
  match xs !! idx with
  | Some x => Ok x
  | None => Raise IndexError
  end.

(* ------------------------------------------------------------------ *)
(** ** The one-hot value parser *)

(** An element of a one-hot given as a sequence: a number or a text. *)
Inductive scalar : Type :=
| SNum (x : number)
| SStr (s : string).

(** The argument of [parse_validate_one_hot]: a [str], a sized
    sequence, or an object that is neither. *)
Inductive one_hot_input : Type :=
| OneHotText (s : string)
| OneHotSeq (xs : list scalar)
| OneHotUnsized.

(** [[x for x in one_hot]] on a [str]: its one-character substrings
    (the characters of an ASCII text). *)
Fixpoint chars (s : string) : list scalar :=
  match s with
  | EmptyString => []
  | String c rest => SStr (String c EmptyString) :: chars rest
  end.

(** The elements that [np.array] receives, when the argument is sized. *)
Definition elements (one_hot : one_hot_input) : option (list scalar) :=
  match one_hot with
  | OneHotText s => Some (chars s)
  | OneHotSeq xs => Some xs
  | OneHotUnsized => None
  end.

(** Modelled from the spec: [is_int_array] of
    [dh_segment_torch/utils/ops.py], which is not part of the sources at
    hand.  "Integer-array predicate: given a numeric vector, reports
    whether all values are integral."  An infinity and NaN are not. *)
Definition is_int_array (arr : list number) : bool :=
  forallb (fun x => match x with
                    | Finite q => bool_decide (Qc_of_Z (Qc_trunc q) = q)
                    | _ => false
                    end) arr.

Definition zero_or_one (x : number) : Prop := x = of_int 0 \/ x = of_int 1.

(** A finite value between 0 and 1. *)
Definition in_unit_range (x : number) : Prop :=
  exists q, x = Finite q /\ (0 <= q)%Qc /\ (q <= 1)%Qc.

Section OneHotParser.

(** NumPy's conversion of one element to a single-precision float:
    the rounded value of a number (NaN stays NaN), the value a text
    spells ("nan" and "inf" are texts that spell one), or no value when
    the text is not a number ([ValueError]). *)
Variable astype_float32 : scalar -> option number.

(** [np.array(one_hot).astype(np.float32)]. *)
Definition coerce (xs : list scalar) : result (list number) :=
  for_each (fun x => match astype_float32 x with
                     | Some q => Ok q
                     | None => Raise (ValueError NotANumber)
                     end) xs.

Definition parse_validate_one_hot (one_hot : one_hot_input)
  : result (list number) :=
  match elements one_hot with
  | None => Raise (ValueError OneHotNotSized)
  | Some xs =>
      one_hot ← coerce xs;
      if is_int_array one_hot then
        if (0 <? length (list_difference (remove_dups one_hot) [of_int 0; of_int 1]))%nat
        then Raise (ValueError NotZeroOne)
        else Ok (of_int <$> (np_int32 <$> one_hot))
      else
        if existsb (fun x => less_than x 0 || greater_than x 1) one_hot
        then Raise (ValueError NotInUnitRange)
        else Ok one_hot
  end.

End OneHotParser.

(* ------------------------------------------------------------------ *)
(** ** JSON documents and files *)

(** A parsed JSON document, as [json.load] returns it and [json.dump]
    takes it; an object is a [dict]. *)
#[warnings="-register-all"]
Inductive json : Type :=
| JNull
| JInt (z : Z)
| JFloat (x : number)
| JStr (s : string)
| JArr (items : list json)
| JObj (fields : gmap string json).

(** The typed reading of a document as a constructor argument.  Python
    passes the loaded values on unchecked; a document of another shape
    than the annotated argument type is answered with [TypeError] here.
    The properties below only read documents that [to_json] wrote,
    which have the annotated shape. *)
Definition as_int (j : json) : result Z :=
  match j with JInt z => Ok z | _ => Raise TypeError end.

Definition as_number (j : json) : result number :=
  match j with
  | JInt z => Ok (of_int z)
  | JFloat x => Ok x
  | _ => Raise TypeError
  end.

Definition as_str (j : json) : result string :=
  match j with JStr s => Ok s | _ => Raise TypeError end.

Definition as_list {A} (item : json -> result A) (j : json) : result (list A) :=
  match j with JArr items => for_each item items | _ => Raise TypeError end.

Definition as_optional {A} (value : json -> result A) (j : json) : result (option A) :=
  match j with JNull => Ok None | _ => x ← value j; Ok (Some x) end.

(** A colour comes back from [json.load] as a list. *)
Definition as_color (j : json) : result color_row :=
  match j with
  | JArr [JInt r; JInt g; JInt b] => Ok (ListColor (r, g, b))
  | _ => Raise TypeError
  end.

(* ------------------------------------------------------------------ *)
(** ** The class [ColorLabels] *)

(** What [logger.warning] is given by [_check_empty_labels_one_hot]:
    the names of the labels that no row sets, or their positions. *)
Inductive warning : Type :=
| EmptyLabelNames (names : list string)
| EmptyLabelIndices (indices : list nat).

(** A colour specification handed to [parse_and_validate_color]. *)
Inductive color_spec : Type :=
| ColorText (s : string)
| ColorTriple (r g b : Z).

(** A record of the list given to [from_list_of_color_labels]: the three
    keys of the dict that the constructor reads, each possibly absent. *)
Record color_label : Type := {
  cl_color : option color_spec;
  cl_one_hot : option one_hot_input;
  cl_label : option string;
}.

(** Integer one-hot rows (what [get_all_one_hots] and the mixer return)
    as rows of numbers. *)
Definition number_rows (rows : list (list Z)) : list (list number) :=
  (fun row : list Z => of_int <$> row) <$> rows.

Module ColorLabels.

Record t : Type := mk {
  colors : list color_row;
  one_hot_encoding : option (list (list number));
  labels : option (list string);
  log_labels : option (list string);
}.

Definition multilabel (self : t) : bool :=
  match one_hot_encoding self with
  | None => false
  | Some _ => true
  end.

Definition num_classes (self : t) : nat :=
  match one_hot_encoding self with
  | Some (row0 :: _) => length row0
  | _ => length (colors self)
  end.

(** The warning is what the logger receives; [None] when every label
    occurs.  Looking up a name can raise. *)
Definition _check_empty_labels_one_hot (self : t) : result (option warning) :=
  arr ← np_array (default [] (one_hot_encoding self));
  let num_occ_per_label := sum_axis0 arr in
  let empty_labels_indices :=
    np_where ((fun x => bool_decide (x = of_int 0)) <$> num_occ_per_label) in
  if (0 <? length empty_labels_indices)%nat then
    match labels self with
    | Some ((_ :: _) as names) =>
        labels_str ← for_each (getitem names) empty_labels_indices;
        Ok (Some (EmptyLabelNames labels_str))
    | _ => Ok (Some (EmptyLabelIndices empty_labels_indices))
    end
  else Ok None.

(** The names of the rows of a multilabel mapping. *)
Definition multilabel_names (rows : list (list number)) (names : list string)
  : result (list string) :=
  arr ← np_array rows;
  new_names ← for_each
    (fun line =>
       sel ← mask_select names ((fun x => bool_decide (x <> of_int 0)) <$> line);
       Ok (String.concat "+" sel))
    arr;
  match new_names with
  | [] => Raise IndexError
  | _ :: rest => Ok ("background"%string :: rest)
  end.

Definition assert_same_length {A B} (xs : list A) (ys : list B) : result unit :=
  if (length xs =? length ys)%nat then Ok tt else Raise AssertionError.

(** The constructor.  The warning of the check goes to the logger
    and is not part of the object. *)
Definition __init__ (colors : list color_row)
    (one_hot_encoding : option (list (list number)))
    (labels : option (list string)) : result t :=
  let self := mk colors one_hot_encoding labels None in
  _ ← match one_hot_encoding with
      | Some ((_ :: _) as rows) =>
          if negb (length colors =? length rows)%nat
          then Raise (ValueError (ColorsOneHotCount (length colors) (length rows)))
          else _check_empty_labels_one_hot self
      | _ => Ok None
      end;
  match labels with
  | Some ((_ :: _) as names) =>
      if negb (num_classes self =? length names)%nat
      then Raise (ValueError (ClassesLabelsCount (num_classes self) (length names)))
      else
        match one_hot_encoding with
        | Some ((_ :: _) as rows) =>
            new_names ← multilabel_names rows names;
            _ ← assert_same_length new_names colors;
            Ok (mk colors one_hot_encoding labels (Some new_names))
        | _ =>
            _ ← assert_same_length names colors;
            Ok (mk colors one_hot_encoding labels (Some names))
        end
  | _ => Ok self
  end.

(** *** Filtering *)

Record filter_state : Type := {
  new_colors : list color_row;
  new_one_hot_encoding : option (list (list number));
  new_labels : option (list string);
}.

(** [color in colors] for a set of tuples: the colour is hashed first,
    which raises [TypeError] on a list. *)
Definition in_set (x : color_row) (keep : gset color) : result bool :=
  match x with
  | TupleColor c => Ok (bool_decide (c ∈ keep))
  | ListColor _ => Raise TypeError
  end.

(** One turn of the loop over [enumerate(color_labels.colors)]. *)
Definition filter_step (color_labels : t) (keep : gset color)
    (st : filter_state) (index : nat) (color : color_row) : result filter_state :=
  found ← in_set color keep;
  if (found : bool) then
    let new_colors' := new_colors st ++ [color] in
    match one_hot_encoding color_labels with
    | Some ((_ :: _) as rows) =>
        row ← getitem rows index;
        Ok {| new_colors := new_colors';
              new_one_hot_encoding :=
                Some (default [] (new_one_hot_encoding st) ++ [row]);
              new_labels := new_labels st |}
    | _ =>
        match labels color_labels with
        | Some ((_ :: _) as names) =>
            name ← getitem names index;
            Ok {| new_colors := new_colors';
                  new_one_hot_encoding := new_one_hot_encoding st;
                  new_labels := Some (default [] (new_labels st) ++ [name]) |}
        | _ =>
            Ok {| new_colors := new_colors';
                  new_one_hot_encoding := new_one_hot_encoding st;
                  new_labels := new_labels st |}
        end
    end
  else Ok st.

Fixpoint filter_loop (color_labels : t) (keep : gset color)
    (index : nat) (rest : list color_row) (st : filter_state) : result filter_state :=
  match rest with
  | [] => Ok st
  | color :: rest' =>
      st' ← filter_step color_labels keep st index color;
      filter_loop color_labels keep (S index) rest' st'
  end.

Definition from_filter_by_colors (color_labels : t) (keep : gset color)
  : result t :=
  st ← filter_loop color_labels keep 0 (colors color_labels)
         {| new_colors := []; new_one_hot_encoding := None; new_labels := None |};
  let new_labels' :=
    if truthy (one_hot_encoding color_labels) then labels color_labels
    else new_labels st in
  __init__ (new_colors st) (new_one_hot_encoding st) new_labels'.

(** *** JSON *)

(** A row of [np.int32(self.colors).tolist()]; see [np_int32] for
    channels beyond the 32-bit range. *)
Definition json_of_color (row : color_row) : json :=
  let c := channels row in
  JArr [JInt (wrap32 (red c)); JInt (wrap32 (green c)); JInt (wrap32 (blue c))].

Definition json_of_labels (names : option (list string)) : json :=
  match names with
  | None => JNull
  | Some names => JArr (JStr <$> names)
  end.

(** [to_json]: the dict is built first, then written to [path].  The
    file system is a map from path strings to documents: a path string
    stands for one file, and two strings that name the same file are
    not told apart from two files. *)
Definition to_json (self : t) (path : string) (fs : gmap string json)
  : result (gmap string json) :=
  one_hot ← match one_hot_encoding self with
            | Some ((_ :: _) as rows) =>
                arr ← np_array rows;
                Ok (JArr ((fun row => JArr ((fun q => JInt (np_int32 q)) <$> row)) <$> arr))
            | _ => Ok JNull
            end;
  let kwargs : gmap string json :=
    <["colors" := JArr (json_of_color <$> colors self)]>
    (<["one_hot_encoding" := one_hot]>
    (<["labels" := json_of_labels (labels self)]> ∅)) in
  Ok (<[path := JObj kwargs]> fs).

(** The call of [cls] with the loaded dict as keyword arguments: only
    the three parameter names are accepted and [colors] has no default. *)
Definition call_with_kwargs (doc : json) : result t :=
  match doc with
  | JObj kwargs =>
      if bool_decide (dom kwargs ⊆ ({["colors"; "one_hot_encoding"; "labels"]} : gset string))
      then
        match kwargs !! "colors" with
        | None => Raise TypeError
        | Some c =>
            colors ← as_list as_color c;
            one_hot_encoding ←
              as_optional (as_list (as_list as_number))
                (default JNull (kwargs !! "one_hot_encoding"));
            labels ← as_optional (as_list as_str)
                       (default JNull (kwargs !! "labels"));
            __init__ colors one_hot_encoding labels
        end
      else Raise TypeError
  | _ => Raise TypeError
  end.

Definition from_labels_json_file (label_json_file : string)
    (fs : gmap string json) : result t :=
  match fs !! label_json_file with
  | None => Raise (FileNotFoundError label_json_file)
  | Some label_colors_kwargs => call_with_kwargs label_colors_kwargs
  end.

(** *** Constructors that parse colours *)

Section Constructors.

(** [parse_and_validate_color] of [dh_segment_torch/data/utils.py]:
    a validated RGB colour, or no value when it raises. *)
Variable parse_and_validate_color : color_spec -> option color_row.
Variable astype_float32 : scalar -> option number.

Definition parse_color (spec : color_spec) : result color_row :=
  match parse_and_validate_color spec with
  | Some c => Ok c
  | None => Raise (ValueError InvalidColor)
  end.

(** The variables of the loop of [from_list_of_color_labels]. *)
Record list_state : Type := {
  ls_colors : list color_row;
  ls_one_hot_encoding : option (list (list number));
  ls_labels : option (list string);
  has_one_hot : option bool;
  has_labels : option bool;
  one_hot_size : option nat;
}.

(** The [one_hot] half of the loop body. *)
Definition one_hot_step (label : color_label) (st : list_state)
  : result list_state :=
  match cl_one_hot label with
  | Some raw =>
      let st1 :=
        match has_one_hot st with
        | None => {| ls_colors := ls_colors st;
                     ls_one_hot_encoding := Some [];
                     ls_labels := ls_labels st;
                     has_one_hot := Some true;
                     has_labels := has_labels st;
                     one_hot_size := one_hot_size st |}
        | Some _ => st
        end in
      one_hot ← parse_validate_one_hot astype_float32 raw;
      let size := default (length one_hot) (one_hot_size st1) in
      if negb (default false (has_one_hot st1))
      then Raise (ValueError MixedOneHot)
      else if negb (size =? length one_hot)%nat
      then Raise (ValueError OneHotSizes)
      else
        match ls_one_hot_encoding st1 with
        | Some rows =>
            Ok {| ls_colors := ls_colors st1;
                  ls_one_hot_encoding := Some (rows ++ [one_hot]);
                  ls_labels := ls_labels st1;
                  has_one_hot := has_one_hot st1;
                  has_labels := has_labels st1;
                  one_hot_size := Some size |}
        | None => Raise AttributeError
        end
  | None =>
      Ok {| ls_colors := ls_colors st;
            ls_one_hot_encoding := ls_one_hot_encoding st;
            ls_labels := ls_labels st;
            has_one_hot := Some false;
            has_labels := has_labels st;
            one_hot_size := one_hot_size st |}
  end.

(** The [label] half of the loop body. *)
Definition label_step (label : color_label) (st : list_state)
  : result list_state :=
  match cl_label label with
  | Some name =>
      let st1 :=
        match has_labels st with
        | None => {| ls_colors := ls_colors st;
                     ls_one_hot_encoding := ls_one_hot_encoding st;
                     ls_labels := Some [];
                     has_one_hot := has_one_hot st;
                     has_labels := Some true;
                     one_hot_size := one_hot_size st |}
        | Some _ => st
        end in
      if negb (default false (has_labels st1))
      then Raise (ValueError MixedNames)
      else
        match ls_labels st1 with
        | Some names =>
            Ok {| ls_colors := ls_colors st1;
                  ls_one_hot_encoding := ls_one_hot_encoding st1;
                  ls_labels := Some (names ++ [name]);
                  has_one_hot := has_one_hot st1;
                  has_labels := has_labels st1;
                  one_hot_size := one_hot_size st1 |}
        | None => Raise AttributeError
        end
  | None =>
      Ok {| ls_colors := ls_colors st;
            ls_one_hot_encoding := ls_one_hot_encoding st;
            ls_labels := ls_labels st;
            has_one_hot := has_one_hot st;
            has_labels := Some false;
            one_hot_size := one_hot_size st |}
  end.

Definition list_step (st : list_state) (label : color_label)
  : result list_state :=
  match cl_color label with
  | None => Raise (ValueError NeedColor)
  | Some spec =>
      color ← parse_color spec;
      st1 ← one_hot_step label
              {| ls_colors := ls_colors st ++ [color];
                 ls_one_hot_encoding := ls_one_hot_encoding st;
                 ls_labels := ls_labels st;
                 has_one_hot := has_one_hot st;
                 has_labels := has_labels st;
                 one_hot_size := one_hot_size st |};
      label_step label st1
  end.

Fixpoint list_loop (color_labels : list color_label) (st : list_state)
  : result list_state :=
  match color_labels with
  | [] => Ok st
  | label :: rest => st' ← list_step st label; list_loop rest st'
  end.

Definition from_list_of_color_labels (color_labels : list color_label)
    (labels : option (list string)) : result t :=
  st ← list_loop color_labels
         {| ls_colors := []; ls_one_hot_encoding := None; ls_labels := labels;
            has_one_hot := None; has_labels := None; one_hot_size := None |};
  __init__ (ls_colors st) (ls_one_hot_encoding st) (ls_labels st).

Definition from_colors (colors : list color_spec)
    (labels : option (list string)) : result t :=
  colors ← for_each parse_color colors;
  let colors := TupleColor (0, 0, 0) :: colors in
  let labels :=
    match labels with
    | Some ((_ :: _) as names) => Some ("background"%string :: names)
    | _ => labels
    end in
  __init__ colors None labels.

Definition from_colors_multilabel (colors : list color_spec)
    (labels : option (list string)) : result t :=
  colors ← for_each parse_color colors;
  let '(one_hot_encoding, colors) := all_one_hot_and_colors (channels <$> colors) in
  __init__ (TupleColor <$> colors) (Some (number_rows one_hot_encoding)) labels.

End Constructors.

(** *** Constructors that draw colours *)

Section Generated.

(** [n_colors] of [dh_segment_torch/data/utils.py]: the colours for a
    count.  The retry loop below calls it again to get other colours,
    so a call may depend on the state [rng] of a generator, which it
    hands back. *)
Variable rng : Type.
Variable n_colors : nat -> rng -> list color_row * rng.

Definition from_labels (labels : list string) (g : rng) : result t * rng :=
  let num_classes := length labels in
  let '(colors, g) := n_colors num_classes g in
  (__init__ colors None (Some labels), g).

(** [len(colors) == len(set(colors))]. *)
Definition all_distinct (colors : list color) : bool :=
  (length colors =? length (remove_dups colors))%nat.

(** The [while num_tries_left:] loop of [from_labels_multilabel]:
    [Some] when it ends by [break], [None] when the tries run out and
    the [else] branch is taken. *)
Fixpoint mix_tries (num_tries_left num_classes : nat) (g : rng)
  : option (list (list Z) * list color) * rng :=
  match num_tries_left with
  | O => (None, g)
  | S num_tries_left =>
      let '(base_colors, g) := n_colors num_classes g in
      let '(one_hot_encoding, colors) :=
        all_one_hot_and_colors (channels <$> base_colors) in
      if all_distinct colors then (Some (one_hot_encoding, colors), g)
      else mix_tries num_tries_left num_classes g
  end.

Definition from_labels_multilabel (labels : list string) (g : rng)
  : result t * rng :=
  let num_classes := length labels in
  match mix_tries 10 num_classes g with
  | (Some (one_hot_encoding, colors), g) =>
      (__init__ (TupleColor <$> colors) (Some (number_rows one_hot_encoding))
         (Some labels), g)
  | (None, g) =>
      let one_hot_encoding := get_all_one_hots num_classes in
      let '(colors, g) := n_colors (length one_hot_encoding) g in
      (__init__ colors (Some (number_rows one_hot_encoding)) (Some labels), g)
  end.

End Generated.

End ColorLabels.

(* ------------------------------------------------------------------ *)
(** ** Notions used in the statements *)

(** A colour whose channels are 32-bit integers (every colour that
    [parse_and_validate_color] validates is one). *)
Definition int32_color (c : color) : Prop :=
  int32_range (red c) /\ int32_range (green c) /\ int32_range (blue c).

(** A one-hot entry that is a 32-bit integer. *)
Definition int32_entry (x : number) : Prop :=
  exists z, int32_range z /\ x = of_int z.

Definition int32_rows (rows : list (list number)) : Prop :=
  Forall (Forall int32_entry) rows.

(** The colour as [json.load] gives it back: the list of its channels. *)
Definition as_list_color (row : color_row) : color_row :=
  ListColor (channels row).

(** The mapping used to refute the exact round trip: two rows, the
    first with the fractional one-hot entry 1/2. *)
Definition fractional_mapping : ColorLabels.t :=
  ColorLabels.mk [TupleColor (0, 0, 0); TupleColor (255, 0, 0)]
    (Some [[Finite (Q2Qc (1 # 2))]; [of_int 1]]) None None.

(** The colour is a tuple, the kind that can be hashed. *)
Definition is_tuple (row : color_row) : Prop :=
  match row with
  | TupleColor _ => True
  | ListColor _ => False
  end.

#[global] Instance is_tuple_dec (row : color_row) : Decision (is_tuple row).
Proof. destruct row; simpl; apply _. Defined.

(** The colour is a tuple that is an element of [keep]. *)
Definition is_kept (keep : gset color) (row : color_row) : Prop :=
  match row with
  | TupleColor c => c ∈ keep
  | ListColor _ => False
  end.

#[global] Instance is_kept_dec (keep : gset color) (row : color_row)
  : Decision (is_kept keep row).
Proof. destruct row; simpl; apply _. Defined.

(** The entries of [xs] that stand at the positions of the colours of
    [cs] that are in [keep], in their order. *)
Fixpoint kept {A : Type} (keep : gset color) (cs : list color_row) (xs : list A)
  : list A :=
  match cs, xs with
  | c :: cs', x :: xs' =>
      if decide (is_kept keep c) then x :: kept keep cs' xs' else kept keep cs' xs'
  | _, _ => []
  end.

(** A list that the loop of [from_filter_by_colors] only creates on its
    first append: [None] as long as nothing was appended. *)
Definition some_if_any {A : Type} (xs : list A) : option (list A) :=
  match xs with
  | [] => None
  | _ => Some xs
  end.

(** Appending [xs] item by item to such a list [o]. *)
Definition appended {A : Type} (o : option (list A)) (xs : list A)
  : option (list A) :=
  match xs with
  | [] => o
  | _ => Some (default [] o ++ xs)
  end.

(** The mapping used to refute "labels unchanged when multilabel": its
    [one_hot_encoding] is the empty list, so it is multilabel, and it
    has one label per colour. *)
Definition empty_one_hot_mapping : ColorLabels.t :=
  ColorLabels.mk [TupleColor (0, 0, 0); TupleColor (255, 0, 0); TupleColor (0, 255, 0)]
    (Some [])
    (Some ["paper"; "ink"; "stamp"]%string)
    (Some ["paper"; "ink"; "stamp"]%string).

(** A mapping with one-hot rows and a label, used to show what
    filtering every row away does. *)
Definition ink_mapping : ColorLabels.t :=
  ColorLabels.mk [TupleColor (0, 0, 0); TupleColor (255, 0, 0)]
    (Some [[of_int 0]; [of_int 1]]) (Some ["ink"%string])
    (Some ["background"; "ink"]%string).

(** Two colours as tuples, and the same two as [from_labels_json_file]
    returns them. *)
Definition tuple_mapping : ColorLabels.t :=
  ColorLabels.mk [TupleColor (0, 0, 0); TupleColor (255, 0, 0)] None None None.

Definition json_loaded_mapping : ColorLabels.t :=
  ColorLabels.mk [ListColor (0, 0, 0); ListColor (255, 0, 0)] None None None.

(** The mapping with no colours and the empty list as one-hot rows. *)
Definition empty_rows_mapping : ColorLabels.t :=
  ColorLabels.mk [] (Some []) None None.

(** A value is integral: it is the image of an integer. *)
Definition integral (x : number) : Prop := exists z, x = of_int z.

(** [arr] holds the numeric coercions of [xs], in order. *)
Definition coerced (astype_float32 : scalar -> option number)
    (xs : list scalar) (arr : list number) : Prop :=
  Forall2 (fun x q => astype_float32 x = Some q) xs arr.

(** A value smaller than 0 or larger than 1.  NaN is neither. *)
Definition beyond_unit_range (x : number) : Prop :=
  match x with
  | Finite q => (q < 0)%Qc \/ (1 < q)%Qc
  | Infinity _ => True
  | NaN => False
  end.

(** The coerced values that the parser rejects: all integral with one
    outside {0, 1}, or not all integral with one smaller than 0 or
    larger than 1. *)
Definition rejected (arr : list number) : Prop :=
  (Forall integral arr /\ Exists (fun x => ~ zero_or_one x) arr)
  \/ (~ Forall integral arr /\ Exists beyond_unit_range arr).

(** The reading "some value lies outside [0, 1]" of the second case,
    which counts NaN as outside. *)
Definition rejected_outside (arr : list number) : Prop :=
  (Forall integral arr /\ Exists (fun x => ~ zero_or_one x) arr)
  \/ (~ Forall integral arr /\ Exists (fun x => ~ in_unit_range x) arr).

(** An instance of the conversion for the worked examples.  It is what
    NumPy does on a number that single precision holds exactly and on
    a one-character text: a decimal digit converts to its value and any
    other character is not a number.  Longer texts are not covered by
    this instance (it answers [None] for them). *)
Definition example_float32 (x : scalar) : option number :=
  match x with
  | SNum q => Some q
  | SStr (String c EmptyString) =>
      let n := Ascii.nat_of_ascii c in
      if ((48 <=? n) && (n <=? 57))%nat then Some (of_int (Z.of_nat n - 48))
      else None
  | SStr _ => None
  end.

(* ------------------------------------------------------------------ *)
(** ** Notions for the list constructors *)

(** The value of a hexadecimal digit. *)
Definition hex_digit (c : Ascii.ascii) : option Z :=
  let n := Z.of_nat (Ascii.nat_of_ascii c) in
  if (48 <=? n) && (n <=? 57) then Some (n - 48)
  else if (65 <=? n) && (n <=? 70) then Some (n - 55)
  else if (97 <=? n) && (n <=? 102) then Some (n - 87)
  else None.

Definition hex_byte (hi lo : Ascii.ascii) : option Z :=
  h ← hex_digit hi; l ← hex_digit lo; Some (16 * h + l).

(** Modelled from the spec: [parse_and_validate_color] of
    [dh_segment_torch/data/utils.py], which is not part of the sources
    at hand.  "Color parser/validator: given a color specification
    (name, hex, or numeric triple), returns a validated integer RGB
    triple in [0,255] or fails with ValidationError."  The model reads
    the hex form [#RRGGBB] and numeric triples; colour names need a
    table that the spec does not give and are not covered (the model
    answers [None] for them).  The triple is returned as a tuple. *)
Definition hex_or_triple_color (spec : color_spec) : option color_row :=
  match spec with
  | ColorTriple r g b =>
      if (0 <=? r) && (r <=? 255) && (0 <=? g) && (g <=? 255)
         && (0 <=? b) && (b <=? 255)
      then Some (TupleColor (r, g, b)) else None
  | ColorText (String "#"%char (String r1 (String r0 (String g1 (String g0
      (String b1 (String b0 EmptyString))))))) =>
      r ← hex_byte r1 r0; g ← hex_byte g1 g0; b ← hex_byte b1 b0;
      Some (TupleColor (r, g, b))
  | ColorText _ => None
  end.

(** The label names that the records carry, in order. *)
Definition names_of (records : list color_label) : list string :=
  omap cl_label records.

(** The length of the one-hot vector of a record, when it has a sized one. *)
Definition one_hot_length (r : color_label) : option nat :=
  oh ← cl_one_hot r; length <$> elements oh.

(** The loop state with another value of the variable [labels]. *)
Definition with_labels (l : option (list string)) (st : ColorLabels.list_state)
  : ColorLabels.list_state :=
  {| ColorLabels.ls_colors := ColorLabels.ls_colors st;
     ColorLabels.ls_one_hot_encoding := ColorLabels.ls_one_hot_encoding st;
     ColorLabels.ls_labels := l;
     ColorLabels.has_one_hot := ColorLabels.has_one_hot st;
     ColorLabels.has_labels := ColorLabels.has_labels st;
     ColorLabels.one_hot_size := ColorLabels.one_hot_size st |}.

(** What the one-hot variables of the loop of
    [from_list_of_color_labels] hold after the records [done]. *)
Definition one_hot_inv (st : ColorLabels.list_state) (done : list color_label)
  : Prop :=
  match ColorLabels.has_one_hot st with
  | None =>
      done = [] /\ ColorLabels.ls_one_hot_encoding st = None
      /\ ColorLabels.one_hot_size st = None
  | Some true =>
      exists rows n,
        ColorLabels.ls_one_hot_encoding st = Some rows
        /\ length rows = length done /\ done <> []
        /\ ColorLabels.one_hot_size st = Some n
        /\ forall r, r ∈ done -> one_hot_length r = Some n
  | Some false =>
      (ColorLabels.ls_one_hot_encoding st = None
       /\ forall r, r ∈ done -> cl_one_hot r = None)
      \/ (exists rows, ColorLabels.ls_one_hot_encoding st = Some rows
                       /\ rows <> [] /\ (length rows < length done)%nat)
  end.

(** What the label variables of the loop hold after the records
    [done], when the caller passed [labels]. *)
Definition label_inv (labels : option (list string))
    (st : ColorLabels.list_state) (done : list color_label) : Prop :=
  match ColorLabels.has_labels st with
  | None => done = [] /\ ColorLabels.ls_labels st = labels
  | Some true =>
      names_of done <> [] /\ ColorLabels.ls_labels st = Some (names_of done)
  | Some false =>
      (names_of done = [] /\ ColorLabels.ls_labels st = labels)
      \/ (names_of done <> []
          /\ ColorLabels.ls_labels st = Some (names_of done))
  end.

(** The state in which the loop starts. *)
Definition initial_state (labels : option (list string)) : ColorLabels.list_state :=
  {| ColorLabels.ls_colors := [];
     ColorLabels.ls_one_hot_encoding := None;
     ColorLabels.ls_labels := labels;
     ColorLabels.has_one_hot := None;
     ColorLabels.has_labels := None;
     ColorLabels.one_hot_size := None |}.

(* ------------------------------------------------------------------ *)
(** ** Further notions used in the statements *)

(** The integer that a row spells, least significant bit first. *)
Definition decode_bits (row : list Z) : Z :=
  foldr (fun b acc => b + 2 * acc) 0 row.

(** Every channel of the colour lies between [lo] and [hi]. *)
Definition channels_within (lo hi : Z) (c : color) : Prop :=
  lo <= red c <= hi /\ lo <= green c <= hi /\ lo <= blue c <= hi.

(** The entries of [xs] whose one-hot entry in [row] is not zero. *)
Fixpoint selected {A : Type} (xs : list A) (row : list number) : list A :=
  match xs, row with
  | x :: xs', q :: row' =>
      if decide (q = of_int 0) then selected xs' row' else x :: selected xs' row'
  | _, _ => []
  end.

(** The display name of a one-hot row: the names of its classes,
    joined by "+". *)
Definition row_name (names : list string) (row : list number) : string :=
  String.concat "+" (selected names row).

(** The number of classes that the constructor counts for its
    arguments. *)
Definition classes_of (cs : list color_row) (oh : option (list (list number)))
  : nat :=
  match oh with
  | Some (r :: _) => length r
  | _ => length cs
  end.

(** The one-hot rows as [to_json] writes them and
    [from_labels_json_file] reads them back: every entry cut to a
    32-bit integer, and no rows at all for an empty or absent list. *)
Definition written_rows (oh : option (list (list number)))
  : option (list (list number)) :=
  match oh with
  | Some ((_ :: _) as rows) =>
      Some ((fun row : list number => (fun q => of_int (np_int32 q)) <$> row) <$> rows)
  | _ => None
  end.

(** [y] is the integer part of the finite value [x]: the integer next
    to it towards zero. *)
Definition integer_part_of (x y : number) : Prop :=
  exists q z, x = Finite q /\ y = of_int z
    /\ ((0 <= q)%Qc -> (Qc_of_Z z <= q)%Qc /\ (q < Qc_of_Z (z + 1))%Qc)
    /\ ((q <= 0)%Qc -> (Qc_of_Z (z - 1) < q)%Qc /\ (q <= Qc_of_Z z)%Qc).

(** A finite value whose integer part is a 32-bit integer. *)
Definition fits_int32 (x : number) : Prop :=
  exists q, x = Finite q
    /\ (Qc_of_Z (- 2 ^ 31 - 1) < q)%Qc /\ (q < Qc_of_Z (2 ^ 31))%Qc.

(** A finite value that is not negative. *)
Definition not_negative (x : number) : Prop :=
  exists q, x = Finite q /\ (0 <= q)%Qc.

(** The generator after [k] successive draws of [n] colours. *)
Fixpoint state_after {rng : Type} (n_colors : nat -> rng -> list color_row * rng)
    (n : nat) (g : rng) (k : nat) : rng :=
  match k with
  | O => g
  | S k => state_after n_colors n (n_colors n g).2 k
  end.

(** The colours mixed from draw number [k] (the first draw is number 0)
    of [n] base colours. *)
Definition mixed_draw {rng : Type} (n_colors : nat -> rng -> list color_row * rng)
    (n : nat) (g : rng) (k : nat) : list color :=
  (all_one_hot_and_colors
     (channels <$> (n_colors n (state_after n_colors n g k)).1)).2.

(** A generator for the worked examples: its state counts the draws;
    the first draw gives one colour [k] times, every later draw gives
    [k] different reds. *)
Definition example_n_colors (k : nat) (g : nat) : list color_row * nat :=
  ((fun i : nat =>
      TupleColor (if (g =? 0)%nat then 7 else 50 * Z.of_nat i + 50, 0, 0))
     <$> seq 0 k,
   S g).

(** The arguments with which [from_filter_by_colors] calls the
    constructor, for a source built from [cs], [oh] and [ls]. *)
Definition filtered_rows (keep : gset color) (cs : list color_row)
    (oh : option (list (list number))) : option (list (list number)) :=
  match oh with
  | Some ((_ :: _) as rows) => some_if_any (kept keep cs rows)
  | _ => None
  end.

Definition filtered_labels (keep : gset color) (cs : list color_row)
    (oh : option (list (list number))) (ls : option (list string))
  : option (list string) :=
  if truthy oh then ls
  else match ls with
       | Some ((_ :: _) as names) => some_if_any (kept keep cs names)
       | _ => None
       end.

(** The one-hot rows that the loop of [from_list_of_color_labels] has
    collected in a state. *)
Definition rows_before (st : ColorLabels.list_state) : list (list number) :=
  match ColorLabels.has_one_hot st with
  | None => []
  | Some _ => default [] (ColorLabels.ls_one_hot_encoding st)
  end.

(** The record has a colour and it parses to [c]. *)
Definition color_of (parse : color_spec -> option color_row)
    (r : color_label) (c : color_row) : Prop :=
  exists spec, cl_color r = Some spec /\ parse spec = Some c.

(** The record has a one-hot vector and it parses to [a]. *)
Definition one_hot_of (astype_float32 : scalar -> option number)
    (r : color_label) (a : list number) : Prop :=
  exists raw, cl_one_hot r = Some raw
              /\ parse_validate_one_hot astype_float32 raw = Ok a.

(* ================================================================== *)
(** * Properties *)

(* ------------------------------------------------------------------ *)
(** ** The one-hot generator *)

Section OneHotGenerator.

Lemma np_arange_length n : length (np_arange n) = n.
Proof. unfold np_arange. by rewrite length_fmap, length_seq. Qed.

Lemma np_arange_lookup n (i : nat) :
  (i < n)%nat -> np_arange n !! i = Some (Z.of_nat i).
Proof.
  intros Hi. unfold np_arange.
  rewrite list_lookup_fmap, lookup_seq_lt by done. done.
Qed.

Lemma np_arange_NoDup n : NoDup (np_arange n).
Proof.
  unfold np_arange. apply NoDup_fmap_2; [apply _ | apply NoDup_seq].
Qed.

Lemma np_arange_elem n z :
  z ∈ np_arange n <-> exists i : nat, z = Z.of_nat i /\ (i < n)%nat.
Proof.
  unfold np_arange. rewrite list_elem_of_fmap. split.
  - intros (i & -> & Hi). apply elem_of_seq in Hi. exists i. split; [done | lia].
  - intros (i & -> & Hi). exists i. split; [done |]. apply elem_of_seq. lia.
Qed.

(** The masked test reads one bit. *)
Lemma mask_test_bit i j :
  0 <= j ->
  (if Z.land i (Z.shiftl 1 j) >? 0 then 1 else 0) = Z.b2z (Z.testbit i j).
Proof.
  intros Hj.
  assert (Hland : Z.land i (Z.shiftl 1 j) = if Z.testbit i j then 2 ^ j else 0).
  { apply Z.bits_inj'. intros k Hk.
    rewrite Z.land_spec, Z.shiftl_1_l, Z.pow2_bits_eqb by done.
    destruct (Z.eqb_spec j k) as [-> | Hne].
    - rewrite andb_true_r. destruct (Z.testbit i k); [| by rewrite Z.bits_0].
      rewrite Z.pow2_bits_eqb by done. by rewrite Z.eqb_refl.
    - rewrite andb_false_r. destruct (Z.testbit i j); [| by rewrite Z.bits_0].
      rewrite Z.pow2_bits_eqb by done. symmetry. by apply Z.eqb_neq. }
  rewrite Hland. destruct (Z.testbit i j); simpl; [| done].
  assert (0 < 2 ^ j) by (apply Z.pow_pos_nonneg; lia).
  destruct (Z.gtb_spec (2 ^ j) 0); [done | lia].
Qed.

Lemma one_hot_row_bits n i :
  ((fun m => if Z.land i m >? 0 then 1 else 0) <$> (Z.shiftl 1 <$> np_arange n))
  = bits_row n i.
Proof.
  unfold bits_row. rewrite <- list_fmap_compose.
  apply list_fmap_ext. intros k j Hj. simpl.
  apply mask_test_bit.
  apply list_elem_of_lookup_2, np_arange_elem in Hj as (? & -> & _). lia.
Qed.

Lemma get_all_one_hots_rows n :
  get_all_one_hots n = bits_row n <$> np_arange (2 ^ n)%nat.
Proof.
  unfold get_all_one_hots. apply list_fmap_ext. intros ? i _.
  apply one_hot_row_bits.
Qed.

Lemma bits_row_length n i : length (bits_row n i) = n.
Proof. unfold bits_row. by rewrite length_fmap, np_arange_length. Qed.

Lemma bits_row_lookup n i (j : nat) :
  (j < n)%nat -> bits_row n i !! j = Some (Z.b2z (Z.testbit i (Z.of_nat j))).
Proof.
  intros Hj. unfold bits_row.
  by rewrite list_lookup_fmap, np_arange_lookup.
Qed.

Lemma pow2_nat_Z (n : nat) : Z.of_nat (2 ^ n) = 2 ^ Z.of_nat n.
Proof. by rewrite Nat2Z.inj_pow. Qed.

(** Below [2 ^ n] the low [n] bits determine the number. *)
Lemma bits_row_inj n i i' :
  0 <= i < 2 ^ Z.of_nat n -> 0 <= i' < 2 ^ Z.of_nat n ->
  bits_row n i = bits_row n i' -> i = i'.
Proof.
  intros Hi Hi' Heq. apply Z.bits_inj'. intros k Hk.
  destruct (Z.lt_ge_cases k (Z.of_nat n)) as [Hlt | Hge].
  - assert (Hl : bits_row n i !! Z.to_nat k = bits_row n i' !! Z.to_nat k)
      by (by rewrite Heq).
    rewrite !bits_row_lookup in Hl by lia.
    rewrite Z2Nat.id in Hl by done.
    injection Hl as Hl.
    by destruct (Z.testbit i k), (Z.testbit i' k).
  - transitivity false; [| symmetry].
    + rewrite <- (Z.mod_small i (2 ^ Z.of_nat n)) by done.
      apply Z.mod_pow2_bits_high. lia.
    + rewrite <- (Z.mod_small i' (2 ^ Z.of_nat n)) by done.
      apply Z.mod_pow2_bits_high. lia.
Qed.

End OneHotGenerator.

(** C3. For every [n], [get_all_one_hots n] has exactly [2 ^ n] rows,
    pairwise distinct, each of length [n]; row 0 is the all-zero
    vector; and entry [j] of row [i] is bit [j] of [i], the least
    significant bit at position 0. *)
Theorem get_all_one_hots_spec (n : nat) :
  length (get_all_one_hots n) = (2 ^ n)%nat
  /\ NoDup (get_all_one_hots n)
  /\ (forall row, row ∈ get_all_one_hots n -> length row = n)
  /\ get_all_one_hots n !! 0%nat = Some (replicate n 0)
  /\ (forall i j : nat, (i < 2 ^ n)%nat -> (j < n)%nat ->
        exists row, get_all_one_hots n !! i = Some row
                    /\ row !! j = Some (Z.b2z (Z.testbit (Z.of_nat i) (Z.of_nat j)))).
Proof.
  rewrite get_all_one_hots_rows. repeat split.
  - by rewrite length_fmap, np_arange_length.
  - apply NoDup_fmap_2_strong; [| apply np_arange_NoDup].
    intros i i' Hi Hi'.
    apply np_arange_elem in Hi as (a & -> & Ha).
    apply np_arange_elem in Hi' as (b & -> & Hb).
    apply bits_row_inj; rewrite <- pow2_nat_Z; lia.
  - intros row Hrow. apply list_elem_of_fmap in Hrow as (i & -> & _).
    apply bits_row_length.
  - rewrite list_lookup_fmap, np_arange_lookup
      by (apply Nat.neq_0_lt_0, Nat.pow_nonzero; lia).
    simpl. f_equal. apply list_eq_same_length with n.
    + apply length_replicate.
    + apply bits_row_length.
    + intros j x y Hj Hx Hy.
      rewrite bits_row_lookup in Hx by done.
      rewrite lookup_replicate_2 in Hy by done.
      rewrite Z.bits_0 in Hx. simpl in Hx. congruence.
  - intros i j Hi Hj. exists (bits_row n (Z.of_nat i)). split.
    + by rewrite list_lookup_fmap, np_arange_lookup.
    + by apply bits_row_lookup.
Qed.

Lemma get_all_one_hots_witness :
  length (get_all_one_hots 3) = 8%nat
  /\ NoDup (get_all_one_hots 3)
  /\ exists row, get_all_one_hots 3 !! 5%nat = Some row /\ row !! 2%nat = Some 1.
Proof.
  destruct (get_all_one_hots_spec 3) as (Hlen & Hdup & _ & _ & Hbit).
  split_and!; [exact Hlen | exact Hdup |].
  apply (Hbit 5%nat 2%nat); simpl; lia.
Defined.

(* ------------------------------------------------------------------ *)
(** ** The multilabel colour mixer *)

Section ColourMixer.

Lemma round_half_even_nearest s k :
  0 < k -> nearest_to s k (round_half_even s k).
Proof.
  intros Hk. unfold nearest_to, round_half_even.
  pose proof (Z.div_mod s k ltac:(lia)) as Hdm.
  pose proof (Z.mod_pos_bound s k Hk) as Hr.
  destruct (Z.ltb_spec (2 * (s mod k)) k);
    [| destruct (Z.ltb_spec k (2 * (s mod k))); [| destruct (Z.even (s / k))]];
    lia.
Qed.

Lemma round_half_even_one s : round_half_even s 1 = s.
Proof.
  unfold round_half_even. rewrite Z.div_1_r, Z.mod_1_r. reflexivity.
Qed.

Lemma mean_color_single c : mean_color [c] = c.
Proof.
  destruct c as [[r g] b]. unfold mean_color, np_sum, red, green, blue. simpl.
  by rewrite !Z.add_0_r, !round_half_even_one.
Qed.

Lemma mean_color_rounded rows :
  rows <> [] -> rounded_mean_of rows (mean_color rows).
Proof.
  intros Hne. unfold rounded_mean_of, mean_color, red, green, blue. simpl.
  assert (0 < Z.of_nat (length rows)) by (destruct rows; [done | simpl; lia]).
  repeat split; by apply round_half_even_nearest.
Qed.

Lemma take_rows_where pre colors row :
  length row = length colors ->
  take_rows (pre ++ colors) (np_where_from (length pre) (nonzero <$> row))
  = chosen colors row.
Proof.
  revert pre colors. induction row as [| x rest IH]; intros pre colors Hlen.
  - by destruct colors.
  - destruct colors as [| c cs]; [done |]. simpl in Hlen.
    specialize (IH (pre ++ [c]) cs ltac:(lia)).
    rewrite length_app, Nat.add_1_r, <- app_assoc in IH. simpl in *.
    unfold nonzero at 1.
    destruct (decide (x = 0)) as [-> | Hx]; [done |].
    apply Z.eqb_neq in Hx. rewrite Hx. simpl.
    unfold take_rows in *. simpl.
    rewrite lookup_app_r, Nat.sub_diag by done. simpl. by f_equal.
Qed.

Lemma take_rows_np_where colors row :
  length row = length colors ->
  take_rows colors (np_where (nonzero <$> row)) = chosen colors row.
Proof. intros Hlen. by apply (take_rows_where [] colors row). Qed.

Lemma np_sum_zeros n : np_sum (replicate n 0) = 0.
Proof. induction n as [| n IH]; [done |]. simpl. by rewrite IH. Qed.

Lemma np_sum_bits_nonneg row :
  Forall (fun x => x = 0 \/ x = 1) row -> 0 <= np_sum row.
Proof. induction 1 as [| x r Hx _ IH]; simpl; lia. Qed.

Lemma np_sum_bits_zero row :
  Forall (fun x => x = 0 \/ x = 1) row -> np_sum row = 0 ->
  row = replicate (length row) 0.
Proof.
  induction 1 as [| x r Hx Hr IH]; [done |]. simpl. intros Hsum.
  pose proof (np_sum_bits_nonneg r Hr).
  assert (x = 0) as -> by lia. f_equal. apply IH. lia.
Qed.

Lemma chosen_nil colors row :
  length row = length colors -> chosen colors row = [] ->
  row = replicate (length row) 0.
Proof.
  revert row. induction colors as [| c cs IH]; intros [| x rest] Hlen Hch;
    try done.
  simpl in *. destruct (decide (x = 0)) as [-> |]; [| done].
  f_equal. apply IH; [lia | done].
Qed.

Lemma chosen_zeros colors n : chosen colors (replicate n 0) = [].
Proof.
  revert n. induction colors as [| c cs IH]; intros [| n]; try done.
  simpl. apply IH.
Qed.

Lemma chosen_single_bit colors j c :
  colors !! j = Some c -> chosen colors (single_bit (length colors) j) = [c].
Proof.
  unfold single_bit. revert j.
  induction colors as [| c0 cs IH]; intros [| j] Hj; try done; simpl in *.
  - injection Hj as ->. by rewrite chosen_zeros.
  - by apply IH.
Qed.

Lemma np_sum_single_bit n j : (j < n)%nat -> np_sum (single_bit n j) = 1.
Proof.
  unfold single_bit. revert j. induction n as [| n IH]; intros j Hj; [lia |].
  destruct j as [| j]; simpl.
  - by rewrite np_sum_zeros.
  - apply IH. lia.
Qed.

Lemma single_bit_length n j : length (single_bit n j) = n.
Proof. unfold single_bit. by rewrite length_insert, length_replicate. Qed.

Lemma bits_row_entries n i : Forall (fun x => x = 0 \/ x = 1) (bits_row n i).
Proof.
  unfold bits_row. apply Forall_fmap, Forall_forall. intros j _. simpl.
  destruct (Z.testbit i j); auto.
Qed.

(** Row [2 ^ j] of the generator has the single bit [j]. *)
Lemma bits_row_pow2 n (j : nat) :
  bits_row n (Z.of_nat (2 ^ j)) = single_bit n j.
Proof.
  apply list_eq_same_length with n;
    [apply single_bit_length | apply bits_row_length |].
  intros k x y Hk Hx Hy.
  rewrite bits_row_lookup in Hx by done.
  unfold single_bit in Hy. rewrite list_lookup_insert in Hy.
  rewrite length_replicate in Hy.
  rewrite pow2_nat_Z, Z.pow2_bits_eqb in Hx by lia.
  injection Hx as <-.
  destruct (decide (j = k /\ (j < n)%nat)) as [[-> _] | Hne].
  - injection Hy as <-. by rewrite Z.eqb_refl.
  - rewrite lookup_replicate_2 in Hy by done. injection Hy as <-.
    destruct (Z.eqb_spec (Z.of_nat j) (Z.of_nat k)); [| done].
    exfalso. apply Hne. split; lia.
Qed.

Lemma mix_color_zeros colors n : mix_color colors (replicate n 0) = (0, 0, 0).
Proof. unfold mix_color. by rewrite np_sum_zeros. Qed.

Lemma mix_color_single_bit colors j c :
  colors !! j = Some c -> mix_color colors (single_bit (length colors) j) = c.
Proof.
  intros Hj. unfold mix_color.
  rewrite np_sum_single_bit by exact (lookup_lt_Some colors j c Hj).
  simpl. rewrite take_rows_np_where by apply single_bit_length.
  rewrite (chosen_single_bit _ _ _ Hj). apply mean_color_single.
Qed.

Lemma mix_color_mean colors row :
  length row = length colors ->
  Forall (fun x => x = 0 \/ x = 1) row ->
  row <> replicate (length colors) 0 ->
  chosen colors row <> []
  /\ mix_color colors row = mean_color (chosen colors row).
Proof.
  intros Hlen Hbits Hnz. split.
  - intros Hnil. apply Hnz. rewrite <- Hlen. by apply (chosen_nil colors).
  - unfold mix_color. destruct (Z.eqb_spec (np_sum row) 0) as [Hz |].
    + exfalso. apply Hnz. rewrite <- Hlen. by apply np_sum_bits_zero.
    + by rewrite take_rows_np_where.
Qed.

End ColourMixer.

(** C4. For every list of base colours (the empty one included) the
    mixer returns the generator's rows together with one colour per row,
    row [i] of the colours being computed from row [i] of the one-hots:
    the all-zero row gets black, the row with the single bit [j] gets
    base colour [j] itself (and that row is row [2 ^ j]), and every row
    that is not all-zero gets, channel by channel, an integer nearest to
    the mean of the base colours whose bit is set. *)
Theorem all_one_hot_and_colors_spec (colors : list color) :
  let n := length colors in
  let one_hots := (all_one_hot_and_colors colors).1 in
  let final_colors := (all_one_hot_and_colors colors).2 in
  one_hots = get_all_one_hots n
  /\ length final_colors = length one_hots
  /\ (forall i, final_colors !! i = mix_color colors <$> one_hots !! i)
  /\ (forall i, one_hots !! i = Some (replicate n 0) ->
        final_colors !! i = Some (0, 0, 0))
  /\ final_colors !! 0%nat = Some (0, 0, 0)
  /\ (forall i j c, colors !! j = Some c ->
        one_hots !! i = Some (single_bit n j) -> final_colors !! i = Some c)
  /\ (forall j c, colors !! j = Some c ->
        one_hots !! (2 ^ j)%nat = Some (single_bit n j)
        /\ final_colors !! (2 ^ j)%nat = Some c)
  /\ (forall i row, one_hots !! i = Some row -> row <> replicate n 0 ->
        chosen colors row <> []
        /\ exists c, final_colors !! i = Some c
                     /\ c = mean_color (chosen colors row)
                     /\ rounded_mean_of (chosen colors row) c).
Proof.
  intros n one_hots final_colors.
  assert (Hlook : forall i, final_colors !! i = mix_color colors <$> one_hots !! i).
  { intros i. unfold final_colors, one_hots. simpl. apply list_lookup_fmap. }
  assert (Hrows : one_hots = bits_row n <$> np_arange (2 ^ n)%nat).
  { unfold one_hots. simpl. apply get_all_one_hots_rows. }
  assert (Hpow : forall j c, colors !! j = Some c ->
            one_hots !! (2 ^ j)%nat = Some (single_bit n j)).
  { intros j c Hj. rewrite Hrows, list_lookup_fmap, np_arange_lookup.
    - simpl. by rewrite bits_row_pow2.
    - apply Nat.pow_lt_mono_r; [lia |]. exact (lookup_lt_Some colors j c Hj). }
  split_and!.
  - done.
  - unfold final_colors, one_hots. simpl. apply length_fmap.
  - done.
  - intros i Hi. rewrite Hlook, Hi. simpl. by rewrite mix_color_zeros.
  - rewrite Hlook.
    destruct (get_all_one_hots_spec n) as (_ & _ & _ & H0 & _).
    change (one_hots !! 0%nat) with (get_all_one_hots n !! 0%nat).
    rewrite H0. simpl. by rewrite mix_color_zeros.
  - intros i j c Hj Hi. rewrite Hlook, Hi. simpl. f_equal.
    by apply mix_color_single_bit.
  - intros j c Hj. split; [by eapply Hpow |].
    rewrite Hlook, (Hpow j c Hj). simpl. f_equal.
    by apply mix_color_single_bit.
  - intros i row Hi Hnz.
    assert (Hin : row ∈ one_hots) by (by eapply list_elem_of_lookup_2).
    rewrite Hrows in Hin. apply list_elem_of_fmap in Hin as (z & -> & _).
    destruct (mix_color_mean colors (bits_row n z)) as [Hne Hmix];
      [apply bits_row_length | apply bits_row_entries | done |].
    split; [done |]. exists (mix_color colors (bits_row n z)).
    split_and!.
    + by rewrite Hlook, Hi.
    + done.
    + rewrite Hmix. by apply mean_color_rounded.
Qed.

Lemma all_one_hot_and_colors_witness :
  exists c,
    (all_one_hot_and_colors [(255, 0, 0); (0, 0, 255)]).2 !! 3%nat = Some c
    /\ rounded_mean_of [(255, 0, 0); (0, 0, 255)] c.
Proof.
  destruct (all_one_hot_and_colors_spec [(255, 0, 0); (0, 0, 255)])
    as (_ & _ & _ & _ & _ & _ & _ & Hmean).
  destruct (Hmean 3%nat [1; 1]) as (_ & c & Hc & _ & Hround).
  - reflexivity.
  - done.
  - by exists c.
Defined.

(* ------------------------------------------------------------------ *)
(** ** The constructor *)

Section Constructor.

Import ColorLabels.

Lemma bind_Ok {A B} (r : result A) (k : A -> result B) b :
  (r ≫= k) = Ok b <-> exists a, r = Ok a /\ k a = Ok b.
Proof.
  destruct r as [a | e]; simpl; split.
  - intros H. by exists a.
  - by intros (a' & [= <-] & H).
  - done.
  - by intros (? & ? & _).
Qed.

Lemma bind_ret {A B} (a : A) (k : A -> result B) : (Ok a ≫= k) = k a.
Proof. reflexivity. Qed.

(** What a successful construction stores. *)
Lemma init_fields cs oh ls m :
  __init__ cs oh ls = Ok m ->
  colors m = cs /\ one_hot_encoding m = oh /\ labels m = ls.
Proof.
  unfold __init__. intros H.
  apply bind_Ok in H as (_ & _ & H).
  destruct ls as [[| name names] |]; try (injection H as <-; done).
  destruct (negb _); [done |].
  destruct oh as [[| row rows] |].
  - apply bind_Ok in H as (_ & _ & [= <-]). done.
  - apply bind_Ok in H as (? & _ & H).
    apply bind_Ok in H as (_ & _ & [= <-]). done.
  - apply bind_Ok in H as (_ & _ & [= <-]). done.
Qed.

(** The row-count check of the constructor. *)
Lemma init_row_count_raises cs row rows ls :
  length (row :: rows) <> length cs ->
  __init__ cs (Some (row :: rows)) ls
  = Raise (ValueError (ColorsOneHotCount (length cs) (length (row :: rows)))).
Proof.
  intros Hne. unfold __init__.
  destruct (Nat.eqb_spec (length cs) (length (row :: rows))) as [Heq | _];
    [by rewrite Heq in Hne | done].
Qed.

End Constructor.

(** C9. Constructing with [one_hot_encoding = []] meets no row-count
    check, whatever the colours: with no labels, with an empty label
    list, or with one label per colour, the object is built, it reports
    [multilabel = True], and its [num_classes] is the number of colours. *)
Theorem init_empty_one_hot (cs : list color_row) (ls : option (list string)) :
  (forall names, ls = Some names -> names <> [] -> length names = length cs) ->
  exists m, ColorLabels.__init__ cs (Some []) ls = Ok m
            /\ ColorLabels.multilabel m = true
            /\ ColorLabels.num_classes m = length cs
            /\ ColorLabels.colors m = cs
            /\ ColorLabels.one_hot_encoding m = Some []
            /\ ColorLabels.labels m = ls.
Proof.
  intros Hfit. unfold ColorLabels.__init__. simpl.
  destruct ls as [[| name names] |]; [by eexists .. | | by eexists].
  specialize (Hfit _ eq_refl ltac:(done)).
  unfold ColorLabels.num_classes, ColorLabels.assert_same_length.
  cbn [ColorLabels.one_hot_encoding ColorLabels.colors].
  rewrite <- Hfit, !Nat.eqb_refl. simpl. by eexists.
Qed.

Lemma init_empty_one_hot_witness :
  exists m, ColorLabels.__init__ [TupleColor (0, 0, 0); TupleColor (255, 0, 0)]
              (Some []) None = Ok m
            /\ ColorLabels.multilabel m = true
            /\ ColorLabels.num_classes m = 2%nat.
Proof.
  destruct (init_empty_one_hot [TupleColor (0, 0, 0); TupleColor (255, 0, 0)] None)
    as (m & Hm & Hmulti & Hnum & _); [done |].
  by exists m.
Defined.

(** C6 as stated does not hold: an empty [one_hot_encoding] is present
    (it is not [None]) and has another row count than the colours, yet
    the object is built. *)
Lemma init_row_count_counterexample :
  length ([] : list (list number)) <> length [TupleColor (0, 0, 0)]
  /\ ~ raises (ColorLabels.__init__ [TupleColor (0, 0, 0)] (Some []) None).
Proof. split; [done |]. by intros [e He]. Qed.

(** C6, amended. Constructing with a non-empty [one_hot_encoding] whose
    row count differs from the number of colours raises the
    [ValueError] of the row-count check, and no object is produced; so
    does constructing with three colours and two one-hot rows. *)
Theorem init_row_count_mismatch :
  (forall cs row rows ls,
      length (row :: rows) <> length cs ->
      ColorLabels.__init__ cs (Some (row :: rows)) ls
      = Raise (ValueError (ColorsOneHotCount (length cs) (length (row :: rows)))))
  /\ (forall c1 c2 c3 r1 r2 ls,
        ColorLabels.__init__ [c1; c2; c3] (Some [r1; r2]) ls
        = Raise (ValueError (ColorsOneHotCount 3 2))).
Proof.
  split; [exact init_row_count_raises |].
  intros c1 c2 c3 r1 r2 ls. by apply (init_row_count_raises [c1; c2; c3] r1 [r2] ls).
Qed.

Lemma init_row_count_mismatch_witness :
  ColorLabels.__init__ [TupleColor (0, 0, 0); TupleColor (255, 0, 0); TupleColor (0, 255, 0)]
    (Some [[of_int 0; of_int 0]; [of_int 1; of_int 0]]) None
  = Raise (ValueError (ColorsOneHotCount 3 2)).
Proof.
  apply (proj1 init_row_count_mismatch
           [TupleColor (0, 0, 0); TupleColor (255, 0, 0); TupleColor (0, 255, 0)]
           [of_int 0; of_int 0] [[of_int 1; of_int 0]] None).
  simpl. lia.
Defined.

(* ------------------------------------------------------------------ *)
(** ** Serialization *)

Section Json.

Import ColorLabels.

Lemma wrap32_id z : int32_range z -> wrap32 z = z.
Proof. unfold int32_range, wrap32. intros Hz. rewrite Z.mod_small; lia. Qed.

Lemma Qc_trunc_of_Z z : Qc_trunc (Qc_of_Z z) = z.
Proof. unfold Qc_trunc. simpl. apply Z.quot_1_r. Qed.

Lemma np_int32_entry q : int32_entry q -> of_int (np_int32 q) = q.
Proof.
  intros (z & Hz & ->). unfold np_int32, of_int.
  by rewrite Qc_trunc_of_Z, wrap32_id.
Qed.

Lemma np_array_Ok {A} (rows arr : list (list A)) :
  np_array rows = Ok arr -> arr = rows.
Proof.
  unfold np_array. destruct rows as [| r rest]; [by intros [= <-] |].
  destruct (forallb _ _); [by intros [= <-] | done].
Qed.

(** Decoding what was encoded item by item. *)
Lemma for_each_decoded {A B C} (f : B -> result C) (g : A -> B) (h : A -> C)
    (xs : list A) :
  Forall (fun x => f (g x) = Ok (h x)) xs -> for_each f (g <$> xs) = Ok (h <$> xs).
Proof.
  induction 1 as [| x xs Hx _ IH]; [done |].
  rewrite !fmap_cons. cbn [for_each]. by rewrite Hx, IH.
Qed.

Lemma for_each_encoded {A B} (f : B -> result A) (g : A -> B) (xs : list A) :
  Forall (fun x => f (g x) = Ok x) xs -> for_each f (g <$> xs) = Ok xs.
Proof.
  intros H. rewrite <- (list_fmap_id xs) at 2. by apply for_each_decoded.
Qed.

(** The colours come back as the lists of their channels. *)
Lemma as_colors_encoded cs :
  Forall (fun row => int32_color (channels row)) cs ->
  as_list as_color (JArr (json_of_color <$> cs)) = Ok (as_list_color <$> cs).
Proof.
  intros Hcs. cbn [as_list]. apply for_each_decoded.
  eapply Forall_impl; [exact Hcs |].
  intros row (Hr & Hg & Hb). unfold json_of_color, as_list_color.
  destruct (channels row) as [[r g] b]. unfold red, green, blue in *.
  simpl in *. by rewrite !wrap32_id.
Qed.

Lemma as_rows_encoded rows :
  int32_rows rows ->
  as_list (as_list as_number)
    (JArr ((fun row => JArr ((fun q => JInt (np_int32 q)) <$> row)) <$> rows))
  = Ok rows.
Proof.
  intros Hrows. simpl. apply for_each_encoded.
  eapply Forall_impl; [exact Hrows |].
  intros row Hrow. simpl. apply for_each_encoded.
  eapply Forall_impl; [exact Hrow |].
  intros q Hq. simpl. by rewrite np_int32_entry.
Qed.

Lemma as_labels_encoded ls :
  as_optional (as_list as_str) (json_of_labels ls) = Ok ls.
Proof.
  destruct ls as [names |]; [| done]. simpl.
  rewrite for_each_encoded; [done |]. by apply Forall_forall.
Qed.

(** A mapping built with non-empty rows has rows of one length. *)
Lemma init_rows_homogeneous cs row rows ls m :
  __init__ cs (Some (row :: rows)) ls = Ok m ->
  np_array (row :: rows) = Ok (row :: rows).
Proof.
  unfold __init__. intros H. apply bind_Ok in H as (w & H & _).
  destruct (negb _); [done |].
  unfold _check_empty_labels_one_hot in H.
  apply bind_Ok in H as (arr & Harr & _).
  cbn [one_hot_encoding default] in Harr.
  pose proof (np_array_Ok _ _ Harr) as ->. exact Harr.
Qed.

(** Reading back the document written for arguments that the
    serializer keeps is the constructor call on these arguments, the
    colours as lists. *)
Lemma call_with_written_kwargs cs oh ls joh :
  Forall (fun row => int32_color (channels row)) cs ->
  as_optional (as_list (as_list as_number)) joh = Ok oh ->
  call_with_kwargs
    (JObj (<["colors" := JArr (json_of_color <$> cs)]>
           (<["one_hot_encoding" := joh]>
           (<["labels" := json_of_labels ls]> ∅))))
  = __init__ (as_list_color <$> cs) oh ls.
Proof.
  intros Hcs Hoh. unfold call_with_kwargs.
  rewrite bool_decide_eq_true_2 by (rewrite !dom_insert_L; set_solver).
  repeat (rewrite lookup_insert_eq || rewrite lookup_insert_ne by done).
  simpl default.
  rewrite as_colors_encoded by done. simpl.
  rewrite Hoh. simpl. rewrite as_labels_encoded. done.
Qed.

(** The constructor looks at the colours only for their number. *)
Lemma init_other_colors cs cs' oh ls m :
  length cs' = length cs ->
  __init__ cs oh ls = Ok m ->
  __init__ cs' oh ls = Ok (mk cs' oh ls (log_labels m)).
Proof.
  intros Hlen. unfold __init__, _check_empty_labels_one_hot, num_classes,
    assert_same_length.
  cbn [colors one_hot_encoding labels]. rewrite Hlen. intros H.
  apply bind_Ok in H as (w & Hw & H). rewrite Hw, bind_ret.
  destruct ls as [[| name names] |]; try (by injection H as <-).
  destruct (negb _); [done |].
  destruct oh as [[| row rows] |].
  - destruct (length (name :: names) =? length cs)%nat; [| done].
    simpl in *. by injection H as <-.
  - apply bind_Ok in H as (new_names & -> & H). rewrite bind_ret.
    destruct (length new_names =? length cs)%nat; [| done].
    simpl in *. by injection H as <-.
  - destruct (length (name :: names) =? length cs)%nat; [| done].
    simpl in *. by injection H as <-.
Qed.

Lemma as_list_color_lists cs :
  as_list_color <$> cs = cs <-> Forall (fun row => ~ is_tuple row) cs.
Proof.
  induction cs as [| row cs IH]; [by split; [constructor |] |].
  rewrite fmap_cons, Forall_cons. split.
  - intros [= Hrow Hcs]. split; [| by apply IH].
    destruct row; [done | by intros []].
  - intros [Hrow Hcs]. apply IH in Hcs as ->.
    destruct row as [c | c]; [by destruct Hrow | done].
Qed.

End Json.

(** C1 as stated does not hold: a mapping with the fractional one-hot
    entry 1/2 and with tuples as colours is validly constructed, but
    its round trip through [to_json] and [from_labels_json_file] has
    the entry 0 in the place of 1/2, and lists in the place of the
    tuples.  And the mapping whose one-hot rows are the empty list
    comes back with no one-hot encoding. *)
Lemma json_roundtrip_counterexample :
  (ColorLabels.__init__ [TupleColor (0, 0, 0); TupleColor (255, 0, 0)]
     (Some [[Finite (Q2Qc (1 # 2))]; [of_int 1]]) None = Ok fractional_mapping
   /\ exists fs' m',
      ColorLabels.to_json fractional_mapping "labels.json" ∅ = Ok fs'
      /\ ColorLabels.from_labels_json_file "labels.json" fs' = Ok m'
      /\ ColorLabels.one_hot_encoding m' = Some [[of_int 0]; [of_int 1]]
      /\ ColorLabels.one_hot_encoding m'
         <> ColorLabels.one_hot_encoding fractional_mapping
      /\ ColorLabels.colors m' = [ListColor (0, 0, 0); ListColor (255, 0, 0)]
      /\ ColorLabels.colors m' <> ColorLabels.colors fractional_mapping)
  /\ (ColorLabels.__init__ [] (Some []) None = Ok empty_rows_mapping
      /\ exists fs' m',
          ColorLabels.to_json empty_rows_mapping "labels.json" ∅ = Ok fs'
          /\ ColorLabels.from_labels_json_file "labels.json" fs' = Ok m'
          /\ ColorLabels.one_hot_encoding m' = None
          /\ ColorLabels.one_hot_encoding m'
             <> ColorLabels.one_hot_encoding empty_rows_mapping).
Proof.
  split; [split |]; [by vm_compute | | split; [by vm_compute |]].
  - eexists _, _. split_and!.
    + by vm_compute.
    + by vm_compute.
    + done.
    + simpl. by intros [=].
    + done.
    + simpl. by intros [=].
  - eexists _, _. split_and!; [by vm_compute | by vm_compute | done | done].
Qed.

(** C1, amended. For every validly constructed mapping whose colour
    channels are 32-bit integers and whose [one_hot_encoding] is absent
    or is non-empty with 32-bit integer entries, [to_json] succeeds and
    [from_labels_json_file] on the written file returns a mapping with
    exactly the same one-hot rows, labels and display names, and with
    the same colour channels, every colour as a list.  The returned
    colours are equal to the original ones exactly when none of the
    original colours is a tuple. *)
Theorem json_roundtrip_integral cs oh ls m path (fs : gmap string json) :
  ColorLabels.__init__ cs oh ls = Ok m ->
  Forall (fun row => int32_color (channels row)) cs ->
  (forall rows, oh = Some rows -> rows <> [] /\ int32_rows rows) ->
  exists fs' m',
    ColorLabels.to_json m path fs = Ok fs'
    /\ ColorLabels.from_labels_json_file path fs' = Ok m'
    /\ ColorLabels.colors m' = as_list_color <$> ColorLabels.colors m
    /\ ColorLabels.one_hot_encoding m' = ColorLabels.one_hot_encoding m
    /\ ColorLabels.labels m' = ColorLabels.labels m
    /\ ColorLabels.log_labels m' = ColorLabels.log_labels m
    /\ (ColorLabels.colors m' = ColorLabels.colors m
        <-> Forall (fun row => ~ is_tuple row) (ColorLabels.colors m)).
Proof.
  intros Hinit Hcs Hoh.
  destruct (init_fields _ _ _ _ Hinit) as (Hc & Ho & Hl).
  pose proof (init_other_colors cs (as_list_color <$> cs) oh ls m
                ltac:(by rewrite length_fmap) Hinit) as Hinit'.
  assert (Hback : exists fs', ColorLabels.to_json m path fs = Ok fs'
                    /\ ColorLabels.from_labels_json_file path fs'
                       = ColorLabels.__init__ (as_list_color <$> cs) oh ls).
  { unfold ColorLabels.to_json, ColorLabels.from_labels_json_file.
    rewrite Hc, Ho, Hl.
    destruct oh as [[| row rows] |].
    - by destruct (Hoh [] eq_refl) as [? _].
    - destruct (Hoh _ eq_refl) as [_ Hrows].
      rewrite (init_rows_homogeneous _ _ _ _ _ Hinit), !bind_ret.
      eexists. split; [done |]. rewrite lookup_insert_eq.
      rewrite (call_with_written_kwargs cs (Some (row :: rows)) ls); [done .. |].
      unfold as_optional. by rewrite as_rows_encoded.
    - simpl. eexists. split; [done |]. rewrite lookup_insert_eq.
      by rewrite (call_with_written_kwargs cs None ls). }
  destruct Hback as (fs' & Hto & Hfrom). rewrite Hinit' in Hfrom.
  eexists fs', _. split; [exact Hto |]. split; [exact Hfrom |].
  cbn [ColorLabels.colors ColorLabels.one_hot_encoding ColorLabels.labels
       ColorLabels.log_labels].
  rewrite Hc, Ho, Hl. split_and!; try done.
  apply as_list_color_lists.
Qed.

Lemma json_roundtrip_integral_witness :
  exists fs' m',
    ColorLabels.to_json
      (ColorLabels.mk [TupleColor (0, 0, 0); TupleColor (255, 0, 0)]
         (Some [[of_int 0]; [of_int 1]]) (Some ["ink"%string])
         (Some ["background"; "ink"]%string))
      "labels.json" ∅ = Ok fs'
    /\ ColorLabels.from_labels_json_file "labels.json" fs' = Ok m'
    /\ ColorLabels.colors m' = [ListColor (0, 0, 0); ListColor (255, 0, 0)]
    /\ ColorLabels.one_hot_encoding m' = Some [[of_int 0]; [of_int 1]].
Proof.
  destruct (json_roundtrip_integral
              [TupleColor (0, 0, 0); TupleColor (255, 0, 0)]
              (Some [[of_int 0]; [of_int 1]])
              (Some ["ink"%string])
              (ColorLabels.mk [TupleColor (0, 0, 0); TupleColor (255, 0, 0)]
                 (Some [[of_int 0]; [of_int 1]]) (Some ["ink"%string])
                 (Some ["background"; "ink"]%string))
              "labels.json" ∅)
    as (fs' & m' & Hto & Hfrom & Hcs & Hoh & _).
  - by vm_compute.
  - repeat (apply Forall_cons_2 || apply Forall_nil_2);
      unfold int32_color, int32_range, red, green, blue; simpl; lia.
  - intros rows [= <-]. split; [done |].
    repeat (apply Forall_cons_2 || apply Forall_nil_2);
      (eexists; split; [| reflexivity]; unfold int32_range; lia).
  - exists fs', m'. split_and!; [exact Hto | exact Hfrom | exact Hcs | exact Hoh].
Defined.

(* ------------------------------------------------------------------ *)
(** ** When the constructor succeeds *)

Section ConstructorSuccess.

Import ColorLabels.

Lemma np_array_homogeneous {A} (r : list A) rs :
  Forall (fun r' => length r' = length r) rs ->
  np_array (r :: rs) = Ok (r :: rs).
Proof.
  intros H. unfold np_array.
  rewrite (proj2 (forallb_forall _ rs)); [done |].
  intros r' Hr'. apply Nat.eqb_eq.
  rewrite Forall_forall in H. apply H. by apply list_elem_of_In.
Qed.

Lemma np_array_rows_length {A} (r : list A) rs arr :
  np_array (r :: rs) = Ok arr ->
  Forall (fun r' => length r' = length r) rs.
Proof.
  unfold np_array. destruct (forallb _ rs) eqn:Hall; [| done]. intros _.
  apply Forall_forall. intros r' Hr'.
  apply Nat.eqb_eq. apply (proj1 (forallb_forall _ rs) Hall).
  by apply list_elem_of_In.
Qed.

Lemma foldl_zip_length (w : nat) rs :
  Forall (fun r' : list number => length r' = w) rs ->
  forall acc, length acc = w ->
  length (foldl (zip_with num_add) acc rs) = w.
Proof.
  induction 1 as [| r' rs Hr' _ IH]; intros acc Hacc; [done |].
  simpl. apply IH. rewrite length_zip_with. lia.
Qed.

Lemma sum_axis0_length r rs :
  Forall (fun r' => length r' = length r) rs ->
  length (sum_axis0 (r :: rs)) = length r.
Proof. intros H. simpl. by apply foldl_zip_length. Qed.

Lemma np_where_from_bound j mask i :
  i ∈ np_where_from j mask -> (j <= i < j + length mask)%nat.
Proof.
  revert j. induction mask as [| b rest IH]; intros j; simpl.
  - by intros ?%elem_of_nil.
  - destruct b.
    + intros [-> | Hi%IH]%elem_of_cons; lia.
    + intros Hi%IH. lia.
Qed.

Lemma for_each_Ok {A B} (f : A -> result B) xs :
  Forall (fun x => exists y, f x = Ok y) xs ->
  exists ys, for_each f xs = Ok ys /\ length ys = length xs.
Proof.
  induction 1 as [| x xs [y Hy] _ (ys & Hys & Hlen)]; [by exists [] |].
  exists (y :: ys). cbn [for_each]. rewrite Hy, Hys. simpl. by rewrite Hlen.
Qed.

(** The check of the one-hot columns only warns when the rows have
    one length and every column has a label to report. *)
Lemma check_empty_labels_Ok cs r rs ls :
  Forall (fun r' => length r' = length r) rs ->
  (forall names, ls = Some names -> names <> [] -> length names = length r) ->
  exists w, _check_empty_labels_one_hot (mk cs (Some (r :: rs)) ls None) = Ok w.
Proof.
  intros Hrows Hls. unfold _check_empty_labels_one_hot.
  cbn [one_hot_encoding labels default id].
  rewrite (np_array_homogeneous r rs Hrows), bind_ret.
  destruct (0 <? _)%nat; [| by eexists].
  destruct ls as [[| name names] |]; [by eexists | | by eexists].
  specialize (Hls _ eq_refl ltac:(done)).
  destruct (for_each_Ok (getitem (name :: names))
              (np_where ((fun x => bool_decide (x = of_int 0))
                           <$> sum_axis0 (r :: rs)))) as (ys & -> & _);
    [| by eexists].
  apply Forall_forall. intros i Hi. apply np_where_from_bound in Hi.
  rewrite length_fmap, sum_axis0_length in Hi by done.
  unfold getitem.
  destruct (lookup_lt_is_Some_2 (name :: names) i) as [x ->]; [lia |].
  by eexists.
Qed.

Lemma multilabel_names_Ok r rs names :
  Forall (fun r' => length r' = length r) rs ->
  length names = length r ->
  exists new_names, multilabel_names (r :: rs) names = Ok new_names
                    /\ length new_names = length (r :: rs).
Proof.
  intros Hrows Hnames. unfold multilabel_names.
  rewrite (np_array_homogeneous r rs Hrows), bind_ret.
  destruct (for_each_Ok
              (fun line =>
                 sel ← mask_select names
                         ((fun x => bool_decide (x <> of_int 0)) <$> line);
                 Ok (String.concat "+" sel)) (r :: rs))
    as (ys & -> & Hlen).
  - apply Forall_forall. intros line Hline.
    assert (Hl : length line = length r).
    { apply elem_of_cons in Hline as [-> | Hline]; [done |].
      rewrite Forall_forall in Hrows. by apply Hrows. }
    unfold mask_select. rewrite length_fmap, Hl, Hnames, Nat.eqb_refl.
    by eexists.
  - rewrite bind_ret. destruct ys as [| y ys]; [done |].
    eexists. split; [done |]. exact Hlen.
Qed.

(** A successful construction with rows: what the arguments satisfy. *)
Lemma init_rows_valid cs r rs ls m :
  __init__ cs (Some (r :: rs)) ls = Ok m ->
  length cs = length (r :: rs)
  /\ Forall (fun r' => length r' = length r) rs
  /\ (forall names, ls = Some names -> names <> [] -> length names = length r).
Proof.
  intros H. pose proof (init_rows_homogeneous _ _ _ _ _ H) as Harr.
  apply np_array_rows_length in Harr.
  unfold __init__ in H. apply bind_Ok in H as (w & Hw & H).
  destruct (Nat.eqb_spec (length cs) (length (r :: rs))) as [Hlen |]; [| done].
  split_and!; [done | done |].
  intros names -> Hne. destruct names as [| name names]; [done |].
  unfold num_classes in H. cbn [one_hot_encoding] in H.
  by destruct (Nat.eqb_spec (length r) (length (name :: names))).
Qed.

(** ... and these conditions are enough. *)
Lemma init_rows_Ok cs r rs ls :
  length cs = length (r :: rs) ->
  Forall (fun r' => length r' = length r) rs ->
  (forall names, ls = Some names -> names <> [] -> length names = length r) ->
  exists m, __init__ cs (Some (r :: rs)) ls = Ok m.
Proof.
  intros Hlen Hrows Hls. unfold __init__.
  rewrite Hlen, Nat.eqb_refl. cbn [negb].
  destruct (check_empty_labels_Ok cs r rs ls Hrows Hls) as [w ->].
  rewrite bind_ret.
  destruct ls as [[| name names] |]; [by eexists | | by eexists].
  specialize (Hls _ eq_refl ltac:(done)).
  unfold num_classes. cbn [one_hot_encoding].
  rewrite Hls, Nat.eqb_refl. cbn [negb].
  destruct (multilabel_names_Ok r rs (name :: names) Hrows Hls)
    as (new_names & -> & Hnew).
  rewrite bind_ret. unfold assert_same_length.
  rewrite Hnew, <- Hlen, Nat.eqb_refl, bind_ret. by eexists.
Qed.

(** Without rows ([None] or the empty list) only the labels count. *)
Lemma init_plain_valid cs oh ls m :
  __init__ cs oh ls = Ok m -> truthy oh = false ->
  forall names, ls = Some names -> names <> [] -> length names = length cs.
Proof.
  intros H Hoh names -> Hne. destruct names as [| name names]; [done |].
  unfold __init__ in H. apply bind_Ok in H as (w & _ & H).
  unfold num_classes in H. cbn [one_hot_encoding colors] in H.
  destruct oh as [[| r rs] |]; [| done |];
    by destruct (Nat.eqb_spec (length cs) (length (name :: names))).
Qed.

Lemma init_plain_Ok cs oh ls :
  truthy oh = false ->
  (forall names, ls = Some names -> names <> [] -> length names = length cs) ->
  exists m, __init__ cs oh ls = Ok m.
Proof.
  intros Hoh Hls. unfold __init__.
  assert (Hskip : match oh with
                  | Some ((_ :: _) as rows) =>
                      if negb (length cs =? length rows)%nat
                      then Raise (ValueError (ColorsOneHotCount (length cs) (length rows)))
                      else _check_empty_labels_one_hot (mk cs oh ls None)
                  | _ => Ok None
                  end = Ok None) by (by destruct oh as [[| r rs] |]).
  rewrite Hskip, bind_ret.
  destruct ls as [[| name names] |]; [by eexists | | by eexists].
  specialize (Hls _ eq_refl ltac:(done)).
  unfold num_classes, assert_same_length. cbn [one_hot_encoding colors].
  destruct oh as [[| r rs] |]; [| done |];
    rewrite <- Hls, !Nat.eqb_refl; by eexists.
Qed.

End ConstructorSuccess.

(* ------------------------------------------------------------------ *)
(** ** Filtering by colours *)

Section Filtering.

Import ColorLabels.

Context (keep : gset color).

Lemma appended_cons {A} (o : option (list A)) x xs :
  appended (Some (default [] o ++ [x])) xs = appended o (x :: xs).
Proof.
  unfold appended. destruct xs as [| y ys]; [done |].
  simpl. by rewrite <- app_assoc.
Qed.

Lemma appended_None {A} (xs : list A) : appended None xs = some_if_any xs.
Proof. by destruct xs. Qed.

Lemma in_set_tuple row :
  is_tuple row -> in_set row keep = Ok (bool_decide (is_kept keep row)).
Proof. by destruct row. Qed.

Lemma kept_length {A} cs (xs : list A) :
  length cs = length xs ->
  length (kept keep cs xs) = length (filter (is_kept keep) cs).
Proof.
  revert xs. induction cs as [| c cs IH]; intros [| x xs] Hlen; try done.
  simpl. rewrite filter_cons. simpl in Hlen.
  destruct (decide (is_kept keep c)); simpl; rewrite IH; lia.
Qed.

Lemma kept_Forall {A} (P : A -> Prop) cs xs :
  Forall P xs -> Forall P (kept keep cs xs).
Proof.
  intros H. revert cs. induction H as [| x xs Hx _ IH]; intros [| c cs];
    simpl; try done.
  destruct (decide (is_kept keep c)); [by constructor | done].
Qed.

Lemma kept_self cs : kept keep cs cs = filter (is_kept keep) cs.
Proof.
  induction cs as [| c cs IH]; [done |]. simpl. rewrite filter_cons.
  destruct (decide (is_kept keep c)); by rewrite IH.
Qed.

Lemma drop_lookup_cons {A} (xs : list A) i :
  (i < length xs)%nat -> exists x, xs !! i = Some x /\ drop i xs = x :: drop (S i) xs.
Proof.
  intros Hi. destruct (lookup_lt_is_Some_2 xs i Hi) as [x Hx].
  exists x. split; [done |]. by rewrite (drop_S _ _ _ Hx).
Qed.

(** The loop over tuples when the source has one-hot rows. *)
Lemma filter_loop_rows m r rs :
  one_hot_encoding m = Some (r :: rs) ->
  forall rest index st,
    Forall is_tuple rest ->
    (length rest + index <= length (r :: rs))%nat ->
    filter_loop m keep index rest st
    = Ok {| new_colors := new_colors st ++ filter (is_kept keep) rest;
            new_one_hot_encoding :=
              appended (new_one_hot_encoding st)
                (kept keep rest (drop index (r :: rs)));
            new_labels := new_labels st |}.
Proof.
  intros Hoh. induction rest as [| c rest IH]; intros index st Htup Hlen.
  - simpl. rewrite app_nil_r. by destruct st.
  - apply Forall_cons in Htup as [Hc Htup]. cbn [filter_loop].
    change (length (c :: rest)) with (S (length rest)) in Hlen.
    destruct (drop_lookup_cons (r :: rs) index) as (row & Hrow & Hdrop);
      [lia |].
    rewrite Hdrop. cbn [kept]. rewrite filter_cons.
    unfold filter_step. rewrite (in_set_tuple c Hc), bind_ret, Hoh.
    unfold getitem. rewrite Hrow.
    destruct (decide (is_kept keep c)).
    + rewrite bool_decide_eq_true_2 by done.
      rewrite !bind_ret, IH by (done || lia).
      cbn [new_colors new_one_hot_encoding new_labels].
      by rewrite <- app_assoc, appended_cons.
    + rewrite bool_decide_eq_false_2 by done.
      by rewrite bind_ret, IH by (done || lia).
Qed.

(** The loop over tuples when the source has no rows but has labels. *)
Lemma filter_loop_labels m name names :
  truthy (one_hot_encoding m) = false ->
  labels m = Some (name :: names) ->
  forall rest index st,
    Forall is_tuple rest ->
    (length rest + index <= length (name :: names))%nat ->
    filter_loop m keep index rest st
    = Ok {| new_colors := new_colors st ++ filter (is_kept keep) rest;
            new_one_hot_encoding := new_one_hot_encoding st;
            new_labels :=
              appended (new_labels st)
                (kept keep rest (drop index (name :: names))) |}.
Proof.
  intros Hoh Hls. induction rest as [| c rest IH]; intros index st Htup Hlen.
  - simpl. rewrite app_nil_r. by destruct st.
  - apply Forall_cons in Htup as [Hc Htup]. cbn [filter_loop].
    change (length (c :: rest)) with (S (length rest)) in Hlen.
    destruct (drop_lookup_cons (name :: names) index) as (x & Hx & Hdrop);
      [lia |].
    rewrite Hdrop. cbn [kept]. rewrite filter_cons.
    unfold filter_step. rewrite (in_set_tuple c Hc), bind_ret, Hls.
    unfold getitem. rewrite Hx.
    destruct (decide (is_kept keep c)).
    + rewrite bool_decide_eq_true_2 by done.
      destruct (one_hot_encoding m) as [[| ? ?] |]; [| done |];
        rewrite !bind_ret, IH by (done || lia);
        cbn [new_colors new_one_hot_encoding new_labels];
        by rewrite <- app_assoc, appended_cons.
    + rewrite bool_decide_eq_false_2 by done.
      by rewrite bind_ret, IH by (done || lia).
Qed.

(** The loop over tuples when the source has neither rows nor labels. *)
Lemma filter_loop_plain m :
  truthy (one_hot_encoding m) = false ->
  truthy (labels m) = false ->
  forall rest index st,
    Forall is_tuple rest ->
    filter_loop m keep index rest st
    = Ok {| new_colors := new_colors st ++ filter (is_kept keep) rest;
            new_one_hot_encoding := new_one_hot_encoding st;
            new_labels := new_labels st |}.
Proof.
  intros Hoh Hls. induction rest as [| c rest IH]; intros index st Htup.
  - simpl. rewrite app_nil_r. by destruct st.
  - apply Forall_cons in Htup as [Hc Htup].
    cbn [filter_loop]. rewrite filter_cons. unfold filter_step.
    rewrite (in_set_tuple c Hc), bind_ret.
    destruct (decide (is_kept keep c)).
    + rewrite bool_decide_eq_true_2 by done.
      destruct (one_hot_encoding m) as [[| ? ?] |]; [| done |];
        (destruct (labels m) as [[| ? ?] |]; [| done |]);
        rewrite !bind_ret, IH by done;
        cbn [new_colors new_one_hot_encoding new_labels];
        by rewrite <- app_assoc.
    + rewrite bool_decide_eq_false_2 by done.
      by rewrite bind_ret, IH by done.
Qed.

(** A turn of the loop on a tuple ends well when the row or the name
    at its index exists. *)
Lemma filter_step_tuple_Ok m (n : nat) st index c :
  (forall r rs, one_hot_encoding m = Some (r :: rs) -> length (r :: rs) = n) ->
  (forall name names, truthy (one_hot_encoding m) = false ->
     labels m = Some (name :: names) -> length (name :: names) = n) ->
  (index < n)%nat ->
  exists st', filter_step m keep st index (TupleColor c) = Ok st'.
Proof.
  intros Hrows Hnames Hindex. unfold filter_step. cbn [in_set]. rewrite bind_ret.
  destruct (bool_decide (c ∈ keep)); [| by eexists].
  destruct (one_hot_encoding m) as [[| r rs] |] eqn:Hoh.
  - destruct (labels m) as [[| name names] |] eqn:Hls; [by eexists | | by eexists].
    specialize (Hnames _ _ eq_refl eq_refl).
    unfold getitem.
    destruct (lookup_lt_is_Some_2 (name :: names) index) as [x ->]; [lia |].
    by eexists.
  - specialize (Hrows _ _ eq_refl). unfold getitem.
    destruct (lookup_lt_is_Some_2 (r :: rs) index) as [x ->]; [lia |].
    by eexists.
  - destruct (labels m) as [[| name names] |] eqn:Hls; [by eexists | | by eexists].
    specialize (Hnames _ _ eq_refl eq_refl).
    unfold getitem.
    destruct (lookup_lt_is_Some_2 (name :: names) index) as [x ->]; [lia |].
    by eexists.
Qed.

(** The loop stops with [TypeError] at the first colour that is a list. *)
Lemma filter_loop_list_raises m (n : nat) :
  (forall r rs, one_hot_encoding m = Some (r :: rs) -> length (r :: rs) = n) ->
  (forall name names, truthy (one_hot_encoding m) = false ->
     labels m = Some (name :: names) -> length (name :: names) = n) ->
  forall rest index st,
    (length rest + index <= n)%nat ->
    Exists (fun row => ~ is_tuple row) rest ->
    filter_loop m keep index rest st = Raise TypeError.
Proof.
  intros Hrows Hnames. induction rest as [| row rest IH]; intros index st Hlen Hex.
  - by apply Exists_nil in Hex.
  - cbn [filter_loop].
    change (length (row :: rest)) with (S (length rest)) in Hlen.
    destruct row as [c | c].
    + apply Exists_cons in Hex as [Hc | Hex]; [by destruct Hc |].
      destruct (filter_step_tuple_Ok m n st index c Hrows Hnames) as [st' ->];
        [lia |].
      rewrite bind_ret. apply IH; [lia | done].
    + done.
Qed.

(** Filtering a validly constructed mapping that has a list among its
    colours raises [TypeError]. *)
Lemma from_filter_by_colors_list_raises cs oh ls m :
  __init__ cs oh ls = Ok m ->
  Exists (fun row => ~ is_tuple row) cs ->
  from_filter_by_colors m keep = Raise TypeError.
Proof.
  intros Hinit Hlist.
  destruct (init_fields _ _ _ _ Hinit) as (Hc & Ho & Hl).
  unfold from_filter_by_colors.
  rewrite (filter_loop_list_raises m (length cs)); [done | | | | ].
  - intros r rs Hrs. rewrite Ho in Hrs. rewrite Hrs in Hinit.
    by destruct (init_rows_valid _ _ _ _ _ Hinit) as (-> & _).
  - intros name names Hoh Hls. rewrite Ho in Hoh. rewrite Hl in Hls.
    by apply (init_plain_valid _ _ _ _ Hinit Hoh).
  - rewrite Hc. lia.
  - by rewrite Hc.
Qed.

(** So a mapping that can be filtered has tuples as colours. *)
Lemma from_filter_by_colors_Ok_tuples cs oh ls m m' :
  __init__ cs oh ls = Ok m ->
  from_filter_by_colors m keep = Ok m' ->
  Forall is_tuple cs.
Proof.
  intros Hinit Hm'.
  destruct (decide (Forall is_tuple cs)) as [| Hnot]; [done |].
  apply not_Forall_Exists in Hnot; [| apply _].
  by rewrite (from_filter_by_colors_list_raises _ _ _ _ Hinit Hnot) in Hm'.
Qed.

End Filtering.

(** C7 as stated does not hold.  The first mapping below is validly
    constructed and multilabel (its [one_hot_encoding] is the empty
    list, not [None]), but filtering it gives the labels of the kept
    rows, not its label list unchanged.  The second has one-hot rows and
    a label: filtering all its rows away raises a [ValueError] and
    returns no mapping.  The third was written by [to_json] and read
    back by [from_labels_json_file], so its colours are lists:
    filtering it raises [TypeError]. *)
Lemma from_filter_by_colors_counterexample :
  (ColorLabels.__init__
     [TupleColor (0, 0, 0); TupleColor (255, 0, 0); TupleColor (0, 255, 0)]
     (Some []) (Some ["paper"; "ink"; "stamp"]%string) = Ok empty_one_hot_mapping
   /\ ColorLabels.multilabel empty_one_hot_mapping = true
   /\ exists m',
       ColorLabels.from_filter_by_colors empty_one_hot_mapping
         {[ (0, 0, 0); (0, 255, 0) ]} = Ok m'
       /\ ColorLabels.labels m' = Some ["paper"; "stamp"]%string
       /\ ColorLabels.labels m' <> ColorLabels.labels empty_one_hot_mapping)
  /\ (ColorLabels.__init__ [TupleColor (0, 0, 0); TupleColor (255, 0, 0)]
         (Some [[of_int 0]; [of_int 1]]) (Some ["ink"%string]) = Ok ink_mapping
      /\ ColorLabels.from_filter_by_colors ink_mapping {[ (9, 9, 9) ]}
         = Raise (ValueError (ClassesLabelsCount 0 1)))
  /\ (ColorLabels.__init__ [TupleColor (0, 0, 0); TupleColor (255, 0, 0)] None None
      = Ok tuple_mapping
      /\ exists fs',
          ColorLabels.to_json tuple_mapping "labels.json" ∅ = Ok fs'
          /\ ColorLabels.from_labels_json_file "labels.json" fs'
             = Ok json_loaded_mapping
          /\ ColorLabels.from_filter_by_colors json_loaded_mapping
               {[ (0, 0, 0); (255, 0, 0) ]} = Raise TypeError).
Proof.
  split_and!.
  - by vm_compute.
  - done.
  - eexists. split_and!; [by vm_compute | done | done].
  - by vm_compute.
  - by vm_compute.
  - by vm_compute.
  - eexists. split_and!; by vm_compute.
Qed.

(** C7, amended. Let [m] be validly constructed.  If every colour of
    [m] is a tuple and, whenever [m] has both one-hot rows and labels,
    some colour of [m] is in the set, then [from_filter_by_colors]
    returns a mapping with the colours of [m] that are in the set, in
    their order.  If the [one_hot_encoding] of [m] is non-empty, the
    result has the one-hot rows of the kept colours, unchanged and in
    order (no one-hot encoding when nothing is kept), and the label
    list of [m] unchanged.  If it is absent or empty, the result has
    no one-hot encoding, and its labels are the labels at the kept
    positions (none when nothing is kept).  If some colour of [m] is a
    list, as in a mapping loaded from JSON, [from_filter_by_colors]
    raises [TypeError]. *)
Theorem from_filter_by_colors_spec (cs : list color_row)
    (oh : option (list (list number))) (ls : option (list string))
    (m : ColorLabels.t) (keep : gset color) :
  ColorLabels.__init__ cs oh ls = Ok m ->
  (Forall is_tuple cs ->
   (truthy oh = true -> truthy ls = true ->
    exists c, TupleColor c ∈ cs /\ c ∈ keep) ->
   exists m',
     ColorLabels.from_filter_by_colors m keep = Ok m'
     /\ ColorLabels.colors m' = filter (is_kept keep) cs
     /\ (forall rows, oh = Some rows -> rows <> [] ->
           ColorLabels.one_hot_encoding m' = some_if_any (kept keep cs rows)
           /\ ColorLabels.labels m' = ls)
     /\ (truthy oh = false ->
           ColorLabels.one_hot_encoding m' = None
           /\ ColorLabels.labels m'
              = match ls with
                | Some ((_ :: _) as names) => some_if_any (kept keep cs names)
                | _ => None
                end))
  /\ (Exists (fun row => ~ is_tuple row) cs ->
      ColorLabels.from_filter_by_colors m keep = Raise TypeError).
Proof.
  intros Hinit.
  destruct (init_fields _ _ _ _ Hinit) as (Hc & Ho & Hl).
  split; [intros Htup Hkept | intros Hlist].
  2:{ by apply (from_filter_by_colors_list_raises keep cs oh ls). }
  unfold ColorLabels.from_filter_by_colors.
  destruct (truthy oh) eqn:Htruthy.
  - (* one-hot rows *)
    destruct oh as [[| r rs] |]; try done.
    destruct (init_rows_valid _ _ _ _ _ Hinit) as (Hlen & Hrows & Hls).
    rewrite (filter_loop_rows keep m r rs Ho)
      by (rewrite Hc; (done || simpl in *; lia)).
    rewrite bind_ret, Ho, Hl, Hc.
    cbn [ColorLabels.new_colors ColorLabels.new_one_hot_encoding
         ColorLabels.new_labels truthy app drop].
    rewrite appended_None.
    assert (Hall : Forall (fun r' => length r' = length r) (kept keep cs (r :: rs)))
      by (apply kept_Forall; by constructor).
    pose proof (kept_length keep cs (r :: rs) Hlen) as Hklen.
    assert (Hm' : exists m', ColorLabels.__init__ (filter (is_kept keep) cs)
                    (some_if_any (kept keep cs (r :: rs))) ls = Ok m').
    { destruct (kept keep cs (r :: rs)) as [| r' rs'] eqn:Hk.
      - apply init_plain_Ok; [done |].
        intros names -> Hne. exfalso.
        destruct Hkept as (c & Hc1 & Hc2); [done | by destruct names |].
        assert (Hin : TupleColor c ∈ filter (is_kept keep) cs)
          by (by apply list_elem_of_filter).
        destruct (filter _ cs); [by apply elem_of_nil in Hin | done].
      - apply Forall_cons in Hall as [Hr' Hrs'].
        apply init_rows_Ok.
        + by rewrite <- Hklen.
        + eapply Forall_impl; [exact Hrs' |]. simpl. intros ? ->. done.
        + intros names Hn Hne. rewrite Hr'. by apply Hls. }
    destruct Hm' as (m' & Hm'). exists m'.
    destruct (init_fields _ _ _ _ Hm') as (Hc' & Ho' & Hl').
    split_and!; try done.
    intros rows [= <-] _. done.
  - (* no one-hot rows *)
    assert (Htm : truthy (ColorLabels.one_hot_encoding m) = false)
      by (by rewrite Ho).
    destruct ls as [[| name names] |].
    + rewrite (filter_loop_plain keep m Htm) by (by rewrite ?Hl, ?Hc).
      rewrite bind_ret, Ho, Hc, Htruthy.
      cbn [ColorLabels.new_colors ColorLabels.new_one_hot_encoding
           ColorLabels.new_labels app].
      destruct (init_plain_Ok (filter (is_kept keep) cs) None None)
        as (m' & Hm'); [done | done |].
      exists m'. destruct (init_fields _ _ _ _ Hm') as (Hc' & Ho' & Hl').
      split_and!; try done. intros rows ->. by destruct rows.
    + pose proof (init_plain_valid _ _ _ _ Hinit Htruthy _ eq_refl ltac:(done))
        as Hlen.
      rewrite (filter_loop_labels keep m name names Htm Hl)
        by (rewrite Hc; (done || simpl in *; lia)).
      rewrite bind_ret, Ho, Hc, Htruthy.
      cbn [ColorLabels.new_colors ColorLabels.new_one_hot_encoding
           ColorLabels.new_labels app drop].
      rewrite appended_None.
      destruct (init_plain_Ok (filter (is_kept keep) cs) None
                  (some_if_any (kept keep cs (name :: names))))
        as (m' & Hm'); [done | |].
      { intros names' Hn Hne. rewrite <- (kept_length keep cs (name :: names))
          by done.
        destruct (kept keep cs (name :: names)); [done |].
        by injection Hn as <-. }
      exists m'. destruct (init_fields _ _ _ _ Hm') as (Hc' & Ho' & Hl').
      split_and!; try done. intros rows ->. by destruct rows.
    + rewrite (filter_loop_plain keep m Htm) by (by rewrite ?Hl, ?Hc).
      rewrite bind_ret, Ho, Hc, Htruthy.
      cbn [ColorLabels.new_colors ColorLabels.new_one_hot_encoding
           ColorLabels.new_labels app].
      destruct (init_plain_Ok (filter (is_kept keep) cs) None None)
        as (m' & Hm'); [done | done |].
      exists m'. destruct (init_fields _ _ _ _ Hm') as (Hc' & Ho' & Hl').
      split_and!; try done. intros rows ->. by destruct rows.
Qed.

Lemma from_filter_by_colors_witness :
  (exists m',
    ColorLabels.from_filter_by_colors
      (ColorLabels.mk
         [TupleColor (0, 0, 0); TupleColor (255, 0, 0); TupleColor (0, 255, 0)]
         (Some [[of_int 0]; [of_int 1]; [of_int 1]]) (Some ["ink"%string])
         (Some ["background"; "ink"; "ink"]%string))
      {[ (255, 0, 0) ]} = Ok m'
    /\ ColorLabels.colors m' = [TupleColor (255, 0, 0)]
    /\ ColorLabels.one_hot_encoding m' = Some [[of_int 1]]
    /\ ColorLabels.labels m' = Some ["ink"%string])
  /\ ColorLabels.from_filter_by_colors
       (ColorLabels.mk [TupleColor (0, 0, 0); ListColor (255, 0, 0)] None None None)
       {[ (255, 0, 0) ]} = Raise TypeError.
Proof.
  split.
  - destruct (from_filter_by_colors_spec
                [TupleColor (0, 0, 0); TupleColor (255, 0, 0); TupleColor (0, 255, 0)]
                (Some [[of_int 0]; [of_int 1]; [of_int 1]])
                (Some ["ink"%string])
                (ColorLabels.mk
                   [TupleColor (0, 0, 0); TupleColor (255, 0, 0); TupleColor (0, 255, 0)]
                   (Some [[of_int 0]; [of_int 1]; [of_int 1]])
                   (Some ["ink"%string])
                   (Some ["background"; "ink"; "ink"]%string))
                {[ (255, 0, 0) ]}) as [Htuples _]; [by vm_compute |].
    destruct Htuples as (m' & Hm' & Hc & Hrows & _).
    + repeat (apply Forall_cons_2 || apply Forall_nil_2); exact I.
    + intros _ _. exists (255, 0, 0). split; [| by apply elem_of_singleton].
      apply elem_of_cons. right. apply elem_of_cons. by left.
    + destruct (Hrows _ eq_refl ltac:(done)) as [Hoh Hl].
      exists m'. split_and!; [exact Hm' | exact Hc | exact Hoh | exact Hl].
  - apply (from_filter_by_colors_spec
             [TupleColor (0, 0, 0); ListColor (255, 0, 0)] None None
             (ColorLabels.mk [TupleColor (0, 0, 0); ListColor (255, 0, 0)]
                None None None) {[ (255, 0, 0) ]}); [by vm_compute |].
    apply Exists_cons_tl, Exists_cons_hd. simpl. tauto.
Defined.

(* ------------------------------------------------------------------ *)
(** ** The one-hot value parser *)

Section Parser.

Context (astype_float32 : scalar -> option number).

Lemma coerce_cases xs :
  (exists arr, coerce astype_float32 xs = Ok arr /\ coerced astype_float32 xs arr)
  \/ (coerce astype_float32 xs = Raise (ValueError NotANumber)
      /\ exists x, x ∈ xs /\ astype_float32 x = None).
Proof.
  unfold coerce, coerced. induction xs as [| x xs IH]; [left; by exists [] |].
  cbn [for_each]. destruct (astype_float32 x) as [q |] eqn:Hx.
  - cbn [bind]. destruct IH as [(arr & -> & Harr) | (-> & y & Hy & Hnone)].
    + left. exists (q :: arr). split; [done |]. by constructor.
    + right. split; [done |]. exists y. split; [by apply elem_of_cons; right | done].
  - right. split; [done |]. exists x. split; [by apply elem_of_cons; left | done].
Qed.

Lemma coerced_functional xs arr arr' :
  coerced astype_float32 xs arr -> coerced astype_float32 xs arr' -> arr = arr'.
Proof.
  unfold coerced. intros H. revert arr'.
  induction H as [| x q xs arr Hx _ IH]; intros arr' H'.
  - by apply Forall2_nil_inv_l in H'.
  - apply Forall2_cons_inv_l in H' as (q' & arr'' & Hx' & H' & ->).
    rewrite Hx in Hx'. injection Hx' as <-. f_equal. by apply IH.
Qed.

Lemma coerced_all_numbers xs arr x :
  coerced astype_float32 xs arr -> x ∈ xs -> astype_float32 x <> None.
Proof.
  unfold coerced. intros H.
  induction H as [| y q ys arr Hy _ IH]; [by intros ?%elem_of_nil |].
  intros [-> | Hin]%elem_of_cons; [by rewrite Hy | by apply IH].
Qed.

End Parser.

Section ParserChecks.

Lemma integral_trunc q : integral (Finite q) <-> Qc_of_Z (Qc_trunc q) = q.
Proof.
  split.
  - intros [z [= ->]]. by rewrite Qc_trunc_of_Z.
  - intros H. exists (Qc_trunc q). unfold of_int. by rewrite H.
Qed.

Lemma is_int_array_spec arr : is_int_array arr = true <-> Forall integral arr.
Proof.
  unfold is_int_array. rewrite forallb_forall, Forall_forall. split.
  - intros H x Hx. apply list_elem_of_In, H in Hx.
    destruct x as [q | |]; [| done | done].
    apply integral_trunc. by apply bool_decide_eq_true in Hx.
  - intros H x Hx. apply list_elem_of_In, H in Hx.
    destruct x as [q | |]; [| by destruct Hx | by destruct Hx].
    by apply bool_decide_eq_true, integral_trunc.
Qed.

Lemma not_zero_one_spec arr :
  (0 <? length (list_difference (remove_dups arr) [of_int 0; of_int 1]))%nat = true
  <-> Exists (fun q => ~ zero_or_one q) arr.
Proof.
  rewrite Nat.ltb_lt, Exists_exists. split.
  - intros Hlen.
    destruct (list_difference (remove_dups arr) [of_int 0; of_int 1])
      as [| q l] eqn:Hd; [simpl in Hlen; lia |].
    assert (Hq : q ∈ list_difference (remove_dups arr) [of_int 0; of_int 1])
      by (rewrite Hd; by left).
    apply list_elem_of_difference in Hq as [Hq Hnot].
    rewrite elem_of_remove_dups in Hq. exists q. split; [done |].
    intros [-> | ->]; apply Hnot; [by left | by right; left].
  - intros (q & Hq & Hnot).
    assert (Hin : q ∈ list_difference (remove_dups arr) [of_int 0; of_int 1]).
    { apply list_elem_of_difference. split; [by apply elem_of_remove_dups |].
      intros [-> | [-> | []%elem_of_nil]%elem_of_cons]%elem_of_cons;
        apply Hnot; [by left | by right]. }
    destruct (list_difference _ _); [by apply elem_of_nil in Hin | simpl; lia].
Qed.

(** The range test of the parser, value by value. *)
Lemma beyond_unit_range_spec x :
  less_than x 0 || greater_than x 1 = true <-> beyond_unit_range x.
Proof.
  destruct x as [q | negative |]; simpl.
  - by rewrite orb_true_iff, !bool_decide_eq_true.
  - by destruct negative.
  - done.
Qed.

(** A finite value is beyond the range exactly when it is not in it;
    NaN is neither in the range nor beyond it. *)
Lemma beyond_unit_range_finite q :
  beyond_unit_range (Finite q) <-> ~ in_unit_range (Finite q).
Proof.
  unfold in_unit_range. simpl. split.
  - intros [H | H] (q' & [= <-] & H0 & H1).
    + by apply (Qcle_not_lt _ _ H0).
    + by apply (Qcle_not_lt _ _ H1).
  - intros Hnot. destruct (Qclt_le_dec q 0) as [| H0]; [by left |].
    destruct (Qclt_le_dec 1 q) as [| H1]; [by right |].
    exfalso. apply Hnot. by exists q.
Qed.

Lemma out_of_range_spec arr :
  existsb (fun x => less_than x 0 || greater_than x 1) arr = true
  <-> Exists beyond_unit_range arr.
Proof.
  rewrite existsb_exists, Exists_exists. split.
  - intros (q & Hq & H). exists q. split; [by apply list_elem_of_In |].
    by apply beyond_unit_range_spec.
  - intros (q & Hq & H). exists q. split; [by apply list_elem_of_In |].
    by apply beyond_unit_range_spec.
Qed.

Lemma astype_int32_zero_one arr :
  Forall zero_or_one arr -> of_int <$> (np_int32 <$> arr) = arr.
Proof.
  induction 1 as [| q arr Hq _ IH]; [done |].
  rewrite !fmap_cons, IH. f_equal.
  destruct Hq as [-> | ->]; unfold of_int; f_equal; by apply Qc_is_canon.
Qed.

End ParserChecks.

(** C5 as stated does not hold, in either direction.  On the text "a"
    the parser raises a [ValueError] (NumPy cannot convert the
    character to a float), but there are no coerced values, so neither
    condition of the claim is met.  On the sequence of NaN and 1/2 not
    all values are integral and NaN lies outside [0, 1], but the parser
    returns the two values. *)
Lemma parse_validate_one_hot_counterexample :
  (is_value_error (parse_validate_one_hot example_float32 (OneHotText "a"))
   /\ ~ exists arr, coerced example_float32 (chars "a") arr /\ rejected_outside arr)
  /\ (parse_validate_one_hot example_float32
        (OneHotSeq [SNum NaN; SNum (Finite (Q2Qc (1 # 2)))])
      = Ok [NaN; Finite (Q2Qc (1 # 2))]
      /\ coerced example_float32 [SNum NaN; SNum (Finite (Q2Qc (1 # 2)))]
           [NaN; Finite (Q2Qc (1 # 2))]
      /\ rejected_outside [NaN; Finite (Q2Qc (1 # 2))]).
Proof.
  split; [split | split_and!].
  - by exists NotANumber.
  - intros (arr & Harr & _). unfold coerced in Harr. simpl in Harr.
    apply Forall2_cons_inv_l in Harr as (? & ? & Hx & _). done.
  - by vm_compute.
  - by repeat constructor.
  - right. split.
    + intros H. apply Forall_cons in H as [[z Hz] _]. discriminate Hz.
    + apply Exists_cons_hd. intros (q & Hq & _). discriminate Hq.
Qed.

(** C5, amended. For a string of characters or a sequence of numeric or
    string values, [parse_validate_one_hot] raises a [ValueError] if and
    only if some element cannot be coerced to a number, or, after
    numeric coercion, either all values are integral and some value lies
    outside {0, 1}, or not all values are integral and some value is
    smaller than 0 or larger than 1 (NaN is neither); otherwise it
    returns the coerced values, a NaN among them included, in the
    order and the number of the input. *)
Theorem parse_validate_one_hot_spec (astype_float32 : scalar -> option number)
    (one_hot : one_hot_input) (xs : list scalar) :
  elements one_hot = Some xs ->
  (is_value_error (parse_validate_one_hot astype_float32 one_hot)
   <-> (exists x, x ∈ xs /\ astype_float32 x = None)
       \/ (exists arr, coerced astype_float32 xs arr /\ rejected arr))
  /\ (raises (parse_validate_one_hot astype_float32 one_hot)
      -> is_value_error (parse_validate_one_hot astype_float32 one_hot))
  /\ (~ raises (parse_validate_one_hot astype_float32 one_hot)
      -> exists arr, coerced astype_float32 xs arr
                     /\ parse_validate_one_hot astype_float32 one_hot = Ok arr
                     /\ length arr = length xs).
Proof.
  intros Hxs. unfold parse_validate_one_hot. rewrite Hxs.
  destruct (coerce_cases astype_float32 xs)
    as [(arr & -> & Harr) | (-> & x & Hx & Hnone)].
  - rewrite bind_ret.
    assert (Hlen : length arr = length xs)
      by (symmetry; by eapply Forall2_length).
    assert (Hnofail : ~ exists x, x ∈ xs /\ astype_float32 x = None).
    { intros (x & Hx & Hnone). by eapply coerced_all_numbers. }
    assert (Hrej :
               ((exists x, x ∈ xs /\ astype_float32 x = None)
                \/ (exists arr', coerced astype_float32 xs arr' /\ rejected arr'))
               <-> rejected arr).
    { split.
      - intros [? | (arr' & Harr' & Hr)]; [done |].
        by rewrite (coerced_functional _ _ _ _ Harr Harr').
      - intros Hr. right. by exists arr. }
    rewrite Hrej. clear Hrej. unfold rejected.
    destruct (is_int_array arr) eqn:Hint.
    + apply is_int_array_spec in Hint.
      destruct (0 <? _)%nat eqn:Hzo.
      * apply not_zero_one_spec in Hzo. split_and!.
        -- split; [by left | by exists NotZeroOne].
        -- intros _. by exists NotZeroOne.
        -- intros Hnot. exfalso. apply Hnot. by eexists.
      * assert (Hall : Forall zero_or_one arr).
        { apply Forall_forall. intros q Hq.
          destruct (decide (q = of_int 0)) as [| Hn0]; [by left |].
          destruct (decide (q = of_int 1)) as [| Hn1]; [by right |].
          exfalso. apply not_true_iff_false in Hzo. apply Hzo.
          apply not_zero_one_spec, Exists_exists. exists q. split; [done |].
          by intros [? | ?]. }
        rewrite (astype_int32_zero_one arr Hall). split_and!.
        -- split; [by intros (? & ?) |].
           intros [[_ Hex] | [Hni _]]; [| done].
           apply Exists_exists in Hex as (q & Hq & Hnot).
           rewrite Forall_forall in Hall. by destruct (Hnot (Hall q Hq)).
        -- by intros (? & ?).
        -- intros _. by exists arr.
    + assert (Hni : ~ Forall integral arr).
      { intros H. apply is_int_array_spec in H. congruence. }
      destruct (existsb _ arr) eqn:Hout.
      * apply out_of_range_spec in Hout. split_and!.
        -- split; [by right | by exists NotInUnitRange].
        -- intros _. by exists NotInUnitRange.
        -- intros Hnot. exfalso. apply Hnot. by eexists.
      * split_and!.
        -- split; [by intros (? & ?) |].
           intros [[Hi _] | [_ Hex]]; [done |].
           apply out_of_range_spec in Hex. congruence.
        -- by intros (? & ?).
        -- intros _. by exists arr.
  - split_and!.
    + split; [| by exists NotANumber]. intros _. left. by exists x.
    + intros _. by exists NotANumber.
    + intros Hnot. exfalso. apply Hnot. by eexists.
Qed.

Lemma parse_validate_one_hot_witness :
  exists arr,
    parse_validate_one_hot example_float32 (OneHotText "0110") = Ok arr
    /\ length arr = 4%nat.
Proof.
  destruct (parse_validate_one_hot_spec example_float32 (OneHotText "0110")
              (chars "0110") eq_refl) as (_ & _ & Hok).
  destruct Hok as (arr & _ & Hparse & Hlen).
  - intros [e He]. vm_compute in He. discriminate He.
  - by exists arr.
Defined.

(* ------------------------------------------------------------------ *)
(** ** The plain colour list constructor *)

Section FromColors.

Context (parse_and_validate_color : color_spec -> option color_row).

(** Every specification parses: the colours are the parsed ones. *)
Lemma for_each_parse_color specs cols :
  Forall2 (fun spec c => parse_and_validate_color spec = Some c) specs cols ->
  for_each (ColorLabels.parse_color parse_and_validate_color) specs = Ok cols.
Proof.
  induction 1 as [| spec c specs cols Hc _ IH]; [done |].
  cbn [for_each]. unfold ColorLabels.parse_color at 1. by rewrite Hc, IH.
Qed.

End FromColors.

(** C8 as stated does not hold: with no colours and the (matching)
    empty label list, the labels stay empty; "background" is not put in
    front. *)
Lemma from_colors_counterexample :
  length ([] : list string) = length ([] : list color_spec)
  /\ exists m, ColorLabels.from_colors hex_or_triple_color [] (Some []) = Ok m
               /\ ColorLabels.colors m = [TupleColor (0, 0, 0)]
               /\ ColorLabels.labels m = Some []
               /\ ColorLabels.labels m <> Some ["background"%string].
Proof. split; [done |]. eexists. by split_and!. Qed.

(** C8, amended. For every list of colour specifications that parse and
    every non-empty label list of matching length, [from_colors]
    returns a mapping that is not multilabel, whose colours are
    (0,0,0) followed by the parsed colours in order and whose labels
    are "background" followed by the given labels in order; without
    labels the colours are the same and there are no labels.  In
    particular the hex colours "#FF0000" and "#00FF00" with the labels
    "red" and "green" give the colours (0,0,0), (255,0,0), (0,255,0)
    and the labels "background", "red", "green". *)
Theorem from_colors_spec :
  (forall parse (specs : list color_spec) (cols : list color_row) (names : list string),
      Forall2 (fun spec c => parse spec = Some c) specs cols ->
      names <> [] -> length names = length specs ->
      exists m,
        ColorLabels.from_colors parse specs (Some names) = Ok m
        /\ ColorLabels.multilabel m = false
        /\ ColorLabels.colors m = TupleColor (0, 0, 0) :: cols
        /\ ColorLabels.labels m = Some ("background"%string :: names))
  /\ (forall parse (specs : list color_spec) (cols : list color_row),
        Forall2 (fun spec c => parse spec = Some c) specs cols ->
        exists m,
          ColorLabels.from_colors parse specs None = Ok m
          /\ ColorLabels.multilabel m = false
          /\ ColorLabels.colors m = TupleColor (0, 0, 0) :: cols
          /\ ColorLabels.labels m = None)
  /\ exists m,
      ColorLabels.from_colors hex_or_triple_color
        [ColorText "#FF0000"; ColorText "#00FF00"]
        (Some ["red"; "green"]%string) = Ok m
      /\ ColorLabels.multilabel m = false
      /\ ColorLabels.colors m
         = [TupleColor (0, 0, 0); TupleColor (255, 0, 0); TupleColor (0, 255, 0)]
      /\ ColorLabels.labels m = Some ["background"; "red"; "green"]%string.
Proof.
  split_and!.
  - intros parse specs cols names Hparse Hne Hlen.
    unfold ColorLabels.from_colors.
    rewrite (for_each_parse_color parse specs cols Hparse), bind_ret.
    destruct names as [| name names]; [done |].
    destruct (init_plain_Ok (TupleColor (0, 0, 0) :: cols) None
                (Some ("background"%string :: name :: names)))
      as (m & Hm); [done | |].
    { intros ? [= <-] _. simpl. rewrite <- (Forall2_length _ _ _ Hparse).
      simpl in Hlen. lia. }
    exists m. destruct (init_fields _ _ _ _ Hm) as (Hc & Ho & Hl).
    split_and!; try done. unfold ColorLabels.multilabel. by rewrite Ho.
  - intros parse specs cols Hparse. unfold ColorLabels.from_colors.
    rewrite (for_each_parse_color parse specs cols Hparse), bind_ret.
    by eexists.
  - eexists. split_and!; [by vm_compute | done ..].
Qed.

Lemma from_colors_witness :
  exists m,
    ColorLabels.from_colors hex_or_triple_color
      [ColorTriple 12 34 56; ColorText "#0a0B0c"]
      (Some ["seal"; "rule"]%string) = Ok m
    /\ ColorLabels.colors m
       = [TupleColor (0, 0, 0); TupleColor (12, 34, 56); TupleColor (10, 11, 12)]
    /\ ColorLabels.labels m = Some ["background"; "seal"; "rule"]%string.
Proof.
  destruct (proj1 from_colors_spec hex_or_triple_color
              [ColorTriple 12 34 56; ColorText "#0a0B0c"]
              [TupleColor (12, 34, 56); TupleColor (10, 11, 12)] ["seal"; "rule"]%string)
    as (m & Hm & _ & Hc & Hl).
  - repeat constructor.
  - done.
  - done.
  - by exists m.
Defined.

(* ------------------------------------------------------------------ *)
(** ** The constructor from a list of records *)

Section FromList.

Import ColorLabels.

Context (parse_and_validate_color : color_spec -> option color_row).
Context (astype_float32 : scalar -> option number).

(** The parser raises a [ValueError] or returns as many values as
    its argument has elements. *)
Lemma parse_validate_one_hot_cases raw :
  is_value_error (parse_validate_one_hot astype_float32 raw)
  \/ exists a xs, parse_validate_one_hot astype_float32 raw = Ok a
                  /\ elements raw = Some xs /\ length a = length xs.
Proof.
  unfold parse_validate_one_hot.
  destruct (elements raw) as [xs |]; [| left; by eexists].
  destruct (coerce_cases astype_float32 xs)
    as [(arr & -> & Harr) | (-> & _)]; [| left; by eexists].
  rewrite bind_ret. apply Forall2_length in Harr.
  destruct (is_int_array arr).
  - destruct (0 <? _)%nat; [left; by eexists |].
    right. eexists _, xs. split_and!; [done .. |].
    by rewrite !length_fmap.
  - destruct (existsb _ arr); [left; by eexists |].
    right. by eexists _, xs.
Qed.

Lemma one_hot_step_spec r st done :
  one_hot_inv st done ->
  is_value_error (one_hot_step astype_float32 r st)
  \/ exists st', one_hot_step astype_float32 r st = Ok st'
                 /\ one_hot_inv st' (done ++ [r])
                 /\ ls_colors st' = ls_colors st
                 /\ ls_labels st' = ls_labels st
                 /\ has_labels st' = has_labels st.
Proof.
  destruct st as [cs oh ls ho hl sz]. unfold one_hot_inv, one_hot_step.
  cbn [has_one_hot ls_one_hot_encoding one_hot_size ls_colors ls_labels has_labels].
  intros Hinv. destruct (cl_one_hot r) as [raw |] eqn:Hraw.
  - destruct (parse_validate_one_hot_cases raw)
      as [[why Hwhy] | (a & xs & Ha & Hxs & Hlen)].
    { left. exists why. by rewrite Hwhy. }
    rewrite Ha, bind_ret.
    assert (Hr : one_hot_length r = Some (length a)).
    { unfold one_hot_length. rewrite Hraw. simpl. by rewrite Hxs, Hlen. }
    destruct ho as [[|] |].
    + destruct Hinv as (rows & n & -> & Hrows & Hne & -> & Hall).
      cbn [has_one_hot ls_one_hot_encoding one_hot_size default negb from_option id].
      destruct (Nat.eqb_spec n (length a)) as [-> | Hn];
        [| left; by eexists].
      right. eexists. split; [done |]. split; [| done].
      cbn [has_one_hot ls_one_hot_encoding one_hot_size].
      exists (rows ++ [a]), (length a). split_and!; try done.
      * rewrite !length_app. simpl. lia.
      * by destruct done.
      * intros r' [Hr' | ->%list_elem_of_singleton]%elem_of_app; auto.
    + left. by eexists.
    + destruct Hinv as (-> & -> & ->).
      cbn [has_one_hot ls_one_hot_encoding one_hot_size default negb from_option id].
      rewrite Nat.eqb_refl. right. eexists. split; [done |]. split; [| done].
      cbn [has_one_hot ls_one_hot_encoding one_hot_size].
      exists [a], (length a). split_and!; try done.
      intros r' ->%list_elem_of_singleton. done.
  - right. eexists. split; [done |]. split; [| done].
    cbn [has_one_hot ls_one_hot_encoding one_hot_size].
    destruct ho as [[|] |].
    + destruct Hinv as (rows & n & -> & Hrows & Hne & _ & _).
      right. exists rows. split_and!; [done | |].
      * destruct rows; [| done]. by destruct done.
      * rewrite length_app. simpl. lia.
    + destruct Hinv as [[-> Hall] | (rows & -> & Hne & Hlt)].
      * left. split; [done |].
        intros r' [Hr' | ->%list_elem_of_singleton]%elem_of_app; auto.
      * right. exists rows. split_and!; [done .. |].
        rewrite length_app. simpl. lia.
    + destruct Hinv as (-> & -> & _). left. split; [done |].
      intros r' ->%list_elem_of_singleton. done.
Qed.

Lemma names_of_app done r :
  names_of (done ++ [r])
  = names_of done ++ match cl_label r with Some name => [name] | None => [] end.
Proof. unfold names_of. rewrite omap_app. simpl. by destruct (cl_label r). Qed.

Lemma label_step_spec labels0 r st done :
  label_inv labels0 st done ->
  is_value_error (label_step r st)
  \/ exists st', label_step r st = Ok st'
                 /\ label_inv labels0 st' (done ++ [r])
                 /\ ls_colors st' = ls_colors st
                 /\ ls_one_hot_encoding st' = ls_one_hot_encoding st
                 /\ has_one_hot st' = has_one_hot st
                 /\ one_hot_size st' = one_hot_size st.
Proof.
  destruct st as [cs oh ls ho hl sz]. unfold label_inv, label_step.
  cbn [has_one_hot ls_one_hot_encoding one_hot_size ls_colors ls_labels has_labels].
  intros Hinv. rewrite names_of_app.
  destruct (cl_label r) as [name |].
  - destruct hl as [[|] |].
    + destruct Hinv as (Hne & ->).
      cbn [has_labels ls_labels default negb from_option id].
      right. eexists. split; [done |]. split; [| done].
      cbn [has_labels ls_labels]. split; [| done].
      by destruct (names_of done).
    + left. by eexists.
    + destruct Hinv as (-> & ->).
      cbn [has_labels ls_labels default negb from_option id].
      right. eexists. split; [done |]. split; [| done].
      cbn [has_labels ls_labels]. done.
  - right. eexists. split; [done |]. split; [| done].
    cbn [has_labels ls_labels]. rewrite app_nil_r.
    destruct hl as [[|] |].
    + right. done.
    + done.
    + destruct Hinv as (-> & ->). by left.
Qed.

Lemma list_step_spec labels0 r st done :
  one_hot_inv st done -> label_inv labels0 st done ->
  length (ls_colors st) = length done ->
  is_value_error (list_step parse_and_validate_color astype_float32 st r)
  \/ exists st',
      list_step parse_and_validate_color astype_float32 st r = Ok st'
      /\ one_hot_inv st' (done ++ [r]) /\ label_inv labels0 st' (done ++ [r])
      /\ length (ls_colors st') = length (done ++ [r]).
Proof.
  intros Hoh Hlb Hlen. unfold list_step.
  destruct (cl_color r) as [spec |]; [| left; by eexists].
  unfold parse_color.
  destruct (parse_and_validate_color spec) as [c |]; [| left; by eexists].
  rewrite bind_ret.
  set (st0 := {| ls_colors := ls_colors st ++ [c] |}).
  destruct (one_hot_step_spec r st0 done)
    as [[why Hwhy] | (st1 & Hst1 & Hoh1 & Hc1 & Hl1 & Hh1)].
  { by destruct st. }
  { left. exists why. by rewrite Hwhy. }
  rewrite Hst1, bind_ret.
  destruct (label_step_spec labels0 r st1 done)
    as [[why Hwhy] | (st2 & Hst2 & Hlb2 & Hc2 & Ho2 & Hh2 & Hs2)].
  { unfold label_inv in *. rewrite Hh1, Hl1. by destruct st. }
  { left. exists why. by rewrite Hwhy. }
  right. exists st2. split_and!; [done | | done |].
  - unfold one_hot_inv in *. by rewrite Hh2, Ho2, Hs2.
  - rewrite Hc2, Hc1. unfold st0. cbn [ls_colors].
    rewrite !length_app. simpl. lia.
Qed.

Lemma list_loop_spec labels0 records :
  forall st done,
    one_hot_inv st done -> label_inv labels0 st done ->
    length (ls_colors st) = length done ->
    is_value_error (list_loop parse_and_validate_color astype_float32 records st)
    \/ exists st',
        list_loop parse_and_validate_color astype_float32 records st = Ok st'
        /\ one_hot_inv st' (done ++ records)
        /\ label_inv labels0 st' (done ++ records)
        /\ length (ls_colors st') = length (done ++ records).
Proof.
  induction records as [| r records IH]; intros st done Hoh Hlb Hlen.
  - right. exists st. by rewrite app_nil_r.
  - cbn [list_loop].
    destruct (list_step_spec labels0 r st done Hoh Hlb Hlen)
      as [[why Hwhy] | (st1 & Hst1 & Hoh1 & Hlb1 & Hlen1)].
    { left. exists why. by rewrite Hwhy. }
    rewrite Hst1, bind_ret.
    destruct (IH st1 (done ++ [r]) Hoh1 Hlb1 Hlen1)
      as [? | (st2 & Hst2 & Hoh2 & Hlb2 & Hlen2)]; [by left |].
    right. exists st2. by rewrite <- app_assoc in *.
Qed.

(** The loop from its first state. *)
Lemma list_loop_initial labels0 records :
  is_value_error
    (list_loop parse_and_validate_color astype_float32 records
       (initial_state labels0))
  \/ exists st',
      list_loop parse_and_validate_color astype_float32 records
        (initial_state labels0) = Ok st'
      /\ one_hot_inv st' records /\ label_inv labels0 st' records
      /\ length (ls_colors st') = length records.
Proof. by apply (list_loop_spec labels0 records (initial_state labels0) []). Qed.

End FromList.

Section FromListLabels.

Import ColorLabels.

Context (parse_and_validate_color : color_spec -> option color_row).
Context (astype_float32 : scalar -> option number).

Local Abbreviation step := (list_step parse_and_validate_color astype_float32).
Local Abbreviation loop := (list_loop parse_and_validate_color astype_float32).

(** As long as no name was collected, the value of the variable
    [labels] does not influence a turn of the loop: it is carried
    along by a record without a name and overwritten by a record
    with one. *)
Lemma list_step_with_labels l r st :
  has_labels st <> Some true ->
  match step st r with
  | Ok st' =>
      match cl_label r with
      | None => step (with_labels l st) r = Ok (with_labels l st')
                /\ has_labels st' <> Some true
      | Some _ => step (with_labels l st) r = Ok st'
      end
  | Raise e => step (with_labels l st) r = Raise e
  end.
Proof.
  intros Hh. destruct st as [cs oh ls ho hl sz]. simpl in Hh.
  unfold list_step, parse_color, with_labels. simpl.
  destruct (cl_color r) as [spec |]; [| done].
  destruct (parse_and_validate_color spec) as [c |]; [| done]. simpl.
  unfold one_hot_step, label_step. simpl.
  destruct (cl_one_hot r) as [raw |]; simpl.
  - destruct (parse_validate_one_hot astype_float32 raw) as [a | e]; [| done].
    simpl. destruct ho as [[|] |]; simpl; try done.
    + destruct (negb _); [done |]. destruct oh as [rows |]; [| done]. simpl.
      destruct (cl_label r), hl as [[|] |]; simpl; done.
    + destruct (negb _); [done |]. simpl.
      destruct (cl_label r), hl as [[|] |]; simpl; done.
  - destruct (cl_label r), hl as [[|] |]; simpl; done.
Qed.

Lemma list_loop_with_labels l records :
  forall st,
    has_labels st <> Some true ->
    (exists r, r ∈ records /\ cl_label r <> None) ->
    loop records (with_labels l st) = loop records st.
Proof.
  induction records as [| r records IH]; intros st Hh (r0 & Hr0 & Hname).
  - by apply elem_of_nil in Hr0.
  - cbn [list_loop].
    pose proof (list_step_with_labels l r st Hh) as Hstep.
    destruct (step st r) as [st' | e]; [| by rewrite Hstep].
    destruct (cl_label r) as [name |] eqn:Hr.
    + by rewrite Hstep.
    + destruct Hstep as [-> Hh']. rewrite !bind_ret. apply IH; [done |].
      exists r0. split; [| done].
      apply elem_of_cons in Hr0 as [-> | ?]; [congruence | done].
Qed.

End FromListLabels.

(** C2. For every list of records: if some record has a one-hot vector
    and some record has none, in either order, or if two records have
    one-hot vectors of different lengths, [from_list_of_color_labels]
    raises a [ValueError]. *)
Theorem from_list_inconsistent_one_hot
    (parse_and_validate_color : color_spec -> option color_row)
    (astype_float32 : scalar -> option number)
    (records : list color_label) (labels : option (list string)) :
  (exists r1 r2, r1 ∈ records /\ r2 ∈ records
                 /\ cl_one_hot r1 <> None /\ cl_one_hot r2 = None)
  \/ (exists r1 r2 oh1 oh2,
         r1 ∈ records /\ r2 ∈ records
         /\ cl_one_hot r1 = Some oh1 /\ cl_one_hot r2 = Some oh2
         /\ length <$> elements oh1 <> length <$> elements oh2) ->
  is_value_error
    (ColorLabels.from_list_of_color_labels parse_and_validate_color
       astype_float32 records labels).
Proof.
  intros Hbad. unfold ColorLabels.from_list_of_color_labels.
  destruct (list_loop_initial parse_and_validate_color astype_float32
              labels records)
    as [[why Hwhy] | (st & Hst & Hoh & _ & Hlen)].
  { exists why. unfold initial_state in Hwhy. by rewrite Hwhy. }
  unfold initial_state in Hst. rewrite Hst, bind_ret. clear Hst.
  unfold one_hot_inv in Hoh.
  destruct (ColorLabels.has_one_hot st) as [[|] |].
  - (* every record has a one-hot vector of one length *)
    destruct Hoh as (rows & n & _ & _ & _ & _ & Hall). exfalso.
    destruct Hbad as [(r1 & r2 & _ & H2 & _ & Hnone)
                     | (r1 & r2 & oh1 & oh2 & H1 & H2 & Ho1 & Ho2 & Hne)].
    + apply Hall in H2. unfold one_hot_length in H2. by rewrite Hnone in H2.
    + apply Hall in H1, H2. unfold one_hot_length in H1, H2.
      rewrite Ho1 in H1. rewrite Ho2 in H2. simpl in H1, H2. congruence.
  - destruct Hoh as [[_ Hall] | (rows & -> & Hne & Hlt)].
    + (* no record has a one-hot vector *)
      exfalso.
      destruct Hbad as [(r1 & r2 & H1 & _ & Hsome & _)
                       | (r1 & r2 & oh1 & oh2 & H1 & _ & Ho1 & _)];
        apply Hall in H1; congruence.
    + (* fewer one-hot rows than colours *)
      destruct rows as [| row rows]; [done |].
      rewrite init_row_count_raises by lia. by eexists.
  - destruct Hoh as (-> & _). exfalso.
    destruct Hbad as [(r1 & _ & H1 & _) | (r1 & _ & _ & _ & H1 & _)];
      by apply elem_of_nil in H1.
Qed.

Lemma from_list_inconsistent_one_hot_witness :
  is_value_error
    (ColorLabels.from_list_of_color_labels hex_or_triple_color example_float32
       [ {| cl_color := Some (ColorText "#FF0000");
            cl_one_hot := Some (OneHotText "01");
            cl_label := None |};
         {| cl_color := Some (ColorText "#00FF00");
            cl_one_hot := None;
            cl_label := None |} ]
       None).
Proof.
  apply from_list_inconsistent_one_hot. left.
  eexists _, _. split_and!.
  - apply elem_of_cons. by left.
  - apply elem_of_cons. right. apply elem_of_cons. by left.
  - done.
  - done.
Defined.

(** C10. In [from_list_of_color_labels], when at least one record has a
    "label" key the [labels] argument has no influence on the outcome,
    and the labels of a mapping that is built are the names collected
    from the records; when no record has a "label" key the labels of
    the mapping are the [labels] argument. *)
Theorem from_list_labels_source
    (parse_and_validate_color : color_spec -> option color_row)
    (astype_float32 : scalar -> option number)
    (records : list color_label) (labels : option (list string)) :
  ((exists r, r ∈ records /\ cl_label r <> None) ->
     (forall labels',
         ColorLabels.from_list_of_color_labels parse_and_validate_color
           astype_float32 records labels'
         = ColorLabels.from_list_of_color_labels parse_and_validate_color
             astype_float32 records labels)
     /\ (forall m,
           ColorLabels.from_list_of_color_labels parse_and_validate_color
             astype_float32 records labels = Ok m ->
           ColorLabels.labels m = Some (names_of records)))
  /\ ((forall r, r ∈ records -> cl_label r = None) ->
      forall m,
        ColorLabels.from_list_of_color_labels parse_and_validate_color
          astype_float32 records labels = Ok m ->
        ColorLabels.labels m = labels).
Proof.
  assert (Hsource : forall m,
    ColorLabels.from_list_of_color_labels parse_and_validate_color
      astype_float32 records labels = Ok m ->
    (names_of records <> [] -> ColorLabels.labels m = Some (names_of records))
    /\ (names_of records = [] -> ColorLabels.labels m = labels)).
  { intros m Hm. unfold ColorLabels.from_list_of_color_labels in Hm.
    destruct (list_loop_initial parse_and_validate_color astype_float32
                labels records)
      as [[why Hwhy] | (st & Hst & _ & Hlb & _)];
      unfold initial_state in *.
    { by rewrite Hwhy in Hm. }
    rewrite Hst, bind_ret in Hm.
    destruct (init_fields _ _ _ _ Hm) as (_ & _ & ->).
    unfold label_inv in Hlb.
    destruct (ColorLabels.has_labels st) as [[|] |].
    - destruct Hlb as [Hne ->]. by split.
    - destruct Hlb as [[Hnil ->] | [Hne ->]]; by split.
    - destruct Hlb as [-> ->]. by split. }
  split.
  - intros (r & Hr & Hname).
    assert (Hnames : names_of records <> []).
    { unfold names_of. intros Hnil.
      destruct (cl_label r) as [name |] eqn:Hl; [| done].
      assert (Hin : name ∈ omap cl_label records)
        by (apply list_elem_of_omap; by exists r).
      rewrite Hnil in Hin. by apply elem_of_nil in Hin. }
    split.
    + intros labels'. unfold ColorLabels.from_list_of_color_labels.
      change {| ColorLabels.ls_colors := []; ColorLabels.ls_labels := labels' |}
        with (with_labels labels' (initial_state None)).
      change {| ColorLabels.ls_colors := []; ColorLabels.ls_labels := labels |}
        with (with_labels labels (initial_state None)).
      rewrite !list_loop_with_labels; try done; by exists r.
    + intros m Hm. by apply (Hsource m Hm).
  - intros Hnone m Hm. apply (Hsource m Hm).
    unfold names_of. clear -Hnone.
    induction records as [| r0 rest IH]; [done |].
    simpl. rewrite (Hnone r0) by (by left). apply IH.
    intros r Hr. apply Hnone. by right.
Qed.

Lemma from_list_labels_source_witness :
  exists m,
    ColorLabels.from_list_of_color_labels hex_or_triple_color example_float32
      [ {| cl_color := Some (ColorText "#000000");
           cl_one_hot := Some (OneHotText "0");
           cl_label := Some "ink"%string |};
        {| cl_color := Some (ColorText "#FF0000");
           cl_one_hot := Some (OneHotText "1");
           cl_label := None |} ]
      (Some ["first"; "second"]%string) = Ok m
    /\ ColorLabels.labels m = Some ["ink"%string].
Proof.
  pose (records :=
    [ {| cl_color := Some (ColorText "#000000");
         cl_one_hot := Some (OneHotText "0");
         cl_label := Some "ink"%string |};
      {| cl_color := Some (ColorText "#FF0000");
         cl_one_hot := Some (OneHotText "1");
         cl_label := None |} ]).
  destruct (from_list_labels_source hex_or_triple_color example_float32
              records (Some ["first"; "second"]%string)) as [Hsome _].
  destruct Hsome as [_ Hnames].
  - eexists. split; [apply elem_of_cons; by left | done].
  - eexists. split; [by vm_compute |]. apply Hnames. by vm_compute.
Defined.

(* ================================================================== *)
(** * Further properties *)

(* ------------------------------------------------------------------ *)
(** ** The one-hot generator: every combination, once *)

Section OneHotComplete.

Lemma np_arange_S n : np_arange (S n) = 0 :: (Z.succ <$> np_arange n).
Proof.
  unfold np_arange. simpl. f_equal.
  rewrite <- fmap_S_seq, <- !list_fmap_compose.
  apply list_fmap_ext. intros _ j _. simpl. lia.
Qed.

Lemma bits_row_S n i :
  bits_row (S n) i = Z.b2z (Z.testbit i 0) :: bits_row n (i / 2).
Proof.
  unfold bits_row. rewrite np_arange_S, fmap_cons. f_equal.
  rewrite <- list_fmap_compose. apply list_fmap_ext. intros k j Hj. simpl.
  apply list_elem_of_lookup_2, np_arange_elem in Hj as (? & -> & _).
  by rewrite Z.div2_bits by lia.
Qed.

Lemma decode_bits_row n i : decode_bits (bits_row n i) = i mod 2 ^ Z.of_nat n.
Proof.
  revert i. induction n as [| n IH]; intros i.
  - simpl. by rewrite Z.mod_1_r.
  - rewrite bits_row_S. cbn [decode_bits foldr]. fold (decode_bits (bits_row n (i / 2))).
    rewrite IH, Nat2Z.inj_succ, Z.pow_succ_r by lia.
    rewrite Z.rem_mul_r by lia. by rewrite Z.bit0_mod.
Qed.

Lemma decode_bits_bound row :
  Forall (fun x => x = 0 \/ x = 1) row ->
  0 <= decode_bits row < 2 ^ Z.of_nat (length row).
Proof.
  induction 1 as [| b row Hb _ IH].
  - simpl. lia.
  - cbn [decode_bits foldr length]. fold (decode_bits row).
    rewrite Nat2Z.inj_succ, Z.pow_succ_r by lia. lia.
Qed.

Lemma bits_row_decode row :
  Forall (fun x => x = 0 \/ x = 1) row ->
  bits_row (length row) (decode_bits row) = row.
Proof.
  induction 1 as [| b row Hb _ IH]; [done |].
  cbn [length decode_bits foldr]. fold (decode_bits row).
  rewrite bits_row_S.
  replace (b + 2 * decode_bits row) with (b + decode_bits row * 2) by lia.
  f_equal.
  - rewrite Z.bit0_mod, Z.mod_add by lia.
    destruct Hb as [-> | ->]; done.
  - rewrite Z.div_add by lia.
    replace (b / 2) with 0; [exact IH |].
    destruct Hb as [-> | ->]; done.
Qed.

End OneHotComplete.

(** X1. The rows of [get_all_one_hots n] are all the binary vectors of
    length [n], each at the position that it spells: row [i] read as a
    binary number (least significant bit first) is [i], and a vector
    [row] of zeros and ones is the row at position [decode_bits row]. *)
Theorem get_all_one_hots_complete (n : nat) :
  (forall (i : nat) row,
      get_all_one_hots n !! i = Some row -> decode_bits row = Z.of_nat i)
  /\ (forall row,
        length row = n -> Forall (fun x => x = 0 \/ x = 1) row ->
        get_all_one_hots n !! Z.to_nat (decode_bits row) = Some row).
Proof.
  rewrite get_all_one_hots_rows. split.
  - intros i row Hrow.
    assert (Hi : (i < 2 ^ n)%nat).
    { apply lookup_lt_Some in Hrow.
      by rewrite length_fmap, np_arange_length in Hrow. }
    rewrite list_lookup_fmap, np_arange_lookup in Hrow by done.
    injection Hrow as <-. rewrite decode_bits_row.
    apply Z.mod_small. rewrite <- pow2_nat_Z. lia.
  - intros row Hlen Hbits.
    pose proof (decode_bits_bound row Hbits) as Hb. rewrite Hlen in Hb.
    rewrite list_lookup_fmap, np_arange_lookup.
    + simpl. rewrite Z2Nat.id by lia. f_equal. rewrite <- Hlen.
      by apply bits_row_decode.
    + apply Nat2Z.inj_lt. rewrite pow2_nat_Z, Z2Nat.id; lia.
Qed.

Lemma get_all_one_hots_complete_witness :
  get_all_one_hots 3 !! 6%nat = Some [0; 1; 1].
Proof.
  apply (proj2 (get_all_one_hots_complete 3) [0; 1; 1]); [done |].
  repeat (apply Forall_cons_2 || apply Forall_nil_2); auto.
Defined.

(* ------------------------------------------------------------------ *)
(** ** The mixer keeps colours within the range of the base colours *)

Section MixerRange.

Lemma round_half_even_within s k lo hi :
  0 < k -> k * lo <= s <= k * hi -> lo <= round_half_even s k <= hi.
Proof.
  intros Hk Hs. unfold round_half_even.
  pose proof (Z.div_mod s k ltac:(lia)) as Hdm.
  pose proof (Z.mod_pos_bound s k Hk) as Hr.
  assert (lo <= s / k) by (apply Z.div_le_lower_bound; lia).
  assert (s / k <= hi) by (apply Z.div_le_upper_bound; lia).
  assert (0 < s mod k -> s / k < hi) by nia.
  destruct (Z.ltb_spec (2 * (s mod k)) k);
    [| destruct (Z.ltb_spec k (2 * (s mod k))); [| destruct (Z.even (s / k))]];
    lia.
Qed.

Lemma np_sum_within (f : color -> Z) rows lo hi :
  Forall (fun c => lo <= f c <= hi) rows ->
  Z.of_nat (length rows) * lo <= np_sum (f <$> rows)
                               <= Z.of_nat (length rows) * hi.
Proof.
  induction 1 as [| c rows Hc _ IH]; [simpl; lia |].
  rewrite fmap_cons. cbn [np_sum foldr length]. fold (np_sum (f <$> rows)).
  lia.
Qed.

Lemma mean_color_within rows lo hi :
  rows <> [] -> Forall (channels_within lo hi) rows ->
  channels_within lo hi (mean_color rows).
Proof.
  intros Hne Hall.
  assert (0 < Z.of_nat (length rows)) by (destruct rows; [done | simpl; lia]).
  unfold channels_within, mean_color, red at 1, green at 1, blue at 1. simpl.
  (split; [| split]); apply round_half_even_within; try done;
    apply np_sum_within; (eapply Forall_impl; [exact Hall |]);
    by intros c (? & ? & ?).
Qed.

Lemma chosen_Forall (P : color -> Prop) colors row :
  Forall P colors -> Forall P (chosen colors row).
Proof.
  intros H. revert row. induction H as [| c cs Hc _ IH]; intros [| x row];
    simpl; try done.
  destruct (decide (x = 0)); [done | by constructor].
Qed.

End MixerRange.

(** X2. The mixer stays within the range of its input: when every
    channel of every base colour lies between [lo] and [hi], and black
    does too, every channel of every colour that
    [all_one_hot_and_colors] returns lies between [lo] and [hi].  So
    base colours in 0..255 give colours in 0..255. *)
Theorem all_one_hot_and_colors_within (colors : list color) (lo hi : Z) :
  lo <= 0 <= hi ->
  Forall (channels_within lo hi) colors ->
  Forall (channels_within lo hi) (all_one_hot_and_colors colors).2.
Proof.
  intros Hzero Hall. simpl. rewrite get_all_one_hots_rows.
  apply Forall_fmap, Forall_fmap, Forall_forall. intros i _. simpl.
  destruct (decide (bits_row (length colors) i = replicate (length colors) 0))
    as [-> | Hnz].
  - rewrite mix_color_zeros. unfold channels_within, red, green, blue. simpl. lia.
  - destruct (mix_color_mean colors (bits_row (length colors) i))
      as [Hne ->]; [apply bits_row_length | apply bits_row_entries | done |].
    apply mean_color_within; [done |]. by apply chosen_Forall.
Qed.

Lemma all_one_hot_and_colors_within_witness :
  Forall (channels_within 0 255)
    (all_one_hot_and_colors [(255, 0, 0); (0, 0, 255); (10, 200, 30)]).2.
Proof.
  apply all_one_hot_and_colors_within; [lia |].
  repeat (apply Forall_cons_2 || apply Forall_nil_2);
    unfold channels_within, red, green, blue; simpl; lia.
Defined.

(* ------------------------------------------------------------------ *)
(** ** The constructor: when it succeeds, how it fails, what it derives *)

Section ConstructorMore.

Import ColorLabels.

Lemma np_where_from_elem j0 mask i :
  i ∈ np_where_from j0 mask
  <-> exists k, i = (j0 + k)%nat /\ mask !! k = Some true.
Proof.
  revert j0. induction mask as [| b rest IH]; intros j0; simpl.
  - split; [by intros ?%elem_of_nil | by intros (? & _ & ?)].
  - assert (Hrest : i ∈ np_where_from (S j0) rest
               <-> exists k, i = (j0 + S k)%nat /\ rest !! k = Some true).
    { rewrite IH. split; intros (k & -> & Hk); exists k; split; [lia | done | lia | done]. }
    destruct b.
    + rewrite elem_of_cons, Hrest. split.
      * intros [-> | (k & -> & Hk)]; [exists 0%nat | exists (S k)];
          (split; [lia | done]).
      * intros ([| k] & -> & Hk); [left; lia | right; by exists k].
    + rewrite Hrest. split.
      * intros (k & -> & Hk). by exists (S k).
      * intros ([| k] & -> & Hk); [done | by exists k].
Qed.

(** The positions of the columns whose sum is zero. *)
Lemma empty_column_elem (sums : list number) i :
  i ∈ np_where ((fun x => bool_decide (x = of_int 0)) <$> sums)
  <-> sums !! i = Some (of_int 0).
Proof.
  unfold np_where. rewrite np_where_from_elem. split.
  - intros (k & -> & Hk). simpl. rewrite list_lookup_fmap in Hk.
    destruct (sums !! k) as [q |]; [| done]. simpl in Hk.
    injection Hk as Hk. by apply bool_decide_eq_true in Hk as ->.
  - intros Hi. exists i. split; [done |].
    rewrite list_lookup_fmap, Hi. cbn [fmap option_fmap option_map].
    f_equal; by apply bool_decide_eq_true_2.
Qed.


Lemma for_each_getitem_Ok {A} (xs : list A) idxs :
  (forall i, i ∈ idxs -> (i < length xs)%nat) ->
  exists ys, for_each (getitem xs) idxs = Ok ys.
Proof.
  intros Hall. destruct (for_each_Ok (getitem xs) idxs) as (ys & -> & _);
    [| by eexists].
  apply Forall_forall. intros i Hi. unfold getitem.
  destruct (lookup_lt_is_Some_2 xs i (Hall i Hi)) as [x ->]. by eexists.
Qed.

Lemma for_each_fmap_Ok {A B} (f : A -> result B) (g : A -> B) xs :
  (forall x, x ∈ xs -> f x = Ok (g x)) -> for_each f xs = Ok (g <$> xs).
Proof.
  induction xs as [| x xs IH]; intros Hall; [done |].
  cbn [for_each]. rewrite (Hall x) by (by left). cbn [bind].
  rewrite IH; [done |]. intros y Hy. apply Hall. by right.
Qed.

Lemma mask_select_selected {A} (xs : list A) row :
  length xs = length row ->
  mask_select xs ((fun x => bool_decide (x <> of_int 0)) <$> row)
  = Ok (selected xs row).
Proof.
  intros Hlen. unfold mask_select. rewrite length_fmap, Hlen, Nat.eqb_refl.
  f_equal. revert row Hlen.
  induction xs as [| x xs IH]; intros [| q row] Hlen; try done.
  injection Hlen as Hlen.
  cbn [fmap list_fmap zip zip_with selected]. rewrite filter_cons.
  cbn [snd].
  destruct (decide (q = of_int 0)) as [-> | Hq].
  - rewrite bool_decide_eq_false_2 by (by intros ?).
    rewrite decide_False by done. by apply IH.
  - rewrite bool_decide_eq_true_2 by done.
    rewrite decide_True by done. simpl. f_equal. by apply IH.
Qed.

Lemma multilabel_names_eq r rs names :
  Forall (fun r' => length r' = length r) rs ->
  length names = length r ->
  multilabel_names (r :: rs) names
  = Ok ("background"%string :: (row_name names <$> rs)).
Proof.
  intros Hrows Hnames. unfold multilabel_names.
  rewrite (np_array_homogeneous r rs Hrows), bind_ret.
  rewrite (for_each_fmap_Ok _ (row_name names)); [done |].
  intros line Hline.
  rewrite mask_select_selected; [done |].
  apply elem_of_cons in Hline as [-> | Hline]; [done |].
  rewrite Forall_forall in Hrows. by rewrite (Hrows line Hline).
Qed.

End ConstructorMore.

(** X3. The constructor returns a mapping exactly when its arguments
    meet the invariants of the data model: non-empty one-hot rows are
    as many as the colours and have one length, and a non-empty label
    list has one label per class. *)
Theorem init_succeeds_iff (cs : list color_row) (oh : option (list (list number)))
    (ls : option (list string)) :
  (exists m, ColorLabels.__init__ cs oh ls = Ok m)
  <-> (forall r rs, oh = Some (r :: rs) ->
         length cs = length (r :: rs)
         /\ Forall (fun r' => length r' = length r) rs)
      /\ (forall names, ls = Some names -> names <> [] ->
            length names = classes_of cs oh).
Proof.
  split.
  - intros [m Hm]. destruct oh as [[| r rs] |].
    + split; [done |]. by apply (init_plain_valid _ _ _ _ Hm).
    + destruct (init_rows_valid _ _ _ _ _ Hm) as (Hlen & Hrows & Hls).
      split; [by intros ? ? [= <- <-] | done].
    + split; [done |]. by apply (init_plain_valid _ _ _ _ Hm).
  - intros [Hoh Hls]. destruct oh as [[| r rs] |].
    + by apply init_plain_Ok.
    + destruct (Hoh r rs eq_refl) as [Hlen Hrows]. by apply init_rows_Ok.
    + by apply init_plain_Ok.
Qed.

(** X4. The display names of a constructed mapping.  Without non-empty
    labels there are none.  With labels and without one-hot rows they
    are the labels.  With labels and one-hot rows they are "background"
    for row 0, whatever that row holds, and for every other row the
    names of the classes whose entry is not zero, joined by "+"; in
    both cases there is one name per colour. *)
Theorem init_log_labels (cs : list color_row) (oh : option (list (list number)))
    (ls : option (list string)) (m : ColorLabels.t) :
  ColorLabels.__init__ cs oh ls = Ok m ->
  match ls with
  | Some ((_ :: _) as names) =>
      exists shown,
        ColorLabels.log_labels m = Some shown
        /\ length shown = length cs
        /\ shown = match oh with
                   | Some (_ :: rs) => "background"%string :: (row_name names <$> rs)
                   | _ => names
                   end
  | _ => ColorLabels.log_labels m = None
  end.
Proof.
  intros Hm. destruct ls as [[| name names] |].
  - unfold ColorLabels.__init__ in Hm.
    apply bind_Ok in Hm as (_ & _ & [= <-]). done.
  - destruct oh as [[| r rs] |].
    + pose proof (init_plain_valid _ _ _ _ Hm eq_refl _ eq_refl ltac:(done)) as Hl.
      unfold ColorLabels.__init__, ColorLabels.num_classes,
        ColorLabels.assert_same_length in Hm.
      cbn [ColorLabels.one_hot_encoding ColorLabels.colors] in Hm.
      rewrite bind_ret, <- Hl, !Nat.eqb_refl in Hm. injection Hm as <-.
      by eexists.
    + destruct (init_rows_valid _ _ _ _ _ Hm) as (Hlen & Hrows & Hls).
      specialize (Hls _ eq_refl ltac:(done)).
      unfold ColorLabels.__init__ in Hm.
      apply bind_Ok in Hm as (_ & _ & Hm).
      unfold ColorLabels.num_classes, ColorLabels.assert_same_length in Hm.
      cbn [ColorLabels.one_hot_encoding] in Hm.
      rewrite Hls, Nat.eqb_refl in Hm. cbn [negb] in Hm.
      rewrite (multilabel_names_eq r rs (name :: names) Hrows Hls), bind_ret in Hm.
      destruct (_ =? _)%nat eqn:Hsame; [| done].
      apply Nat.eqb_eq in Hsame. injection Hm as <-. eexists. by split_and!.
    + pose proof (init_plain_valid _ _ _ _ Hm eq_refl _ eq_refl ltac:(done)) as Hl.
      unfold ColorLabels.__init__, ColorLabels.num_classes,
        ColorLabels.assert_same_length in Hm.
      cbn [ColorLabels.one_hot_encoding ColorLabels.colors] in Hm.
      rewrite bind_ret, <- Hl, !Nat.eqb_refl in Hm. injection Hm as <-.
      by eexists.
  - unfold ColorLabels.__init__ in Hm.
    apply bind_Ok in Hm as (_ & _ & [= <-]). done.
Qed.

Lemma init_succeeds_iff_witness :
  exists m,
    ColorLabels.__init__ [TupleColor (0, 0, 0); TupleColor (255, 0, 0)]
      (Some [[of_int 0; of_int 0]; [of_int 1; of_int 1]])
      (Some ["ink"; "seal"]%string) = Ok m.
Proof.
  apply init_succeeds_iff. split.
  - intros r rs [= <- <-]. split; [done |].
    by repeat (apply Forall_cons_2 || apply Forall_nil_2).
  - by intros names [= <-] _.
Defined.

Lemma init_log_labels_witness :
  exists shown,
    ColorLabels.log_labels
      (ColorLabels.mk
         [TupleColor (0, 0, 0); TupleColor (255, 0, 0); TupleColor (0, 0, 255);
          TupleColor (128, 0, 128)]
         (Some [[of_int 1; of_int 0]; [of_int 1; of_int 0]; [of_int 0; of_int 1];
                [of_int 1; of_int 1]])
         (Some ["ink"; "seal"]%string)
         (Some ["background"; "ink"; "seal"; "ink+seal"]%string)) = Some shown
    /\ shown = ["background"; "ink"; "seal"; "ink+seal"]%string.
Proof.
  destruct (init_log_labels
              [TupleColor (0, 0, 0); TupleColor (255, 0, 0); TupleColor (0, 0, 255);
               TupleColor (128, 0, 128)]
              (Some [[of_int 1; of_int 0]; [of_int 1; of_int 0]; [of_int 0; of_int 1];
                     [of_int 1; of_int 1]])
              (Some ["ink"; "seal"]%string)
              (ColorLabels.mk
                 [TupleColor (0, 0, 0); TupleColor (255, 0, 0); TupleColor (0, 0, 255);
                  TupleColor (128, 0, 128)]
                 (Some [[of_int 1; of_int 0]; [of_int 1; of_int 0];
                        [of_int 0; of_int 1]; [of_int 1; of_int 1]])
                 (Some ["ink"; "seal"]%string)
                 (Some ["background"; "ink"; "seal"; "ink+seal"]%string)))
    as (shown & Hshown & _ & Heq).
  - by vm_compute.
  - exists shown. split; [exact Hshown |]. rewrite Heq. by vm_compute.
Defined.





(* ------------------------------------------------------------------ *)
(** ** Serialization: files and what a round trip keeps *)

Section JsonMore.

Import ColorLabels.

Lemma wrap32_range z : int32_range (wrap32 z).
Proof.
  unfold int32_range, wrap32.
  pose proof (Z.mod_pos_bound (z + 2 ^ 31) (2 ^ 32) ltac:(lia)). lia.
Qed.

Lemma np_int32_idem q : np_int32 (of_int (np_int32 q)) = np_int32 q.
Proof.
  unfold np_int32 at 1, of_int. rewrite Qc_trunc_of_Z.
  destruct q; [apply wrap32_id, wrap32_range | done ..].
Qed.

Lemma written_rows_idem oh : written_rows (written_rows oh) = written_rows oh.
Proof.
  destruct oh as [[| r rs] |]; try done.
  unfold written_rows. rewrite !fmap_cons. f_equal. f_equal.
  - rewrite <- list_fmap_compose. apply list_fmap_ext. intros _ q _.
    cbn [compose]. by rewrite np_int32_idem.
  - rewrite <- list_fmap_compose. apply list_fmap_ext. intros _ row _.
    cbn [compose].
    rewrite <- list_fmap_compose. apply list_fmap_ext. intros _ q _.
    cbn [compose]. by rewrite np_int32_idem.
Qed.

Lemma as_list_color_idem (cs : list color_row) :
  as_list_color <$> (as_list_color <$> cs) = as_list_color <$> cs.
Proof. rewrite <- list_fmap_compose. by apply list_fmap_ext. Qed.

Lemma for_each_encoded_map {A B C} (f : B -> result C) (g : A -> B)
    (h : A -> C) (xs : list A) :
  (forall x, f (g x) = Ok (h x)) -> for_each f (g <$> xs) = Ok (h <$> xs).
Proof. intros H. apply for_each_decoded. by apply Forall_forall. Qed.

Lemma as_rows_written rows :
  as_list (as_list as_number)
    (JArr ((fun row => JArr ((fun q => JInt (np_int32 q)) <$> row)) <$> rows))
  = Ok ((fun row : list number => (fun q => of_int (np_int32 q)) <$> row) <$> rows).
Proof.
  cbn [as_list]. apply for_each_encoded_map. intros row.
  cbn [as_list]. by apply for_each_encoded_map.
Qed.

(** Reading what [to_json] wrote is the constructor call on the colours
    as lists, the written rows and the labels. *)
Lemma json_roundtrip_general cs oh ls m path (fs : gmap string json) :
  __init__ cs oh ls = Ok m ->
  Forall (fun row => int32_color (channels row)) cs ->
  exists fs', to_json m path fs = Ok fs'
              /\ from_labels_json_file path fs'
                 = __init__ (as_list_color <$> cs) (written_rows oh) ls.
Proof.
  intros Hinit Hcs.
  destruct (init_fields _ _ _ _ Hinit) as (Hc & Ho & Hl).
  unfold to_json, from_labels_json_file. rewrite Hc, Ho, Hl.
  destruct oh as [[| row rows] |].
  - rewrite bind_ret. eexists. split; [done |]. rewrite lookup_insert_eq.
    by rewrite (call_with_written_kwargs cs None ls).
  - rewrite (init_rows_homogeneous _ _ _ _ _ Hinit), !bind_ret.
    eexists. split; [done |]. rewrite lookup_insert_eq.
    rewrite (call_with_written_kwargs cs (written_rows (Some (row :: rows))) ls);
      [done .. |].
    unfold as_optional. by rewrite as_rows_written.
  - rewrite bind_ret. eexists. split; [done |]. rewrite lookup_insert_eq.
    by rewrite (call_with_written_kwargs cs None ls).
Qed.

(** The constructor accepts the written rows whenever it accepted the
    rows. *)
Lemma init_written_rows_Ok cs oh ls m :
  __init__ cs oh ls = Ok m -> exists m', __init__ cs (written_rows oh) ls = Ok m'.
Proof.
  intros Hinit. destruct oh as [[| r rs] |].
  - apply init_plain_Ok; [done |]. by apply (init_plain_valid _ _ _ _ Hinit).
  - destruct (init_rows_valid _ _ _ _ _ Hinit) as (Hlen & Hrows & Hls).
    unfold written_rows. cbn [fmap list_fmap]. apply init_rows_Ok.
    + by rewrite length_cons, length_fmap.
    + apply Forall_fmap. eapply Forall_impl; [exact Hrows |].
      intros r' Hr'. simpl. by rewrite !length_fmap.
    + intros names Hn Hne. rewrite length_fmap. by apply Hls.
  - by exists m.
Qed.

Lemma Qc_of_Z_le z (q : Qc) : (Qc_of_Z z <= q)%Qc <-> z * Z.pos (Qden q) <= Qnum q.
Proof. unfold Qcle, Qle. simpl. lia. Qed.

Lemma Qc_le_of_Z z (q : Qc) : (q <= Qc_of_Z z)%Qc <-> Qnum q <= z * Z.pos (Qden q).
Proof. unfold Qcle, Qle. simpl. lia. Qed.

Lemma Qc_of_Z_lt z (q : Qc) : (Qc_of_Z z < q)%Qc <-> z * Z.pos (Qden q) < Qnum q.
Proof. unfold Qclt, Qlt. simpl. lia. Qed.

Lemma Qc_lt_of_Z z (q : Qc) : (q < Qc_of_Z z)%Qc <-> Qnum q < z * Z.pos (Qden q).
Proof. unfold Qclt, Qlt. simpl. lia. Qed.

Lemma Qc_nonneg (q : Qc) : (0 <= q)%Qc <-> 0 <= Qnum q.
Proof. unfold Qcle, Qle. simpl. lia. Qed.

Lemma Qc_nonpos (q : Qc) : (q <= 0)%Qc <-> Qnum q <= 0.
Proof. unfold Qcle, Qle. simpl. lia. Qed.

(** The cast keeps the integer part towards zero. *)
Lemma Qc_trunc_spec (q : Qc) :
  ((0 <= q)%Qc -> (Qc_of_Z (Qc_trunc q) <= q)%Qc /\ (q < Qc_of_Z (Qc_trunc q + 1))%Qc)
  /\ ((q <= 0)%Qc -> (Qc_of_Z (Qc_trunc q - 1) < q)%Qc /\ (q <= Qc_of_Z (Qc_trunc q))%Qc).
Proof.
  rewrite Qc_of_Z_le, Qc_lt_of_Z, Qc_of_Z_lt, Qc_le_of_Z, Qc_nonneg, Qc_nonpos.
  unfold Qc_trunc.
  assert (Hd : 0 < Z.pos (Qden q)) by lia.
  generalize dependent (Z.pos (Qden q)). generalize (Qnum q). intros n d Hd.
  pose proof (Z.quot_rem' n d) as Hqr.
  split; intros Hn.
  - pose proof (Z.rem_bound_pos n d ltac:(lia) Hd). nia.
  - pose proof (Z.rem_bound_pos_neg n d Hd Hn). nia.
Qed.

Lemma Qc_trunc_fits q :
  (Qc_of_Z (- 2 ^ 31 - 1) < q)%Qc -> (q < Qc_of_Z (2 ^ 31))%Qc ->
  int32_range (Qc_trunc q).
Proof.
  intros Hlo Hhi. destruct (Qc_trunc_spec q) as [Hpos Hneg].
  rewrite Qc_of_Z_le, Qc_lt_of_Z, Qc_nonneg in Hpos.
  rewrite Qc_of_Z_lt, Qc_le_of_Z, Qc_nonpos in Hneg.
  rewrite Qc_of_Z_lt in Hlo. rewrite Qc_lt_of_Z in Hhi.
  unfold int32_range.
  set (d := Z.pos (Qden q)) in *.
  assert (Hd : 0 < d) by (unfold d; lia). clearbody d.
  set (n := Qnum q) in *. clearbody n.
  set (z := Qc_trunc q) in *. clearbody z.
  destruct (Z.le_ge_cases 0 n) as [H0 | H0].
  - destruct (Hpos H0). nia.
  - destruct (Hneg H0). nia.
Qed.

(** What [to_json] writes for an entry that fits is its integer part. *)
Lemma written_entry_integer_part x :
  fits_int32 x -> integer_part_of x (of_int (np_int32 x)).
Proof.
  intros (q & -> & Hlo & Hhi). exists q, (Qc_trunc q). split; [done |].
  split; [| apply Qc_trunc_spec].
  unfold np_int32. by rewrite (wrap32_id _ (Qc_trunc_fits q Hlo Hhi)).
Qed.

End JsonMore.

(** X8. What a round trip through [to_json] and [from_labels_json_file]
    keeps when the one-hot entries need not be integers.  For a validly
    constructed mapping whose colour channels are 32-bit integers and
    whose one-hot entries are finite with an integer part in the 32-bit
    range, writing succeeds and reading back gives a mapping with the
    same labels, with every colour as the list of its channels, and
    with one-hot rows in which every entry is replaced by its integer
    part towards zero (no one-hot encoding when the rows were the empty
    list); a second round trip gives that mapping again. *)
Theorem json_roundtrip_truncates (cs : list color_row)
    (oh : option (list (list number))) (ls : option (list string))
    (m : ColorLabels.t) (path : string) (fs : gmap string json) :
  ColorLabels.__init__ cs oh ls = Ok m ->
  Forall (fun row => int32_color (channels row)) cs ->
  (forall rows, oh = Some rows -> Forall (Forall fits_int32) rows) ->
  exists fs' m',
    ColorLabels.to_json m path fs = Ok fs'
    /\ ColorLabels.from_labels_json_file path fs' = Ok m'
    /\ ColorLabels.colors m' = as_list_color <$> cs
    /\ ColorLabels.labels m' = ls
    /\ match oh with
       | Some ((_ :: _) as rows) =>
           exists rows', ColorLabels.one_hot_encoding m' = Some rows'
                         /\ Forall2 (Forall2 integer_part_of) rows rows'
       | _ => ColorLabels.one_hot_encoding m' = None
       end
    /\ forall path2 (fs2 : gmap string json),
        exists fs'',
          ColorLabels.to_json m' path2 fs2 = Ok fs''
          /\ ColorLabels.from_labels_json_file path2 fs'' = Ok m'.
Proof.
  intros Hinit Hcs Hfits.
  destruct (json_roundtrip_general cs oh ls m path fs Hinit Hcs)
    as (fs' & Hto & Hfrom).
  destruct (init_written_rows_Ok cs oh ls m Hinit) as (m0 & Hm0).
  pose proof (init_other_colors cs (as_list_color <$> cs) (written_rows oh) ls m0
                ltac:(by rewrite length_fmap) Hm0) as Hm'.
  eexists fs', _. split; [exact Hto |]. split; [by rewrite Hfrom |].
  cbn [ColorLabels.colors ColorLabels.one_hot_encoding ColorLabels.labels].
  split_and!; try done.
  - destruct oh as [[| r rs] |]; try done.
    eexists. split; [done |].
    apply Forall2_fmap_r, Forall_Forall2_diag.
    eapply Forall_impl; [exact (Hfits _ eq_refl) |].
    intros row Hrow. apply Forall2_fmap_r, Forall_Forall2_diag.
    eapply Forall_impl; [exact Hrow |]. apply written_entry_integer_part.
  - intros path2 fs2.
    destruct (json_roundtrip_general (as_list_color <$> cs) (written_rows oh) ls
                _ path2 fs2 Hm') as (fs'' & Hto2 & Hfrom2).
    { apply Forall_fmap. eapply Forall_impl; [exact Hcs |]. done. }
    exists fs''. split; [done |].
    by rewrite Hfrom2, written_rows_idem, as_list_color_idem.
Qed.

Lemma json_roundtrip_truncates_witness :
  exists fs' m',
    ColorLabels.to_json fractional_mapping "labels.json" ∅ = Ok fs'
    /\ ColorLabels.from_labels_json_file "labels.json" fs' = Ok m'
    /\ ColorLabels.colors m' = [ListColor (0, 0, 0); ListColor (255, 0, 0)]
    /\ exists rows', ColorLabels.one_hot_encoding m' = Some rows'
         /\ Forall2 (Forall2 integer_part_of)
              [[Finite (Q2Qc (1 # 2))]; [of_int 1]] rows'.
Proof.
  destruct (json_roundtrip_truncates [TupleColor (0, 0, 0); TupleColor (255, 0, 0)]
              (Some [[Finite (Q2Qc (1 # 2))]; [of_int 1]]) None fractional_mapping
              "labels.json" ∅) as (fs' & m' & Hto & Hfrom & Hcs & _ & Hoh & _).
  - by vm_compute.
  - repeat (apply Forall_cons_2 || apply Forall_nil_2);
      unfold int32_color, int32_range, red, green, blue; simpl; lia.
  - intros rows [= <-].
    repeat (apply Forall_cons_2 || apply Forall_nil_2);
      (eexists; split; [reflexivity |]; split; reflexivity).
  - exists fs', m'. split_and!; [exact Hto | exact Hfrom | exact Hcs | exact Hoh].
Defined.

(* ------------------------------------------------------------------ *)
(** ** Filtering: the constructor call, and how filters compose *)

Section FilteringMore.

Import ColorLabels.

(** Filtering a mapping whose colours are tuples is the constructor
    call on the kept colours, the kept rows and the labels that go with
    them. *)
Lemma from_filter_by_colors_eq (cs : list color_row)
    (oh : option (list (list number))) (ls : option (list string)) (m : t)
    (keep : gset color) :
  __init__ cs oh ls = Ok m ->
  Forall is_tuple cs ->
  from_filter_by_colors m keep
  = __init__ (filter (is_kept keep) cs) (filtered_rows keep cs oh)
      (filtered_labels keep cs oh ls).
Proof.
  intros Hinit Htup.
  destruct (init_fields _ _ _ _ Hinit) as (Hc & Ho & Hl).
  unfold from_filter_by_colors, filtered_rows, filtered_labels.
  destruct (truthy oh) eqn:Htruthy.
  - destruct oh as [[| r rs] |]; try done.
    destruct (init_rows_valid _ _ _ _ _ Hinit) as (Hlen & _ & _).
    rewrite (filter_loop_rows keep m r rs Ho)
      by (rewrite Hc; (done || simpl in *; lia)).
    rewrite bind_ret, Ho, Hl, Hc.
    cbn [new_colors new_one_hot_encoding new_labels truthy app drop].
    by rewrite appended_None.
  - assert (Htm : truthy (one_hot_encoding m) = false) by (by rewrite Ho).
    assert (Hnone : match oh with
                    | Some ((_ :: _) as rows) => some_if_any (kept keep cs rows)
                    | _ => None
                    end = None) by (by destruct oh as [[| ? ?] |]).
    rewrite Hnone.
    destruct ls as [[| name names] |].
    + rewrite (filter_loop_plain keep m Htm) by (by rewrite ?Hl, ?Hc).
      by rewrite bind_ret, Ho, Hc, Htruthy.
    + pose proof (init_plain_valid _ _ _ _ Hinit Htruthy _ eq_refl ltac:(done))
        as Hlen.
      rewrite (filter_loop_labels keep m name names Htm Hl)
        by (rewrite Hc; (done || simpl in *; lia)).
      rewrite bind_ret, Ho, Hc, Htruthy.
      cbn [new_colors new_one_hot_encoding new_labels app drop].
      by rewrite appended_None.
    + rewrite (filter_loop_plain keep m Htm) by (by rewrite ?Hl, ?Hc).
      by rewrite bind_ret, Ho, Hc, Htruthy.
Qed.

Lemma kept_nothing {A : Type} (keep : gset color) (cs : list color_row)
    (xs : list A) :
  (forall row, row ∈ cs -> ~ is_kept keep row) -> kept keep cs xs = [].
Proof.
  revert xs. induction cs as [| c cs IH]; intros [| x xs] Hnone; try done.
  simpl. rewrite decide_False by (apply Hnone; by left).
  apply IH. intros c' Hc'. apply Hnone. by right.
Qed.

Lemma filter_nothing (keep : gset color) (cs : list color_row) :
  (forall row, row ∈ cs -> ~ is_kept keep row) -> filter (is_kept keep) cs = [].
Proof. intros Hnone. rewrite <- kept_self. by apply kept_nothing. Qed.

Lemma kept_everything {A : Type} (keep : gset color) (cs : list color_row)
    (xs : list A) :
  (forall row, row ∈ cs -> is_kept keep row) -> length cs = length xs ->
  kept keep cs xs = xs.
Proof.
  revert xs. induction cs as [| c cs IH]; intros [| x xs] Hall Hlen; try done.
  simpl. rewrite decide_True by (apply Hall; by left).
  f_equal. apply IH; [| by injection Hlen].
  intros c' Hc'. apply Hall. by right.
Qed.

Lemma filter_everything (keep : gset color) (cs : list color_row) :
  (forall row, row ∈ cs -> is_kept keep row) -> filter (is_kept keep) cs = cs.
Proof. intros Hall. rewrite <- kept_self. by apply kept_everything. Qed.

Lemma is_kept_tuple (keep : gset color) (row : color_row) :
  is_kept keep row -> is_tuple row.
Proof. by destruct row. Qed.

End FilteringMore.

(** X9. Filtering away every row of a mapping that has one-hot rows and
    labels fails.  When the colours of the mapping are tuples and none
    of them is in the set, the constructor is called with no colours,
    no one-hot rows and the unchanged labels, and raises the
    [ValueError] of the label-count check (0 classes against the
    labels). *)
Theorem from_filter_by_colors_nothing_kept (cs : list color_row) (r : list number)
    (rs : list (list number)) (names : list string) (m : ColorLabels.t)
    (keep : gset color) :
  ColorLabels.__init__ cs (Some (r :: rs)) (Some names) = Ok m ->
  names <> [] ->
  Forall is_tuple cs ->
  (forall c, TupleColor c ∈ cs -> c ∉ keep) ->
  ColorLabels.from_filter_by_colors m keep
  = Raise (ValueError (ClassesLabelsCount 0 (length names))).
Proof.
  intros Hinit Hne Htup Hnone.
  assert (Hnot : forall row, row ∈ cs -> ~ is_kept keep row).
  { intros [c | c] Hrow; [by apply Hnone | by intros []]. }
  rewrite (from_filter_by_colors_eq _ _ _ _ keep Hinit Htup).
  unfold filtered_rows, filtered_labels. cbn [truthy].
  rewrite filter_nothing, kept_nothing by done. cbn [some_if_any].
  by destruct names.
Qed.

Lemma from_filter_by_colors_nothing_kept_witness :
  ColorLabels.from_filter_by_colors
    (ColorLabels.mk [TupleColor (0, 0, 0); TupleColor (255, 0, 0)]
       (Some [[of_int 0]; [of_int 1]]) (Some ["ink"%string])
       (Some ["background"; "ink"]%string)) ∅
  = Raise (ValueError (ClassesLabelsCount 0 1)).
Proof.
  apply (from_filter_by_colors_nothing_kept
           [TupleColor (0, 0, 0); TupleColor (255, 0, 0)]
           [of_int 0] [[of_int 1]] ["ink"%string]).
  - by vm_compute.
  - done.
  - repeat (apply Forall_cons_2 || apply Forall_nil_2); exact I.
  - intros c _. apply not_elem_of_empty.
Defined.

(** X10. Filtering by a set that holds every colour of the mapping
    changes nothing: for a validly constructed mapping whose
    [one_hot_encoding] and [labels] are not the empty list, the result
    is the mapping itself. *)
Theorem from_filter_by_colors_all_kept (cs : list color_row)
    (oh : option (list (list number))) (ls : option (list string))
    (m : ColorLabels.t) (keep : gset color) :
  ColorLabels.__init__ cs oh ls = Ok m ->
  oh <> Some [] -> ls <> Some [] ->
  (forall row, row ∈ cs -> exists c, row = TupleColor c /\ c ∈ keep) ->
  ColorLabels.from_filter_by_colors m keep = Ok m.
Proof.
  intros Hinit Hoh Hls Hall.
  assert (Hkept : forall row, row ∈ cs -> is_kept keep row).
  { intros row Hrow. by destruct (Hall row Hrow) as (c & -> & Hc). }
  assert (Htup : Forall is_tuple cs).
  { apply Forall_forall. intros row Hrow. by eapply is_kept_tuple, Hkept. }
  rewrite (from_filter_by_colors_eq _ _ _ _ keep Hinit Htup), <- Hinit.
  rewrite filter_everything by done.
  unfold filtered_rows, filtered_labels.
  destruct oh as [[| r rs] |]; [done | |].
  - destruct (init_rows_valid _ _ _ _ _ Hinit) as (Hlen & _ & _).
    by rewrite kept_everything.
  - destruct ls as [[| name names] |]; [done | | done].
    cbn [truthy].
    rewrite kept_everything; [done | done |].
    symmetry. by apply (init_plain_valid _ _ _ _ Hinit).
Qed.

Lemma from_filter_by_colors_all_kept_witness :
  ColorLabels.from_filter_by_colors
    (ColorLabels.mk [TupleColor (0, 0, 0); TupleColor (255, 0, 0)] None
       (Some ["paper"; "ink"]%string) (Some ["paper"; "ink"]%string))
    {[ (0, 0, 0); (255, 0, 0); (9, 9, 9) ]}
  = Ok (ColorLabels.mk [TupleColor (0, 0, 0); TupleColor (255, 0, 0)] None
          (Some ["paper"; "ink"]%string) (Some ["paper"; "ink"]%string)).
Proof.
  apply (from_filter_by_colors_all_kept
           [TupleColor (0, 0, 0); TupleColor (255, 0, 0)] None
           (Some ["paper"; "ink"]%string)).
  - by vm_compute.
  - done.
  - done.
  - intros row Hrow. rewrite !elem_of_cons, elem_of_nil in Hrow.
    destruct Hrow as [-> | [-> | []]]; eexists; (split; [reflexivity |]);
      rewrite !elem_of_union, !elem_of_singleton; tauto.
Defined.

Section FilterCompose.

Import ColorLabels.

Lemma kept_nil_r {A : Type} (keep : gset color) (cs : list color_row) :
  kept keep cs ([] : list A) = [].
Proof. by destruct cs. Qed.

Lemma is_kept_intersection (k1 k2 : gset color) (row : color_row) :
  is_kept (k1 ∩ k2) row <-> is_kept k1 row /\ is_kept k2 row.
Proof. destruct row; simpl; [apply elem_of_intersection | tauto]. Qed.

Lemma kept_kept {A : Type} (k1 k2 : gset color) (cs : list color_row)
    (xs : list A) :
  kept k2 (filter (is_kept k1) cs) (kept k1 cs xs) = kept (k1 ∩ k2) cs xs.
Proof.
  revert xs. induction cs as [| c cs IH]; intros [| x xs]; try done.
  - cbn [kept]. apply kept_nil_r.
  - rewrite filter_cons. cbn [kept].
    destruct (decide (is_kept k1 c)) as [H1 | H1].
    + cbn [kept]. destruct (decide (is_kept k2 c)) as [H2 | H2].
      * rewrite decide_True by (by apply is_kept_intersection). by rewrite IH.
      * rewrite decide_False by (by intros [_ ?]%is_kept_intersection). apply IH.
    + rewrite decide_False by (by intros [? _]%is_kept_intersection). apply IH.
Qed.

Lemma filter_filter_keep (k1 k2 : gset color) (cs : list color_row) :
  filter (is_kept k2) (filter (is_kept k1) cs) = filter (is_kept (k1 ∩ k2)) cs.
Proof.
  transitivity (kept k2 (filter (is_kept k1) cs) (kept k1 cs cs)).
  - by rewrite (kept_self k1 cs), kept_self.
  - by rewrite kept_kept, kept_self.
Qed.

Lemma filtered_rows_compose (k1 k2 : gset color) (cs : list color_row)
    (oh : option (list (list number))) :
  filtered_rows k2 (filter (is_kept k1) cs) (filtered_rows k1 cs oh)
  = filtered_rows (k1 ∩ k2) cs oh.
Proof.
  unfold filtered_rows. destruct oh as [[| r rs] |]; try done.
  rewrite <- kept_kept.
  destruct (kept k1 cs (r :: rs)) as [| x l]; [| done].
  cbn [some_if_any]. by rewrite kept_nil_r.
Qed.

End FilterCompose.

(** X11. Filters compose: for a validly constructed mapping whose
    labels are not the empty list, filtering by one set of colours and,
    when that gives a mapping, filtering the result by a second set has
    the outcome (mapping or exception) of filtering once by the
    colours that are in both sets. *)
Theorem from_filter_by_colors_compose (cs : list color_row)
    (oh : option (list (list number))) (ls : option (list string))
    (m m1 : ColorLabels.t) (k1 k2 : gset color) :
  ColorLabels.__init__ cs oh ls = Ok m ->
  ls <> Some [] ->
  ColorLabels.from_filter_by_colors m k1 = Ok m1 ->
  ColorLabels.from_filter_by_colors m1 k2
  = ColorLabels.from_filter_by_colors m (k1 ∩ k2).
Proof.
  intros Hinit Hls Hm1.
  pose proof (from_filter_by_colors_Ok_tuples k1 _ _ _ _ _ Hinit Hm1) as Htup.
  assert (Htup1 : Forall is_tuple (filter (is_kept k1) cs)).
  { apply Forall_forall. intros row [Hrow _]%list_elem_of_filter.
    by eapply is_kept_tuple. }
  rewrite (from_filter_by_colors_eq _ _ _ _ k1 Hinit Htup) in Hm1.
  rewrite (from_filter_by_colors_eq _ _ _ _ k2 Hm1 Htup1).
  rewrite (from_filter_by_colors_eq _ _ _ _ (k1 ∩ k2) Hinit Htup).
  rewrite filter_filter_keep, filtered_rows_compose. f_equal.
  unfold filtered_labels at 1 3.
  destruct (truthy oh) eqn:Htruthy.
  - (* the source has one-hot rows *)
    destruct oh as [[| r rs] |]; try done.
    unfold filtered_rows in *.
    destruct (kept k1 cs (r :: rs)) as [| x l] eqn:Hk; [| done].
    cbn [some_if_any truthy] in *.
    destruct ls as [[| name names] |]; [done | | done].
    exfalso.
    pose proof (init_plain_valid _ _ _ _ Hm1 eq_refl _ eq_refl ltac:(done)) as Hl.
    destruct (init_rows_valid _ _ _ _ _ Hinit) as (Hlen & _ & _).
    rewrite <- (kept_length k1 cs (r :: rs) Hlen), Hk in Hl. done.
  - (* the source has no one-hot rows *)
    assert (Hnone : truthy (filtered_rows k1 cs oh) = false)
      by (by destruct oh as [[| ? ?] |]).
    unfold filtered_labels. rewrite Hnone, Htruthy.
    destruct ls as [[| name names] |]; try done.
    rewrite <- kept_kept.
    destruct (kept k1 cs (name :: names)) as [| x l]; [| done].
    cbn [some_if_any]. by rewrite kept_nil_r.
Qed.

Lemma from_filter_by_colors_compose_witness :
  ColorLabels.from_filter_by_colors
    (ColorLabels.mk [TupleColor (0, 0, 0); TupleColor (0, 255, 0)] None
       (Some ["paper"; "stamp"]%string) (Some ["paper"; "stamp"]%string))
    {[ (0, 255, 0); (255, 0, 0) ]}
  = ColorLabels.from_filter_by_colors
      (ColorLabels.mk
         [TupleColor (0, 0, 0); TupleColor (255, 0, 0); TupleColor (0, 255, 0)] None
         (Some ["paper"; "ink"; "stamp"]%string)
         (Some ["paper"; "ink"; "stamp"]%string))
      ({[ (0, 0, 0); (0, 255, 0) ]} ∩ {[ (0, 255, 0); (255, 0, 0) ]}).
Proof.
  apply (from_filter_by_colors_compose
           [TupleColor (0, 0, 0); TupleColor (255, 0, 0); TupleColor (0, 255, 0)] None
           (Some ["paper"; "ink"; "stamp"]%string)).
  - by vm_compute.
  - done.
  - by vm_compute.
Defined.

(* ------------------------------------------------------------------ *)
(** ** The one-hot value parser: what it returns *)

Section ParserResult.

Lemma zero_or_one_in_unit_range x : zero_or_one x -> in_unit_range x.
Proof.
  intros [-> | ->]; eexists; (split; [reflexivity |]); split; by vm_compute.
Qed.

Lemma zero_one_check_passed arr :
  (0 <? length (list_difference (remove_dups arr) [of_int 0; of_int 1]))%nat = false ->
  Forall zero_or_one arr.
Proof.
  intros Hzo. apply Forall_forall. intros q Hq.
  destruct (decide (q = of_int 0)) as [| Hn0]; [by left |].
  destruct (decide (q = of_int 1)) as [| Hn1]; [by right |].
  exfalso. apply not_true_iff_false in Hzo. apply Hzo.
  apply not_zero_one_spec, Exists_exists. exists q. split; [done |].
  by intros [? | ?].
Qed.

(** What passes the range test: the values from 0 to 1, and NaN. *)
Lemma range_check_passed arr :
  existsb (fun x => less_than x 0 || greater_than x 1) arr = false ->
  Forall (fun x => x = NaN \/ in_unit_range x) arr.
Proof.
  induction arr as [| x arr IH]; [done |]. cbn [existsb].
  intros [Hx Harr]%orb_false_iff. constructor; [| by apply IH].
  destruct x as [q | negative |]; [right | | by left].
  - apply orb_false_iff in Hx as [H0 H1]. simpl in H0, H1.
    apply bool_decide_eq_false in H0, H1.
    exists q. split; [done |]. split; by apply Qcnot_lt_le.
  - by destruct negative.
Qed.

End ParserResult.

(** X12. What [parse_validate_one_hot] returns: every value lies in
    [0, 1] or is NaN (the range test lets NaN pass), and when all
    values are integral every value is 0 or 1.  A sequence with a NaN
    among values in range is returned as it is.  An argument that is
    neither a string nor a sized sequence raises a [ValueError], and
    the empty string and the empty sequence give the empty vector. *)
Theorem parse_validate_one_hot_result (astype_float32 : scalar -> option number) :
  (forall raw arr,
      parse_validate_one_hot astype_float32 raw = Ok arr ->
      Forall (fun x => x = NaN \/ in_unit_range x) arr
      /\ (Forall integral arr -> Forall zero_or_one arr))
  /\ (forall xs arr,
        coerced astype_float32 xs arr ->
        NaN ∈ arr ->
        Forall (fun x => x = NaN \/ in_unit_range x) arr ->
        parse_validate_one_hot astype_float32 (OneHotSeq xs) = Ok arr)
  /\ parse_validate_one_hot astype_float32 OneHotUnsized
     = Raise (ValueError OneHotNotSized)
  /\ parse_validate_one_hot astype_float32 (OneHotText "") = Ok []
  /\ parse_validate_one_hot astype_float32 (OneHotSeq []) = Ok [].
Proof.
  split_and!; try done.
  - intros raw arr. unfold parse_validate_one_hot.
    destruct (elements raw) as [xs |]; [| done].
    destruct (coerce_cases astype_float32 xs)
      as [(arr0 & -> & _) | (-> & _)]; [| done].
    rewrite bind_ret. destruct (is_int_array arr0) eqn:Hint.
    + destruct (0 <? _)%nat eqn:Hzo; [done |].
      apply zero_one_check_passed in Hzo.
      rewrite (astype_int32_zero_one arr0 Hzo). intros [= <-]. split; [| done].
      eapply Forall_impl; [exact Hzo |].
      intros x Hx. right. by apply zero_or_one_in_unit_range.
    + destruct (existsb _ arr0) eqn:Hout; [done |]. intros [= <-].
      split; [by apply range_check_passed |].
      intros Hall. apply is_int_array_spec in Hall. congruence.
  - intros xs arr Harr Hnan Hrange. unfold parse_validate_one_hot. cbn [elements].
    destruct (coerce_cases astype_float32 xs)
      as [(arr0 & -> & Harr0) | (_ & x & Hx & Hnone)];
      [| by destruct (coerced_all_numbers astype_float32 xs arr x Harr Hx)].
    rewrite (coerced_functional _ _ _ _ Harr0 Harr), bind_ret.
    destruct (is_int_array arr) eqn:Hint.
    { apply is_int_array_spec in Hint. rewrite Forall_forall in Hint.
      by destruct (Hint NaN Hnan). }
    destruct (existsb _ arr) eqn:Hout; [| done].
    apply out_of_range_spec, Exists_exists in Hout as (x & Hx & Hbeyond).
    rewrite Forall_forall in Hrange.
    destruct (Hrange x Hx) as [-> | Hin]; [done |].
    destruct Hin as (q & -> & Hq). apply beyond_unit_range_finite in Hbeyond.
    destruct Hbeyond. by exists q.
Qed.

Lemma parse_validate_one_hot_result_witness :
  Forall (fun x => x = NaN \/ in_unit_range x) [Finite (Q2Qc (1 # 4)); NaN]
  /\ parse_validate_one_hot example_float32
       (OneHotSeq [SNum (Finite (Q2Qc (1 # 4))); SNum NaN])
     = Ok [Finite (Q2Qc (1 # 4)); NaN].
Proof.
  assert (Hrange : Forall (fun x => x = NaN \/ in_unit_range x)
                     [Finite (Q2Qc (1 # 4)); NaN]).
  { refine (proj1 (proj1 (parse_validate_one_hot_result example_float32)
                     (OneHotSeq [SNum (Finite (Q2Qc (1 # 4))); SNum NaN]) _ _)).
    by vm_compute. }
  split; [exact Hrange |].
  apply (proj1 (proj2 (parse_validate_one_hot_result example_float32))).
  - by repeat constructor.
  - apply elem_of_cons. right. apply elem_of_cons. by left.
  - exact Hrange.
Defined.

(* ------------------------------------------------------------------ *)
(** ** The colour list constructors: errors and the multilabel table *)

Section ColourLists.

Import ColorLabels.

Context (parse_and_validate_color : color_spec -> option color_row).

Lemma for_each_parse_color_raises specs :
  (exists spec, spec ∈ specs /\ parse_and_validate_color spec = None) ->
  for_each (parse_color parse_and_validate_color) specs
  = Raise (ValueError InvalidColor).
Proof.
  induction specs as [| s specs IH]; intros (spec & Hin & Hnone).
  - by apply elem_of_nil in Hin.
  - cbn [for_each]. unfold parse_color at 1.
    destruct (parse_and_validate_color s) as [c |] eqn:Hs; [| done].
    cbn [bind]. rewrite IH; [done |]. exists spec. split; [| done].
    apply elem_of_cons in Hin as [-> | ?]; [congruence | done].
Qed.

(** The rows of the generator as numbers: at least one row, all of
    length [n]. *)
Lemma number_rows_one_hots n :
  exists r rs,
    number_rows (get_all_one_hots n) = r :: rs
    /\ length (r :: rs) = (2 ^ n)%nat
    /\ length r = n
    /\ Forall (fun r' => length r' = length r) rs.
Proof.
  assert (Hlen : length (number_rows (get_all_one_hots n)) = (2 ^ n)%nat).
  { unfold number_rows. rewrite length_fmap, get_all_one_hots_rows.
    by rewrite length_fmap, np_arange_length. }
  assert (Hall : Forall (fun r' => length r' = n) (number_rows (get_all_one_hots n))).
  { unfold number_rows. rewrite get_all_one_hots_rows.
    apply Forall_fmap, Forall_fmap, Forall_forall. intros i _. simpl.
    by rewrite length_fmap, bits_row_length. }
  destruct (number_rows (get_all_one_hots n)) as [| r rs].
  - simpl in Hlen. pose proof (Nat.pow_nonzero 2 n). lia.
  - apply Forall_cons in Hall as [Hr Hrs]. exists r, rs. split_and!; try done.
    eapply Forall_impl; [exact Hrs |]. simpl. intros. congruence.
Qed.

(** The constructor accepts the table of the mixer. *)
Lemma init_one_hot_table (n : nat) (colors' : list color_row)
    (ls : option (list string)) :
  length colors' = (2 ^ n)%nat ->
  (forall names, ls = Some names -> names <> [] -> length names = n) ->
  exists m,
    __init__ colors' (Some (number_rows (get_all_one_hots n))) ls = Ok m
    /\ num_classes m = n.
Proof.
  intros Hcolors Hls.
  destruct (number_rows_one_hots n) as (r & rs & Heq & Hlen & Hr & Hrs).
  rewrite Heq.
  destruct (init_rows_Ok colors' r rs ls) as [m Hm]; [lia | done | |].
  { intros names Hn Hne. rewrite Hr. by apply Hls. }
  exists m. split; [done |].
  destruct (init_fields _ _ _ _ Hm) as (_ & Ho & _).
  unfold num_classes. by rewrite Ho.
Qed.

End ColourLists.

(** X13. [from_colors] fails with a [ValueError] when a colour
    specification does not parse, and, when all parse, when a non-empty
    label list has another length than the colour list (the counts
    that are compared include the added background). *)
Theorem from_colors_errors (parse : color_spec -> option color_row) :
  (forall specs ls,
      (exists spec, spec ∈ specs /\ parse spec = None) ->
      ColorLabels.from_colors parse specs ls = Raise (ValueError InvalidColor))
  /\ (forall specs cols names,
        Forall2 (fun spec c => parse spec = Some c) specs cols ->
        names <> [] -> length names <> length specs ->
        ColorLabels.from_colors parse specs (Some names)
        = Raise (ValueError (ClassesLabelsCount (S (length specs))
                               (S (length names))))).
Proof.
  split.
  - intros specs ls Hbad. unfold ColorLabels.from_colors.
    by rewrite for_each_parse_color_raises.
  - intros specs cols names Hparse Hne Hlen. unfold ColorLabels.from_colors.
    rewrite (for_each_parse_color parse specs cols Hparse), bind_ret.
    destruct names as [| name names]; [done |].
    unfold ColorLabels.__init__, ColorLabels.num_classes.
    cbn [ColorLabels.one_hot_encoding ColorLabels.colors].
    rewrite bind_ret. rewrite length_cons, <- (Forall2_length _ _ _ Hparse).
    destruct (Nat.eqb_spec (S (length specs))
                (length ("background"%string :: name :: names))) as [Heq |];
      [| done].
    simpl in *. lia.
Qed.

Lemma from_colors_errors_witness :
  ColorLabels.from_colors hex_or_triple_color
    [ColorText "#FF0000"; ColorText "#00FF00"] (Some ["red"%string])
  = Raise (ValueError (ClassesLabelsCount 3 2)).
Proof.
  apply (proj2 (from_colors_errors hex_or_triple_color)
           [ColorText "#FF0000"; ColorText "#00FF00"]
           [TupleColor (255, 0, 0); TupleColor (0, 255, 0)] ["red"%string]).
  - repeat constructor.
  - done.
  - simpl. lia.
Defined.

(** X14. [from_colors_multilabel] builds the full table: for [n] colour
    specifications that parse, with no labels, an empty label list or
    [n] labels, it returns a multilabel mapping with [n] classes whose
    one-hot rows are the [2 ^ n] rows of [get_all_one_hots] and whose
    colours are the mixed colours, row 0 being black; the labels are
    kept as given (no "background" is put in front). *)
Theorem from_colors_multilabel_spec (parse : color_spec -> option color_row)
    (specs : list color_spec) (cols : list color_row)
    (ls : option (list string)) :
  Forall2 (fun spec c => parse spec = Some c) specs cols ->
  (forall names, ls = Some names -> names <> [] -> length names = length specs) ->
  exists m,
    ColorLabels.from_colors_multilabel parse specs ls = Ok m
    /\ ColorLabels.multilabel m = true
    /\ ColorLabels.num_classes m = length specs
    /\ ColorLabels.one_hot_encoding m
       = Some (number_rows (get_all_one_hots (length specs)))
    /\ ColorLabels.colors m
       = TupleColor <$> (all_one_hot_and_colors (channels <$> cols)).2
    /\ length (ColorLabels.colors m) = (2 ^ length specs)%nat
    /\ ColorLabels.colors m !! 0%nat = Some (TupleColor (0, 0, 0))
    /\ ColorLabels.labels m = ls.
Proof.
  intros Hparse Hls. unfold ColorLabels.from_colors_multilabel.
  rewrite (for_each_parse_color parse specs cols Hparse), bind_ret.
  pose proof (Forall2_length _ _ _ Hparse) as Hn.
  unfold all_one_hot_and_colors. cbn zeta. rewrite length_fmap.
  set (base := channels <$> cols).
  assert (Hcolors : length (TupleColor <$> (mix_color base
                                              <$> get_all_one_hots (length cols)))
                    = (2 ^ length cols)%nat).
  { rewrite !length_fmap, get_all_one_hots_rows.
    by rewrite length_fmap, np_arange_length. }
  destruct (init_one_hot_table (length cols)
              (TupleColor <$> (mix_color base <$> get_all_one_hots (length cols)))
              ls Hcolors)
    as (m & Hm & Hnum).
  { intros names Hnames Hne. rewrite <- Hn. by apply Hls. }
  exists m. destruct (init_fields _ _ _ _ Hm) as (Hc & Ho & Hl).
  rewrite Hn. split_and!; try done.
  - unfold ColorLabels.multilabel. by rewrite Ho.
  - by rewrite Hc.
  - rewrite Hc, get_all_one_hots_rows, <- !list_fmap_compose, list_lookup_fmap.
    rewrite np_arange_lookup by (apply Nat.neq_0_lt_0, Nat.pow_nonzero; lia).
    simpl. do 2 f_equal. change (Z.of_nat 0) with 0.
    replace (bits_row (length cols) 0) with (replicate (length cols) 0);
      [apply mix_color_zeros |].
    apply list_eq_same_length with (length cols);
      [apply bits_row_length | apply length_replicate |].
    intros j x y Hj Hx Hy.
    rewrite lookup_replicate_2 in Hx by done.
    rewrite bits_row_lookup, Z.bits_0 in Hy by done. simpl in Hy. congruence.
Qed.

Lemma from_colors_multilabel_witness :
  exists m,
    ColorLabels.from_colors_multilabel hex_or_triple_color
      [ColorText "#FF0000"; ColorText "#0000FF"]
      (Some ["red"; "blue"]%string) = Ok m
    /\ ColorLabels.colors m
       = [TupleColor (0, 0, 0); TupleColor (255, 0, 0); TupleColor (0, 0, 255);
          TupleColor (128, 0, 128)]
    /\ ColorLabels.labels m = Some ["red"; "blue"]%string.
Proof.
  destruct (from_colors_multilabel_spec hex_or_triple_color
              [ColorText "#FF0000"; ColorText "#0000FF"]
              [TupleColor (255, 0, 0); TupleColor (0, 0, 255)]
              (Some ["red"; "blue"]%string))
    as (m & Hm & _ & _ & _ & Hc & _ & _ & Hl).
  - repeat constructor.
  - by intros names [= <-] _.
  - exists m. split_and!; [exact Hm | exact Hc | exact Hl].
Defined.

(* ------------------------------------------------------------------ *)
(** ** The constructors that draw colours *)

Section GeneratedColours.

Import ColorLabels.

Context {rng : Type} (n_colors : nat -> rng -> list color_row * rng).

Lemma remove_dups_length_le (l : list color) :
  (length (remove_dups l) <= length l)%nat.
Proof.
  induction l as [| x l IH]; [done |]. simpl.
  destruct (decide_rel elem_of x l); simpl; lia.
Qed.

Lemma all_distinct_NoDup (l : list color) : all_distinct l = true <-> NoDup l.
Proof.
  unfold all_distinct. rewrite Nat.eqb_eq.
  induction l as [| x l IH]; [split; [constructor | done] |].
  pose proof (remove_dups_length_le l) as Hle.
  rewrite NoDup_cons. simpl.
  destruct (decide_rel elem_of x l) as [Hin | Hnin]; simpl.
  - split; [lia | by intros [? _]].
  - split.
    + intros [= Hlen]. split; [done |]. by apply IH.
    + intros [_ Hnd]. f_equal. by apply IH.
Qed.

(** The loop ends at the first draw whose mixed colours are distinct,
    when there are tries left for it. *)
Lemma mix_tries_first num_tries_left n g k :
  (k < num_tries_left)%nat ->
  NoDup (mixed_draw n_colors n g k) ->
  (forall j, (j < k)%nat -> ~ NoDup (mixed_draw n_colors n g j)) ->
  mix_tries rng n_colors num_tries_left n g
  = (Some (all_one_hot_and_colors
             (channels <$> (n_colors n (state_after n_colors n g k)).1)),
     state_after n_colors n g (S k)).
Proof.
  revert g k. induction num_tries_left as [| t IH]; intros g k Hk Hnd Hfirst;
    [lia |].
  cbn [mix_tries]. destruct k as [| k].
  - unfold mixed_draw in Hnd. cbn [state_after] in Hnd |- *.
    destruct (n_colors n g) as [base g1] eqn:Hdraw. cbn [fst snd] in *.
    destruct (all_one_hot_and_colors (channels <$> base)) as [oh cs] eqn:Hmix.
    cbn [snd] in Hnd. by rewrite (proj2 (all_distinct_NoDup cs) Hnd).
  - pose proof (Hfirst 0%nat ltac:(lia)) as H0.
    unfold mixed_draw in H0. cbn [state_after] in H0.
    assert (Hshift : forall j, mixed_draw n_colors n g (S j)
                               = mixed_draw n_colors n (n_colors n g).2 j)
      by done.
    assert (Hstate : forall j, state_after n_colors n g (S j)
                               = state_after n_colors n (n_colors n g).2 j)
      by done.
    rewrite !Hstate. rewrite Hshift in Hnd.
    destruct (n_colors n g) as [base g1] eqn:Hdraw. cbn [fst snd] in *.
    destruct (all_one_hot_and_colors (channels <$> base)) as [oh cs] eqn:Hmix.
    cbn [snd] in H0.
    destruct (all_distinct cs) eqn:Hd; [by apply all_distinct_NoDup in Hd |].
    apply IH; [lia | done |].
    intros j Hj. rewrite <- Hshift. apply Hfirst. lia.
Qed.

(** The loop runs out of tries when every draw collides. *)
Lemma mix_tries_none num_tries_left n g :
  (forall j, (j < num_tries_left)%nat -> ~ NoDup (mixed_draw n_colors n g j)) ->
  mix_tries rng n_colors num_tries_left n g
  = (None, state_after n_colors n g num_tries_left).
Proof.
  revert g. induction num_tries_left as [| t IH]; intros g Hall; [done |].
  cbn [mix_tries state_after].
  pose proof (Hall 0%nat ltac:(lia)) as H0.
  unfold mixed_draw in H0. cbn [state_after] in H0.
  assert (Hshift : forall j, mixed_draw n_colors n g (S j)
                             = mixed_draw n_colors n (n_colors n g).2 j)
    by done.
  destruct (n_colors n g) as [base g1] eqn:Hdraw. cbn [fst snd] in *.
  destruct (all_one_hot_and_colors (channels <$> base)) as [oh cs] eqn:Hmix.
  cbn [snd] in H0.
  destruct (all_distinct cs) eqn:Hd; [by apply all_distinct_NoDup in Hd |].
  apply IH. intros j Hj. rewrite <- Hshift. apply Hall. lia.
Qed.

(** What the loop returns, either way. *)
Lemma mix_tries_cases num_tries_left n g :
  (exists k, (k < num_tries_left)%nat
             /\ mix_tries rng n_colors num_tries_left n g
                = (Some (all_one_hot_and_colors
                           (channels <$> (n_colors n (state_after n_colors n g k)).1)),
                   state_after n_colors n g (S k)))
  \/ mix_tries rng n_colors num_tries_left n g
     = (None, state_after n_colors n g num_tries_left).
Proof.
  revert g. induction num_tries_left as [| t IH]; intros g; [by right |].
  cbn [mix_tries state_after]. specialize (IH (n_colors n g).2).
  destruct (n_colors n g) as [base g1] eqn:Hdraw.
  destruct (all_one_hot_and_colors (channels <$> base)) as [oh cs] eqn:Hmix.
  cbn [fst snd] in *. destruct (all_distinct cs).
  - left. exists 0%nat. split; [lia |]. cbn [state_after].
    rewrite Hdraw. cbn [fst]. by rewrite Hmix.
  - destruct IH as [(k & Hk & IH) | IH]; [left | by right].
    exists (S k). split; [lia |]. cbn [state_after]. by rewrite Hdraw.
Qed.

End GeneratedColours.

(** X15. [from_labels] draws one colour per label and builds a mapping
    that is not multilabel.  For a non-empty label list it succeeds
    exactly when [n_colors] returns as many colours as there are
    labels; the mapping then has the drawn colours, the given labels,
    and the labels as display names. *)
Theorem from_labels_spec (rng : Type)
    (n_colors : nat -> rng -> list color_row * rng)
    (labels : list string) (g : rng) :
  labels <> [] ->
  ((exists m, (ColorLabels.from_labels rng n_colors labels g).1 = Ok m)
   <-> length (n_colors (length labels) g).1 = length labels)
  /\ (forall m, (ColorLabels.from_labels rng n_colors labels g).1 = Ok m ->
        ColorLabels.colors m = (n_colors (length labels) g).1
        /\ ColorLabels.one_hot_encoding m = None
        /\ ColorLabels.labels m = Some labels
        /\ ColorLabels.log_labels m = Some labels).
Proof.
  intros Hne. unfold ColorLabels.from_labels.
  destruct (n_colors (length labels) g) as [drawn g'] eqn:Hdraw. simpl.
  destruct labels as [| name names]; [done |].
  unfold ColorLabels.__init__, ColorLabels.num_classes,
    ColorLabels.assert_same_length.
  cbn [ColorLabels.one_hot_encoding ColorLabels.colors]. rewrite bind_ret.
  destruct (Nat.eqb_spec (length drawn) (length (name :: names))) as [Heq | Hneq].
  - cbn [negb]. rewrite <- Heq, Nat.eqb_refl, bind_ret.
    split; [split; [done | by eexists] |]. by intros m [= <-].
  - cbn [negb]. split; [split; [by intros [m ?] | done] | done].
Qed.

Lemma from_labels_spec_witness :
  exists m,
    (ColorLabels.from_labels unit (fun n g => (replicate n (TupleColor (7, 7, 7)), g))
       ["ink"; "seal"]%string tt).1 = Ok m.
Proof.
  apply (proj1 (from_labels_spec unit (fun n g => (replicate n (TupleColor (7, 7, 7)), g))
                  ["ink"; "seal"]%string tt ltac:(done))).
  reflexivity.
Defined.

(** X16. [from_labels_multilabel], when [n_colors] returns as many
    colours as it is asked for, always builds a multilabel mapping for
    the [n] labels: its one-hot rows are the [2 ^ n] rows of
    [get_all_one_hots], it has one colour per row and the given labels.
    It draws [n] base colours up to ten times, one draw after the
    other.  The colours of the mapping are the mix of the first of
    these draws whose mixed colours are pairwise distinct, as tuples,
    and no further draw is made; if the mixes of all ten draws have a
    collision, the colours are an eleventh draw, of [2 ^ n] colours,
    taken as they are. *)
Theorem from_labels_multilabel_spec (rng : Type)
    (n_colors : nat -> rng -> list color_row * rng)
    (labels : list string) (g : rng) :
  (forall k g0, length (n_colors k g0).1 = k) ->
  exists m g',
    ColorLabels.from_labels_multilabel rng n_colors labels g = (Ok m, g')
    /\ ColorLabels.multilabel m = true
    /\ ColorLabels.num_classes m = length labels
    /\ ColorLabels.one_hot_encoding m
       = Some (number_rows (get_all_one_hots (length labels)))
    /\ length (ColorLabels.colors m) = (2 ^ length labels)%nat
    /\ ColorLabels.labels m = Some labels
    /\ (forall k,
          (k < 10)%nat ->
          NoDup (mixed_draw n_colors (length labels) g k) ->
          (forall j, (j < k)%nat ->
                     ~ NoDup (mixed_draw n_colors (length labels) g j)) ->
          ColorLabels.colors m
          = TupleColor <$> mixed_draw n_colors (length labels) g k
          /\ g' = state_after n_colors (length labels) g (S k))
    /\ ((forall j, (j < 10)%nat ->
                   ~ NoDup (mixed_draw n_colors (length labels) g j)) ->
        (ColorLabels.colors m, g')
        = n_colors (2 ^ length labels)%nat
            (state_after n_colors (length labels) g 10)).
Proof.
  intros Hcount. unfold ColorLabels.from_labels_multilabel.
  assert (Hrows : length (get_all_one_hots (length labels))
                  = (2 ^ length labels)%nat).
  { rewrite get_all_one_hots_rows. by rewrite length_fmap, np_arange_length. }
  destruct (mix_tries_cases n_colors 10 (length labels) g)
    as [(k & Hk & Htries) | Htries]; rewrite Htries.
  - (* draw number k is the first whose mix has no collision *)
    set (base := (n_colors (length labels)
                    (state_after n_colors (length labels) g k)).1) in *.
    assert (Hbase : length (channels <$> base) = length labels)
      by (rewrite length_fmap; apply Hcount).
    unfold all_one_hot_and_colors in *. cbn zeta in *. rewrite Hbase in *.
    destruct (init_one_hot_table (length labels)
                (TupleColor <$> (mix_color (channels <$> base)
                                   <$> get_all_one_hots (length labels)))
                (Some labels))
      as (m & Hm & Hnum).
    { by rewrite !length_fmap. }
    { by intros names [= <-] _. }
    exists m, (state_after n_colors (length labels) g (S k)).
    destruct (init_fields _ _ _ _ Hm) as (Hc & Ho & Hl).
    rewrite Hm. split_and!; try done.
    + unfold ColorLabels.multilabel. by rewrite Ho.
    + by rewrite Hc, !length_fmap.
    + intros k' Hk' Hnd Hfirst.
      rewrite (mix_tries_first n_colors 10 _ g k' Hk' Hnd Hfirst) in Htries.
      injection Htries as Hoh Hcs Hg. split; [| done].
      rewrite Hc. unfold mixed_draw, all_one_hot_and_colors. cbn zeta. cbn [snd].
      by rewrite Hcs.
    + intros Hall.
      by rewrite (mix_tries_none n_colors 10 _ g Hall) in Htries.
  - (* ten collisions: one colour per row *)
    destruct (n_colors (length (get_all_one_hots (length labels)))
                (state_after n_colors (length labels) g 10))
      as [colors g2] eqn:Hdraw.
    pose proof (Hcount (length (get_all_one_hots (length labels)))
                  (state_after n_colors (length labels) g 10)) as Hlen.
    rewrite Hdraw in Hlen. simpl in Hlen.
    destruct (init_one_hot_table (length labels) colors (Some labels))
      as (m & Hm & Hnum).
    { by rewrite Hlen. }
    { by intros names [= <-] _. }
    exists m, g2. destruct (init_fields _ _ _ _ Hm) as (Hc & Ho & Hl).
    rewrite Hm. split_and!; try done.
    + unfold ColorLabels.multilabel. by rewrite Ho.
    + by rewrite Hc, Hlen.
    + intros k' Hk' Hnd Hfirst.
      by rewrite (mix_tries_first n_colors 10 _ g k' Hk' Hnd Hfirst) in Htries.
    + intros _. by rewrite Hc, <- Hrows, Hdraw.
Qed.

Lemma from_labels_multilabel_spec_witness :
  exists m,
    ColorLabels.from_labels_multilabel nat example_n_colors
      ["ink"; "seal"]%string 0%nat = (Ok m, 2%nat)
    /\ ColorLabels.colors m
       = [TupleColor (0, 0, 0); TupleColor (50, 0, 0); TupleColor (100, 0, 0);
          TupleColor (75, 0, 0)].
Proof.
  destruct (from_labels_multilabel_spec nat example_n_colors
              ["ink"; "seal"]%string 0%nat)
    as (m & g' & Hm & _ & _ & _ & _ & _ & Hfirst & _).
  - intros k g0. unfold example_n_colors. cbn [fst].
    by rewrite length_fmap, length_seq.
  - destruct (Hfirst 1%nat) as [Hc Hg].
    + lia.
    + apply (bool_decide_unpack _). by vm_compute.
    + intros j Hj Hnd. assert (j = 0%nat) as -> by lia.
      apply (bool_decide_pack _) in Hnd. vm_compute in Hnd. done.
    + exists m. rewrite Hm, Hg, Hc. split; reflexivity.
Defined.

(* ------------------------------------------------------------------ *)
(** ** The constructor from a list of records: content and errors *)

Section FromListContent.

Import ColorLabels.

Context (parse_and_validate_color : color_spec -> option color_row).
Context (astype_float32 : scalar -> option number).

Local Abbreviation step := (list_step parse_and_validate_color astype_float32).
Local Abbreviation loop := (list_loop parse_and_validate_color astype_float32).

(** What a turn of the loop that does not raise has done. *)
Lemma list_step_Ok st r st' :
  step st r = Ok st' ->
  (exists c, color_of parse_and_validate_color r c
             /\ ls_colors st' = ls_colors st ++ [c])
  /\ has_labels st' = Some (bool_decide (cl_label r <> None))
  /\ (cl_label r <> None -> has_labels st <> Some false)
  /\ match cl_one_hot r with
     | None => has_one_hot st' = Some false
     | Some _ =>
         has_one_hot st' = Some true
         /\ has_one_hot st <> Some false
         /\ ((has_one_hot st = Some true -> is_Some (ls_one_hot_encoding st)) ->
             exists a, one_hot_of astype_float32 r a
                       /\ ls_one_hot_encoding st' = Some (rows_before st ++ [a]))
     end.
Proof.
  destruct st as [cs oh ls ho hl sz].
  unfold list_step, parse_color, color_of, one_hot_of, rows_before.
  cbn [ls_colors ls_one_hot_encoding ls_labels has_one_hot has_labels one_hot_size].
  destruct (cl_color r) as [spec |]; [| done].
  destruct (parse_and_validate_color spec) as [c |] eqn:Hc; [| done].
  rewrite bind_ret. unfold one_hot_step, label_step.
  cbn [ls_colors ls_one_hot_encoding ls_labels has_one_hot has_labels one_hot_size].
  destruct (cl_one_hot r) as [raw |].
  - destruct (parse_validate_one_hot astype_float32 raw) as [a | e] eqn:Ha;
      [| done].
    rewrite bind_ret. destruct ho as [[|] |]; simpl; try done.
    + destruct (negb _); [done |]. destruct oh as [rows |]; [| done]. simpl.
      destruct (cl_label r) as [name |], hl as [[|] |], ls as [names |];
        simpl; try done;
        intros [= ?]; subst st'; simpl;
        (split_and!; [by eauto | done | done | done | done | by eauto]).
    + destruct (negb _); [done |]. simpl.
      destruct (cl_label r) as [name |], hl as [[|] |], ls as [names |];
        simpl; try done;
        intros [= ?]; subst st'; simpl;
        (split_and!; [by eauto | done | done | done | done | by eauto]).
  - rewrite bind_ret.
    destruct (cl_label r) as [name |], hl as [[|] |], ls as [names |];
      simpl; try done;
      intros [= ?]; subst st'; simpl; (split_and!; [by eauto | done ..]).
Qed.

Lemma list_loop_app before after st :
  loop (before ++ after) st = (loop before st ≫= loop after).
Proof.
  revert st. induction before as [| r before IH]; intros st; [done |].
  cbn [app list_loop]. destruct (step st r) as [st1 | e]; [| done].
  rewrite !bind_ret. apply IH.
Qed.

(** The colours of a run that does not raise. *)
Lemma list_loop_colors records :
  forall st st',
    loop records st = Ok st' ->
    exists cols, ls_colors st' = ls_colors st ++ cols
                 /\ Forall2 (color_of parse_and_validate_color) records cols.
Proof.
  induction records as [| r records IH]; intros st st' Hloop.
  - injection Hloop as <-. exists []. by rewrite app_nil_r.
  - cbn [list_loop] in Hloop. apply bind_Ok in Hloop as (st1 & Hstep & Hloop).
    destruct (list_step_Ok _ _ _ Hstep) as ((c & Hc & Hcs) & _).
    destruct (IH _ _ Hloop) as (cols & Hcols & Hall).
    exists (c :: cols). split; [| by constructor].
    by rewrite Hcols, Hcs, <- app_assoc.
Qed.

(** The one-hot rows of a run that ends with [has_one_hot] true. *)
Lemma list_loop_rows records :
  forall st st',
    (has_one_hot st = Some true -> is_Some (ls_one_hot_encoding st)) ->
    loop records st = Ok st' ->
    has_one_hot st' = Some true ->
    (records <> [] -> has_one_hot st <> Some false)
    /\ exists rows,
        ls_one_hot_encoding st' = Some (rows_before st ++ rows)
        /\ Forall2 (one_hot_of astype_float32) records rows.
Proof.
  induction records as [| r records IH]; intros st st' Hwf Hloop Htrue.
  - injection Hloop as <-. split; [done |]. exists []. split; [| done].
    rewrite app_nil_r. unfold rows_before. rewrite Htrue.
    by destruct (Hwf Htrue) as [rows ->].
  - cbn [list_loop] in Hloop. apply bind_Ok in Hloop as (st1 & Hstep & Hloop).
    destruct (list_step_Ok _ _ _ Hstep) as (_ & _ & _ & Hoh).
    assert (Hwf1 : has_one_hot st1 = Some true -> is_Some (ls_one_hot_encoding st1)).
    { intros H1. destruct (cl_one_hot r); [| congruence].
      destruct Hoh as (_ & _ & Hrows). destruct (Hrows Hwf) as (a & _ & ->).
      by eexists. }
    destruct (IH _ _ Hwf1 Hloop Htrue) as (Hnf & rows & Hrows & Hall).
    assert (Hst1 : has_one_hot st1 = Some true).
    { destruct records as [| r' records].
      - injection Hloop as <-. done.
      - specialize (Hnf ltac:(done)).
        destruct (cl_one_hot r); [by destruct Hoh | congruence]. }
    destruct (cl_one_hot r) as [raw |] eqn:Hraw; [| congruence].
    destruct Hoh as (_ & Hst & Hrow). destruct (Hrow Hwf) as (a & Ha & Henc).
    split; [done |]. exists (a :: rows). split; [| by constructor].
    rewrite Hrows. unfold rows_before at 1. rewrite Hst1, Henc. simpl.
    by rewrite <- app_assoc.
Qed.

(** After a record without a name, no record with a name passes. *)
Lemma list_loop_unnamed records :
  forall st st',
    has_labels st = Some false ->
    loop records st = Ok st' ->
    forall r, r ∈ records -> cl_label r = None.
Proof.
  induction records as [| r0 records IH]; intros st st' Hfalse Hloop r Hr.
  - by apply elem_of_nil in Hr.
  - cbn [list_loop] in Hloop. apply bind_Ok in Hloop as (st1 & Hstep & Hloop).
    destruct (list_step_Ok _ _ _ Hstep) as (_ & Hl1 & Hnot & _).
    assert (Hr0 : cl_label r0 = None).
    { destruct (cl_label r0); [| done]. by destruct Hnot. }
    apply elem_of_cons in Hr as [-> | Hr]; [done |].
    apply (IH st1 st'); try done.
    rewrite Hl1, Hr0. by rewrite bool_decide_eq_false_2 by (by intros ?).
Qed.

End FromListContent.

(** X17. What [from_list_of_color_labels] builds.  When it returns a
    mapping, every record has a colour that parses and the colours of
    the mapping are these, in order; and either no record has a
    one-hot vector and the mapping has no one-hot encoding, or every
    record has one that parses and the one-hot rows of the mapping are
    these vectors, in order. *)
Theorem from_list_content
    (parse_and_validate_color : color_spec -> option color_row)
    (astype_float32 : scalar -> option number)
    (records : list color_label) (labels : option (list string))
    (m : ColorLabels.t) :
  ColorLabels.from_list_of_color_labels parse_and_validate_color
    astype_float32 records labels = Ok m ->
  Forall2 (color_of parse_and_validate_color) records (ColorLabels.colors m)
  /\ ((ColorLabels.one_hot_encoding m = None
       /\ forall r, r ∈ records -> cl_one_hot r = None)
      \/ (exists rows,
             ColorLabels.one_hot_encoding m = Some rows
             /\ records <> []
             /\ Forall2 (one_hot_of astype_float32) records rows)).
Proof.
  intros Hm. unfold ColorLabels.from_list_of_color_labels in Hm.
  apply bind_Ok in Hm as (st & Hloop & Hinit).
  change {| ColorLabels.ls_colors := [] |} with (initial_state labels) in Hloop.
  destruct (init_fields _ _ _ _ Hinit) as (Hc & Ho & _).
  destruct (list_loop_colors _ _ _ _ _ Hloop) as (cols & Hcols & Hall).
  simpl in Hcols. split; [by rewrite Hc, Hcols |].
  destruct (list_loop_initial parse_and_validate_color astype_float32
              labels records) as [[why Hwhy] | (st0 & Hst0 & Hinv & _ & Hlen)];
    [congruence |].
  rewrite Hloop in Hst0. injection Hst0 as <-.
  unfold one_hot_inv in Hinv.
  destruct (ColorLabels.has_one_hot st) as [[|] |] eqn:Hhas.
  - destruct Hinv as (rows0 & n & _ & _ & Hne & _).
    destruct (list_loop_rows parse_and_validate_color astype_float32 records
                (initial_state labels) st) as (_ & rows & Hrows & Hforall);
      [done | done | done |].
    right. exists rows. by rewrite Ho, Hrows.
  - destruct Hinv as [[Hnone Hlack] | (rows & Hrows & Hne & Hlt)].
    + left. by rewrite Ho, Hnone.
    + exfalso. rewrite Hrows in Hinit. destruct rows as [| row rows]; [done |].
      rewrite init_row_count_raises in Hinit by lia. done.
  - destruct Hinv as (-> & Hnone & _). left. rewrite Ho, Hnone.
    split; [done |]. by intros r ?%elem_of_nil.
Qed.

Lemma from_list_content_witness :
  Forall2 (color_of hex_or_triple_color)
    [ {| cl_color := Some (ColorText "#000000");
         cl_one_hot := Some (OneHotText "0");
         cl_label := None |};
      {| cl_color := Some (ColorText "#FF0000");
         cl_one_hot := Some (OneHotText "1");
         cl_label := None |} ]
    [TupleColor (0, 0, 0); TupleColor (255, 0, 0)].
Proof.
  refine (proj1 (from_list_content hex_or_triple_color example_float32 _ None
                   (ColorLabels.mk [TupleColor (0, 0, 0); TupleColor (255, 0, 0)]
                      (Some [[of_int 0]; [of_int 1]]) None None) _)).
  by vm_compute.
Defined.

(** X18. [from_list_of_color_labels] raises a [ValueError] when some
    record has no colour or a colour that does not parse, and when a
    record without a label comes before a record with one. *)
Theorem from_list_errors
    (parse_and_validate_color : color_spec -> option color_row)
    (astype_float32 : scalar -> option number)
    (records : list color_label) (labels : option (list string)) :
  (exists r, r ∈ records
             /\ (cl_color r = None
                 \/ exists spec, cl_color r = Some spec
                                 /\ parse_and_validate_color spec = None))
  \/ (exists before r1 between r2 after,
         records = before ++ r1 :: between ++ r2 :: after
         /\ cl_label r1 = None /\ cl_label r2 <> None) ->
  is_value_error
    (ColorLabels.from_list_of_color_labels parse_and_validate_color
       astype_float32 records labels).
Proof.
  intros Hbad. unfold ColorLabels.from_list_of_color_labels.
  change {| ColorLabels.ls_colors := [] |} with (initial_state labels).
  destruct (list_loop_initial parse_and_validate_color astype_float32
              labels records) as [[why Hwhy] | (st & Hst & _)].
  { exists why. by rewrite Hwhy. }
  exfalso. destruct Hbad as [(r & Hr & Hcolor)
                            | (before & r1 & between & r2 & after & -> & H1 & H2)].
  - destruct (list_loop_colors _ _ _ _ _ Hst) as (cols & _ & Hall).
    apply list_elem_of_lookup in Hr as [i Hi].
    destruct (Forall2_lookup_l _ _ _ _ _ Hall Hi) as (c & _ & spec & Hspec & Hc).
    destruct Hcolor as [Hnone | (spec' & Hspec' & Hnone)]; congruence.
  - rewrite list_loop_app in Hst. apply bind_Ok in Hst as (st1 & _ & Hst).
    cbn [ColorLabels.list_loop] in Hst.
    apply bind_Ok in Hst as (st2 & Hstep & Hst).
    destruct (list_step_Ok _ _ _ _ _ Hstep) as (_ & Hl2 & _).
    rewrite H1, bool_decide_eq_false_2 in Hl2 by (by intros ?).
    apply H2.
    apply (list_loop_unnamed _ _ _ _ _ Hl2 Hst).
    apply elem_of_app. right. by left.
Qed.

Lemma from_list_errors_witness :
  is_value_error
    (ColorLabels.from_list_of_color_labels hex_or_triple_color example_float32
       [ {| cl_color := Some (ColorText "#000000");
            cl_one_hot := None; cl_label := None |};
         {| cl_color := Some (ColorText "#FF0000");
            cl_one_hot := None; cl_label := Some "ink"%string |} ]
       None).
Proof.
  apply from_list_errors. right.
  exists [], {| cl_color := Some (ColorText "#000000");
                cl_one_hot := None; cl_label := None |}, [],
         {| cl_color := Some (ColorText "#FF0000");
            cl_one_hot := None; cl_label := Some "ink"%string |}, [].
  by split_and!.
Defined.

(* ------------------------------------------------------------------ *)
(** ** The warning about labels that no row sets *)

Section EmptyLabels.

Import ColorLabels.

Lemma Qc_sum_zero (a q : Qc) :
  (0 <= a)%Qc -> (0 <= q)%Qc -> (a + q)%Qc = 0%Qc <-> a = 0%Qc /\ q = 0%Qc.
Proof.
  intros Ha Hq. split; [| by intros [-> ->]].
  intros Hsum.
  destruct (Qcle_lt_or_eq _ _ Ha) as [Hpos | <-].
  - pose proof (Qcplus_pos_nonneg _ _ Hpos Hq) as H. rewrite Hsum in H.
    by apply Qclt_not_le in H.
  - rewrite Qcplus_0_l in Hsum. done.
Qed.

Lemma of_int_0 : of_int 0 = Finite 0%Qc.
Proof. unfold of_int. f_equal. by apply Qc_is_canon. Qed.

Lemma foldl_zip_zero (w : nat) (rs : list (list number)) :
  Forall (fun r' => length r' = w) rs ->
  Forall (Forall not_negative) rs ->
  forall acc a j,
    length acc = w -> acc !! j = Some (Finite a) -> (0 <= a)%Qc ->
    exists s, foldl (zip_with num_add) acc rs !! j = Some (Finite s)
              /\ (0 <= s)%Qc
              /\ (s = 0%Qc
                  <-> a = 0%Qc
                      /\ forall row, row ∈ rs -> row !! j = Some (Finite 0%Qc)).
Proof.
  induction rs as [| r' rs IH]; intros Hlen Hpos acc a j Hacc Ha Ha0.
  - exists a. split_and!; [done | done |]. split; [| by intros [? _]].
    intros ->. split; [done |]. by intros row ?%elem_of_nil.
  - apply Forall_cons in Hlen as [Hr' Hlen]. apply Forall_cons in Hpos as [Hq' Hpos].
    assert (Hj : (j < length r')%nat)
      by (rewrite Hr', <- Hacc; by eapply lookup_lt_Some).
    destruct (lookup_lt_is_Some_2 r' j Hj) as [x Hx].
    assert (Hx0 : not_negative x).
    { rewrite Forall_forall in Hq'. eapply Hq', list_elem_of_lookup_2, Hx. }
    destruct Hx0 as (q & -> & Hq0).
    cbn [foldl].
    destruct (IH Hlen Hpos (zip_with num_add acc r') (a + q)%Qc j)
      as (s & Hs & Hs0 & Hzero).
    + rewrite length_zip_with. lia.
    + rewrite lookup_zip_with, Ha. simpl. by rewrite Hx.
    + by apply Qcplus_nonneg_nonneg.
    + exists s. split_and!; [done | done |].
      rewrite Hzero, Qc_sum_zero by done. split.
      * intros [[-> ->] Hrest]. split; [done |].
        intros row [-> | ?]%elem_of_cons; [done | by apply Hrest].
      * intros [-> Hall]. split_and!; [done | |].
        -- specialize (Hall r' ltac:(by left)). congruence.
        -- intros row Hrow. apply Hall. by right.
Qed.

(** With entries that are not negative, the sum of a column is zero
    exactly when every row has zero there. *)
Lemma sum_axis0_zero r rs j :
  Forall (fun r' => length r' = length r) rs ->
  Forall (Forall not_negative) (r :: rs) ->
  (j < length r)%nat ->
  sum_axis0 (r :: rs) !! j = Some (of_int 0)
  <-> forall row, row ∈ r :: rs -> row !! j = Some (of_int 0).
Proof.
  intros Hlen Hpos Hj. rewrite of_int_0.
  apply Forall_cons in Hpos as [Hr Hpos].
  destruct (lookup_lt_is_Some_2 r j Hj) as [x Hx].
  assert (Hx0 : not_negative x).
  { rewrite Forall_forall in Hr. eapply Hr, list_elem_of_lookup_2, Hx. }
  destruct Hx0 as (a & -> & Ha0).
  destruct (foldl_zip_zero (length r) rs Hlen Hpos r a j eq_refl Hx Ha0)
    as (s & Hs & _ & Hzero).
  cbn [sum_axis0]. rewrite Hs. split.
  - intros [= ->]. destruct (proj1 Hzero eq_refl) as [-> Hall].
    intros row [-> | ?]%elem_of_cons; [done | by apply Hall].
  - intros Hall. do 2 f_equal. apply Hzero. split.
    + specialize (Hall r ltac:(by left)). congruence.
    + intros row Hrow. apply Hall. by right.
Qed.

Lemma in_unit_range_not_negative x : in_unit_range x -> not_negative x.
Proof. intros (q & -> & Hq & _). by exists q. Qed.

End EmptyLabels.

(** X19. The warning of [_check_empty_labels_one_hot].  For well-formed
    rows whose entries are one-hot values, that is, lie in [0, 1], and
    labels (if any) that cover every column, the check does not raise,
    and it is silent exactly when every class is set in some row, that
    is, when every column has a non-zero entry. *)
Theorem check_empty_labels_warns (cs : list color_row) (r : list number)
    (rs : list (list number)) (ls : option (list string)) :
  Forall (fun r' => length r' = length r) rs ->
  Forall (Forall in_unit_range) (r :: rs) ->
  (forall names, ls = Some names -> names <> [] ->
                 (length r <= length names)%nat) ->
  exists w,
    ColorLabels._check_empty_labels_one_hot
      (ColorLabels.mk cs (Some (r :: rs)) ls None) = Ok w
    /\ (w = None
        <-> forall j, (j < length r)%nat ->
              exists row q, row ∈ r :: rs /\ row !! j = Some q /\ q <> of_int 0).
Proof.
  intros Hlen Hrange Hls.
  assert (Hpos : Forall (Forall not_negative) (r :: rs)).
  { eapply Forall_impl; [exact Hrange |]. intros row Hrow.
    eapply Forall_impl; [exact Hrow |]. apply in_unit_range_not_negative. }
  unfold ColorLabels._check_empty_labels_one_hot.
  cbn [ColorLabels.one_hot_encoding ColorLabels.labels default id].
  rewrite (np_array_homogeneous r rs Hlen), bind_ret.
  set (idxs := np_where _).
  assert (Hidx : forall j, j ∈ idxs <->
            (j < length r)%nat
            /\ forall row, row ∈ r :: rs -> row !! j = Some (of_int 0)).
  { intros j. unfold idxs. rewrite empty_column_elem. split.
    - intros Hj.
      assert (Hlt : (j < length r)%nat).
      { apply lookup_lt_Some in Hj. by rewrite sum_axis0_length in Hj. }
      split; [done |]. by apply sum_axis0_zero.
    - intros [Hlt Hall]. by apply sum_axis0_zero. }
  assert (Hsilent : idxs = [] <->
            forall j, (j < length r)%nat ->
              exists row q, row ∈ r :: rs /\ row !! j = Some q /\ q <> of_int 0).
  { split.
    - intros Hnil j Hj.
      destruct (decide (Forall (fun row : list number => row !! j = Some (of_int 0))
                          (r :: rs)))
        as [Hall | Hnot].
      + assert (Hin : j ∈ idxs)
          by (apply Hidx; split; [done |]; by apply Forall_forall).
        rewrite Hnil in Hin. by apply elem_of_nil in Hin.
      + apply not_Forall_Exists in Hnot; [| apply _].
        apply Exists_exists in Hnot as (row & Hrow & Hne).
        assert (Hjrow : (j < length row)%nat).
        { apply elem_of_cons in Hrow as [-> | Hrow]; [done |].
          rewrite Forall_forall in Hlen. by rewrite (Hlen row Hrow). }
        destruct (lookup_lt_is_Some_2 row j Hjrow) as [q Hq].
        exists row, q. split_and!; [done | done |]. intros ->. by apply Hne.
    - intros Hall. destruct idxs as [| j idxs'] eqn:Heq; [done |].
      assert (Hin : j ∈ j :: idxs') by (by left).
      apply Hidx in Hin as [Hj Hzero].
      destruct (Hall j Hj) as (row & q & Hrow & Hq & Hne).
      rewrite (Hzero row Hrow) in Hq. congruence. }
  destruct idxs as [| j0 idxs'] eqn:Heq.
  - exists None. split; [done |]. split; [| done].
    intros _. by apply Hsilent.
  - cbn [length Nat.ltb Nat.leb].
    assert (Hnot : ~ forall j, (j < length r)%nat ->
              exists row q, row ∈ r :: rs /\ row !! j = Some q /\ q <> of_int 0)
      by (intros H; by apply Hsilent in H).
    destruct ls as [[| name names] |].
    + eexists. split; [done |]. by split.
    + destruct (for_each_getitem_Ok (name :: names) (j0 :: idxs')) as [ys ->].
      { intros j Hj. apply Hidx in Hj as [Hj _].
        specialize (Hls _ eq_refl ltac:(done)). lia. }
      eexists. split; [done |]. by split.
    + eexists. split; [done |]. by split.
Qed.

Lemma check_empty_labels_warns_witness :
  exists w,
    ColorLabels._check_empty_labels_one_hot
      (ColorLabels.mk [TupleColor (0, 0, 0); TupleColor (255, 0, 0)]
         (Some [[of_int 0; of_int 0]; [of_int 1; of_int 0]])
         (Some ["ink"; "seal"]%string) None)
    = Ok w
    /\ w <> None.
Proof.
  destruct (check_empty_labels_warns [TupleColor (0, 0, 0); TupleColor (255, 0, 0)]
              [of_int 0; of_int 0] [[of_int 1; of_int 0]]
              (Some ["ink"; "seal"]%string)) as (w & Hw & Hsilent).
  - by repeat (apply Forall_cons_2 || apply Forall_nil_2).
  - repeat (apply Forall_cons_2 || apply Forall_nil_2);
      (eexists; split; [reflexivity |]; split; by vm_compute).
  - intros names [= <-] _. simpl. lia.
  - exists w. split; [exact Hw |]. intros Hnone.
    destruct (proj1 Hsilent Hnone 1%nat ltac:(simpl; lia))
      as (row & q & Hrow & Hq & Hne).
    rewrite !elem_of_cons, elem_of_nil in Hrow.
    destruct Hrow as [-> | [-> | []]]; injection Hq as <-; by apply Hne.
Defined.
